(** * The O(1) per-CPU scheduler of ghost-userspace

    A shallow embedding of [schedulers/o1/o1_scheduler.cc] and the
    properties its specification states about it.

    Tasks are heap objects reached through pointers ([O1Task*]): the same
    record is referenced from a runqueue band, from a CPU's [current] and
    from the handler that received a message about it.  The embedding
    therefore keeps one store of task records indexed by address, and the
    runqueues and [current] hold addresses.  The code is sequential per
    agent; every function of the source becomes a computation in a
    state-and-failure monad whose failures are the two ways the C++ stops:
    a failed [CHECK] (the process aborts) and a dereference of a null or
    freed pointer. *)

From stdpp Require Import gmap list.
From Stdlib Require Import ZArith Lia Permutation.

Local Open Scope Z_scope.

(** ** Data model *)

Inductive O1TaskState : Type := kBlocked | kRunnable | kQueued | kOnCpu.

#[global] Instance O1TaskState_eq_dec : EqDecision O1TaskState.
Proof. solve_decision. Defined.

(** Addresses of task records. *)
Abbreviation taskp := nat (only parsing).

(** Modelled from the spec: [o1_scheduler.h] is not among the sources, so
    the task record carries the attributes section 3 of the specification
    lists and the source file reads and writes.  Durations and timestamps
    ([absl::Duration], [absl::Time]) are exact integers, here nanoseconds
    in [Z]. *)
Record O1Task : Type := mkO1Task {
  gtid : Z;
  run_state : O1TaskState;
  cpu : Z;
  preempted : bool;
  prio_boost : bool;
  seqnum : Z;
  remaining_time : Z;
  runtime_at_last_pick : Z
}.

Definition set_run_state (v : O1TaskState) (t : O1Task) : O1Task :=
  mkO1Task (gtid t) v (cpu t) (preempted t) (prio_boost t) (seqnum t)
           (remaining_time t) (runtime_at_last_pick t).
Definition set_cpu (v : Z) (t : O1Task) : O1Task :=
  mkO1Task (gtid t) (run_state t) v (preempted t) (prio_boost t) (seqnum t)
           (remaining_time t) (runtime_at_last_pick t).
Definition set_preempted (v : bool) (t : O1Task) : O1Task :=
  mkO1Task (gtid t) (run_state t) (cpu t) v (prio_boost t) (seqnum t)
           (remaining_time t) (runtime_at_last_pick t).
Definition set_prio_boost (v : bool) (t : O1Task) : O1Task :=
  mkO1Task (gtid t) (run_state t) (cpu t) (preempted t) v (seqnum t)
           (remaining_time t) (runtime_at_last_pick t).
Definition set_seqnum (v : Z) (t : O1Task) : O1Task :=
  mkO1Task (gtid t) (run_state t) (cpu t) (preempted t) (prio_boost t) v
           (remaining_time t) (runtime_at_last_pick t).
Definition set_remaining_time (v : Z) (t : O1Task) : O1Task :=
  mkO1Task (gtid t) (run_state t) (cpu t) (preempted t) (prio_boost t)
           (seqnum t) v (runtime_at_last_pick t).
Definition set_runtime_at_last_pick (v : Z) (t : O1Task) : O1Task :=
  mkO1Task (gtid t) (run_state t) (cpu t) (preempted t) (prio_boost t)
           (seqnum t) (remaining_time t) v.

(** Modelled from the spec: the state predicates of the task record
    declared in the missing header ([oncpu()], [queued()], [blocked()]). *)
Definition oncpu (t : O1Task) : bool := bool_decide (run_state t = kOnCpu).
Definition queued (t : O1Task) : bool := bool_decide (run_state t = kQueued).
Definition blocked (t : O1Task) : bool := bool_decide (run_state t = kBlocked).

(** The dual-array runqueue: [aq_] is the active band, [eq_] the expired
    one, both [std::deque<O1Task*>].  The mutex [mu_] has no content in a
    sequential model. *)
Record O1Rq : Type := mkO1Rq {
  aq_ : list taskp;
  eq_ : list taskp
}.

(** Modelled from the spec: the per-CPU state of the missing header, with
    the members the source file uses.  [current] is a nullable pointer. *)
Record CpuState : Type := mkCpuState {
  current : option taskp;
  run_queue : O1Rq;
  preempt_curr : bool
}.

Definition set_current (v : option taskp) (cs : CpuState) : CpuState :=
  mkCpuState v (run_queue cs) (preempt_curr cs).
Definition set_run_queue (v : O1Rq) (cs : CpuState) : CpuState :=
  mkCpuState (current cs) v (preempt_curr cs).
Definition set_preempt_curr (v : bool) (cs : CpuState) : CpuState :=
  mkCpuState (current cs) (run_queue cs) v.

(** A default-constructed [CpuState]. *)
Definition CpuState_init : CpuState := mkCpuState None (mkO1Rq [] []) false.

(** Calls that leave the scheduler: channel association, agent pings, the
    run request of the commit loop and the allocator's free.  They are
    recorded in program order. *)
Inductive Event : Type :=
| EvAssociateTask (c : Z) (g : Z) (barrier : Z) (ok : bool)
| EvPing (c : Z)
| EvPause
| EvOpen (c : Z) (target : Z) (target_barrier agent_barrier : Z)
| EvCommit (c : Z) (ok : bool)
| EvLocalYield (c : Z) (agent_barrier : Z) (rtla_on_idle : bool)
| EvFreeTask (p : taskp).

(** The scheduler object.  [tasks_] is the allocator's pool, [cpu_states_]
    the array of per-CPU states indexed by CPU id, [cpus_] the enclave's
    CPU list, [rr_next] the function-local static cursor of [AssignCpu]
    ([None] until the first call initialises the statics), [now_reads] the
    number of clock readings taken so far. *)
Record Sched : Type := mkSched {
  tasks_ : gmap nat O1Task;
  cpu_states_ : gmap Z CpuState;
  cpus_ : list Z;
  rr_next : option nat;
  now_reads : nat;
  trace : list Event
}.

Definition set_tasks (v : gmap nat O1Task) (s : Sched) : Sched :=
  mkSched v (cpu_states_ s) (cpus_ s) (rr_next s) (now_reads s) (trace s).
Definition set_cpu_states (v : gmap Z CpuState) (s : Sched) : Sched :=
  mkSched (tasks_ s) v (cpus_ s) (rr_next s) (now_reads s) (trace s).
Definition set_rr_next (v : option nat) (s : Sched) : Sched :=
  mkSched (tasks_ s) (cpu_states_ s) (cpus_ s) v (now_reads s) (trace s).
Definition set_now_reads (v : nat) (s : Sched) : Sched :=
  mkSched (tasks_ s) (cpu_states_ s) (cpus_ s) (rr_next s) v (trace s).
Definition set_trace (v : list Event) (s : Sched) : Sched :=
  mkSched (tasks_ s) (cpu_states_ s) (cpus_ s) (rr_next s) (now_reads s) v.

(** [cpu_states_[c]]: the array holds a default-constructed state for
    every CPU id that was never written. *)
Definition cs_of (s : Sched) (c : Z) : CpuState :=
  default CpuState_init (cpu_states_ s !! c).

(** The state after [*p = t], and after [cpu_states_[c].run_queue = rq]. *)
Definition with_task (p : taskp) (t : O1Task) (s : Sched) : Sched :=
  set_tasks (<[p := t]> (tasks_ s)) s.
Definition with_cs (c : Z) (cs : CpuState) (s : Sched) : Sched :=
  set_cpu_states (<[c := cs]> (cpu_states_ s)) s.
Definition with_rq (c : Z) (rq : O1Rq) (s : Sched) : Sched :=
  with_cs c (set_run_queue rq (cs_of s c)) s.

(** Where a task pointer is held: in a band of CPU [c]'s runqueue, or in
    any of CPU [c]'s data structures. *)
Definition in_rq (s : Sched) (c : Z) (p : taskp) : Prop :=
  p ∈ aq_ (run_queue (cs_of s c)) ∨ p ∈ eq_ (run_queue (cs_of s c)).

(** ** The monad of scheduler code *)

(** How a call ends: normally with a value, by a failed [CHECK] (abort),
    or by dereferencing a null or freed pointer (fault).  Each carries the
    scheduler state at that point. *)
Inductive Outcome (A : Type) : Type :=
| Ok (a : A) (s : Sched)
| Abort (s : Sched)
| Fault (s : Sched).
Arguments Ok {A} a s.
Arguments Abort {A} s.
Arguments Fault {A} s.

Definition state_of {A} (o : Outcome A) : Sched :=
  match o with Ok _ s | Abort s | Fault s => s end.

Definition result_of {A} (o : Outcome A) : option A :=
  match o with Ok a _ => Some a | _ => None end.

Definition M (A : Type) : Type := Sched → Outcome A.

Definition ret {A} (a : A) : M A := fun s => Ok a s.

Definition bind {A B} (m : M A) (f : A → M B) : M B :=
  fun s => match m s with
           | Ok a s' => f a s'
           | Abort s' => Abort s'
           | Fault s' => Fault s'
           end.

Declare Scope sched_scope.
Delimit Scope sched_scope with sched.
Notation "x <- m ;; k" := (bind m (fun x => k))
  (at level 100, m at next level, right associativity) : sched_scope.
Notation "m ;; k" := (bind m (fun _ => k))
  (at level 100, right associativity) : sched_scope.
Local Open Scope sched_scope.

Definition CHECK (b : bool) : M unit :=
  fun s => if b then Ok tt s else Abort s.

Definition fault {A} : M A := fun s => Fault s.

Definition emit (e : Event) : M unit :=
  fun s => Ok tt (set_trace (trace s ++ [e]) s).

(** [*p] for a task pointer. *)
Definition get_task (p : taskp) : M O1Task :=
  fun s => match tasks_ s !! p with
           | Some t => Ok t s
           | None => Fault s
           end.

(** A write through a task pointer: [p->field = v]. *)
Definition modify_task (p : taskp) (f : O1Task → O1Task) : M unit :=
  fun s => match tasks_ s !! p with
           | Some t => Ok tt (set_tasks (<[p := f t]> (tasks_ s)) s)
           | None => Fault s
           end.

(** [cpu_state(cpu)]. *)
Definition cpu_state (c : Z) : M CpuState := fun s => Ok (cs_of s c) s.

(** A write through a [CpuState*]: [cs->field = v]. *)
Definition modify_cs (c : Z) (f : CpuState → CpuState) : M unit :=
  fun s => Ok tt (set_cpu_states (<[c := f (cs_of s c)]> (cpu_states_ s)) s).

(** Modelled from the spec: [cpu_state_of(task)] of the missing header, the
    state of the CPU the task is placed on; a task with [cpu = -1] is
    unplaced and has none. *)
Definition cpu_state_of (p : taskp) : M Z :=
  t <- get_task p ;;
  CHECK (bool_decide (0 ≤ cpu t)) ;;
  ret (cpu t).

(** ** A concrete scheduler state

    Two CPUs.  CPU 0 runs task 1, whose slice has 5ns left, and has task 2
    queued in its active band; task 3 is Runnable on CPU 0 and not yet
    enqueued; task 4 is Runnable and unplaced; task 5 is Blocked on CPU 1,
    which has no current task.  The clock reads 10ns and advances by 1ns
    per reading; the slice is 100ns. *)
Definition ex_t1 : O1Task := mkO1Task 101 kOnCpu 0 false false 0 5 0.
Definition ex_t2 : O1Task := mkO1Task 102 kQueued 0 false false 0 100 0.
Definition ex_t3 : O1Task := mkO1Task 103 kRunnable 0 false false 0 7 0.
Definition ex_t4 : O1Task := mkO1Task 104 kRunnable (-1) false true 0 100 0.
Definition ex_t5 : O1Task := mkO1Task 105 kBlocked 1 false false 0 100 0.

Definition ex_tasks : gmap nat O1Task :=
  <[1%nat := ex_t1]> (<[2%nat := ex_t2]> (<[3%nat := ex_t3]>
    (<[4%nat := ex_t4]> (<[5%nat := ex_t5]> ∅)))).

Definition ex_cs0 : CpuState := mkCpuState (Some 1%nat) (mkO1Rq [2%nat] []) false.

Definition ex_s : Sched :=
  mkSched ex_tasks (<[0 := ex_cs0]> ∅) [0; 1] None 0 [].

(** The same state with CPU 0 marked for preemption. *)
Definition ex_s_preempt : Sched :=
  with_cs 0 (set_preempt_curr true ex_cs0) ex_s.

Definition ex_SLICE : Z := 100.
Definition ex_clock (n : nat) : Z := 10 + Z.of_nat n.

(** A clock under which task 1 still has slice left when it goes off CPU. *)
Definition ex_clock_early (n : nat) : Z := 2.

(** CPU 0 idle with task 2 waiting; CPU 0 running task 1 alone and marked
    for preemption; and task 5 blocked on CPU 0 (after a switchto) while
    task 1 runs there. *)
Definition ex_s_idle : Sched :=
  with_cs 0 (set_current None ex_cs0) (with_task 1 (set_run_state kBlocked ex_t1) ex_s).
Definition ex_s_lone : Sched :=
  with_cs 0 (mkCpuState (Some 1%nat) (mkO1Rq [] []) true)
    (with_task 2 (set_run_state kBlocked ex_t2) ex_s).
Definition ex_s_switchto : Sched := with_task 5 (set_cpu 0 ex_t5) ex_s.

Section O1.

(** The time slice assigned by [SetRemainingTime] (a constant of the
    missing header) and the wall clock: [clock n] is what the [n]-th call
    of [absl::Now()] returns. *)
Variable SLICE : Z.
Variable clock : nat → Z.

(** [absl::Now()]. *)
Definition Now : M Z :=
  fun s => Ok (clock (now_reads s)) (set_now_reads (S (now_reads s)) s).

(** ** Task record operations *)

(** Modelled from the spec: [set_remaining_time()] assigns
    [remaining_time ← SLICE]. *)
Definition SetRemainingTime (p : taskp) : M unit :=
  modify_task p (set_remaining_time SLICE).

(** Modelled from the spec: [set_runtime_at_last_pick()] records the
    current time. *)
Definition SetRuntimeAtLastPick (p : taskp) : M unit :=
  n <- Now ;;
  modify_task p (set_runtime_at_last_pick n).

(** [O1Task::UpdateRemainingTime]. *)
Definition UpdateRemainingTime (p : taskp) (isOff : bool) : M bool :=
  n <- Now ;;
  modify_task p
    (fun t => set_remaining_time
                (remaining_time t - (n - runtime_at_last_pick t)) t) ;;
  if negb isOff then
    SetRuntimeAtLastPick p ;;
    t <- get_task p ;;
    if bool_decide (remaining_time t ≤ 0) then ret true else ret false
  else ret false.

(** ** The runqueue *)

Definition get_rq (c : Z) : M O1Rq := fun s => Ok (run_queue (cs_of s c)) s.

Definition set_rq (c : Z) (rq : O1Rq) : M unit :=
  modify_cs c (set_run_queue rq).

(** [O1Rq::Enqueue], on the runqueue of CPU [c]. *)
Definition O1Rq_Enqueue (c : Z) (p : taskp) : M unit :=
  t <- get_task p ;;
  CHECK (bool_decide (0 ≤ cpu t)) ;;
  CHECK (bool_decide (run_state t = kRunnable)) ;;
  modify_task p (set_run_state kQueued) ;;
  t <- get_task p ;;
  rq <- get_rq c ;;
  if bool_decide (0 < remaining_time t) then
    if prio_boost t
    then set_rq c (mkO1Rq (p :: aq_ rq) (eq_ rq))
    else set_rq c (mkO1Rq (aq_ rq ++ [p]) (eq_ rq))
  else
    SetRemainingTime p ;;
    t <- get_task p ;;
    if prio_boost t
    then set_rq c (mkO1Rq (aq_ rq) (p :: eq_ rq))
    else set_rq c (mkO1Rq (aq_ rq) (eq_ rq ++ [p])).

(** [O1Rq::EnqueueActive]. *)
Definition O1Rq_EnqueueActive (c : Z) (p : taskp) : M unit :=
  t <- get_task p ;;
  CHECK (bool_decide (0 ≤ cpu t)) ;;
  CHECK (bool_decide (run_state t = kRunnable)) ;;
  modify_task p (set_run_state kQueued) ;;
  t <- get_task p ;;
  rq <- get_rq c ;;
  if prio_boost t
  then set_rq c (mkO1Rq (p :: aq_ rq) (eq_ rq))
  else set_rq c (mkO1Rq (aq_ rq ++ [p]) (eq_ rq)).

(** [O1Rq::EnqueueExpired]. *)
Definition O1Rq_EnqueueExpired (c : Z) (p : taskp) : M unit :=
  t <- get_task p ;;
  CHECK (bool_decide (0 ≤ cpu t)) ;;
  CHECK (bool_decide (run_state t = kRunnable)) ;;
  modify_task p (set_run_state kQueued) ;;
  SetRemainingTime p ;;
  t <- get_task p ;;
  rq <- get_rq c ;;
  if prio_boost t
  then set_rq c (mkO1Rq (aq_ rq) (p :: eq_ rq))
  else set_rq c (mkO1Rq (aq_ rq) (eq_ rq ++ [p])).

(** [O1Rq::Swap]. *)
Definition O1Rq_Swap (c : Z) : M unit :=
  rq <- get_rq c ;;
  set_rq c (mkO1Rq (eq_ rq) (aq_ rq)).

(** The tail of [O1Rq::Dequeue] (from [aq_.front()] on): take the front
    of the active band.  [front()] of an empty deque is undefined. *)
Definition O1Rq_pop_front (c : Z) : M (option taskp) :=
  rq <- get_rq c ;;
  match aq_ rq with
  | [] => fault
  | p :: rest =>
      t <- get_task p ;;
      CHECK (queued t) ;;
      modify_task p (set_run_state kRunnable) ;;
      set_rq c (mkO1Rq rest (eq_ rq)) ;;
      ret (Some p)
  end.

(** [O1Rq::Dequeue]; [None] is the null pointer. *)
Definition O1Rq_Dequeue (c : Z) : M (option taskp) :=
  rq <- get_rq c ;;
  if bool_decide (aq_ rq = []) then
    if bool_decide (eq_ rq = []) then ret None
    else O1Rq_Swap c ;; O1Rq_pop_front c
  else O1Rq_pop_front c.

(** The search loop of [Erase]: [for (; pos < size - 1; pos++)], with
    [n] the iterations left; the position of the first match, if any. *)
Fixpoint erase_loop (q : list taskp) (p : taskp) (pos n : nat) : option nat :=
  match n with
  | O => None
  | S n' => if bool_decide (q !! pos = Some p) then Some pos
            else erase_loop q p (S pos) n'
  end.

(** The scan of one band in [Erase]: the back first, then from the front.
    The band without the erased element, or [None] when the task is not
    in the band. *)
Definition erase_band (q : list taskp) (p : taskp) : option (list taskp) :=
  let size := length q in
  if bool_decide (0 < size)%nat then
    let pos := (size - 1)%nat in
    if bool_decide (q !! pos = Some p) then Some (delete pos q)
    else match erase_loop q p 0 (size - 1) with
         | Some pos' => Some (delete pos' q)
         | None => None
         end
  else None.

(** [O1Rq::Erase]. *)
Definition O1Rq_Erase (c : Z) (p : taskp) : M unit :=
  t <- get_task p ;;
  CHECK (bool_decide (run_state t = kQueued)) ;;
  rq <- get_rq c ;;
  match erase_band (aq_ rq) p with
  | Some aq' =>
      set_rq c (mkO1Rq aq' (eq_ rq)) ;;
      modify_task p (set_run_state kRunnable)
  | None =>
      match erase_band (eq_ rq) p with
      | Some eq' =>
          set_rq c (mkO1Rq (aq_ rq) eq') ;;
          modify_task p (set_run_state kRunnable)
      | None => CHECK false
      end
  end.

(** [O1Rq::Empty], from the missing header: no task in either band. *)
Definition O1Rq_Empty (rq : O1Rq) : bool :=
  bool_decide (aq_ rq = []) && bool_decide (eq_ rq = []).

(** ** The scheduler *)

(** [O1Scheduler::AssignCpu].  The statics [begin], [end] and [next] are
    positions in [cpus_]; [next] starts at [end].  The task argument is
    only logged. *)
Definition AssignCpu : M Z :=
  fun s =>
    let end_ := length (cpus_ s) in
    let next := default end_ (rr_next s) in
    let next := if bool_decide (next = end_) then O else next in
    match cpus_ s !! next with
    | Some c => Ok c (set_rr_next (Some (S next)) s)
    | None => Fault (set_rr_next (Some next) s)
    end.

(** [O1Scheduler::Migrate].  [assoc_ok] is what the channel's
    [AssociateTask] answers. *)
Definition Migrate (p : taskp) (c : Z) (seqnum_ : Z) (assoc_ok : bool)
  : M unit :=
  t <- get_task p ;;
  CHECK (bool_decide (run_state t = kRunnable)) ;;
  CHECK (bool_decide (cpu t = -1)) ;;
  emit (EvAssociateTask c (gtid t) seqnum_ assoc_ok) ;;
  CHECK assoc_ok ;;
  modify_task p (set_cpu c) ;;
  O1Rq_Enqueue c p ;;
  emit (EvPing c).

(** [O1Scheduler::TaskOffCpu]. *)
Definition TaskOffCpu (p : taskp) (blocked_ from_switchto : bool) : M unit :=
  c <- cpu_state_of p ;;
  cs <- cpu_state c ;;
  match current cs with
  | None => fault
  | Some cur =>
      expired <- UpdateRemainingTime cur true ;;
      if expired then modify_cs c (set_preempt_curr true) else ret tt
  end ;;
  t <- get_task p ;;
  (if oncpu t then
     cs <- cpu_state c ;;
     CHECK (bool_decide (current cs = Some p)) ;;
     modify_cs c (set_current None)
   else
     CHECK from_switchto ;;
     CHECK (bool_decide (run_state t = kBlocked))) ;;
  modify_task p (set_run_state (if blocked_ then kBlocked else kRunnable)).

(** [O1Scheduler::TaskOnCpu]. *)
Definition TaskOnCpu (p : taskp) (c : Z) : M unit :=
  modify_cs c (set_current (Some p)) ;;
  modify_task p (set_run_state kOnCpu) ;;
  SetRuntimeAtLastPick p ;;
  modify_task p (set_cpu c) ;;
  modify_task p (set_preempted false) ;;
  modify_task p (set_prio_boost false).

(** [allocator()->FreeTask(task)]: the record leaves the pool. *)
Definition FreeTask (p : taskp) : M unit :=
  fun s => Ok tt (set_trace (trace s ++ [EvFreeTask p])
                    (set_tasks (delete p (tasks_ s)) s)).

(** [O1Scheduler::TaskNew]; [runnable] is the payload's flag. *)
Definition TaskNew (p : taskp) (runnable : bool) (msg_seqnum : Z)
    (assoc_ok : bool) : M unit :=
  SetRemainingTime p ;;
  modify_task p (set_seqnum msg_seqnum) ;;
  modify_task p (set_run_state kBlocked) ;;
  if runnable then
    modify_task p (set_run_state kRunnable) ;;
    c <- AssignCpu ;;
    Migrate p c msg_seqnum assoc_ok
  else ret tt.

(** [O1Scheduler::TaskRunnable]. *)
Definition TaskRunnable (p : taskp) (deferrable : bool) (msg_seqnum : Z)
    (assoc_ok : bool) : M unit :=
  t <- get_task p ;;
  CHECK (blocked t) ;;
  modify_task p (set_run_state kRunnable) ;;
  modify_task p (set_prio_boost (negb deferrable)) ;;
  t <- get_task p ;;
  if bool_decide (cpu t < 0) then
    c <- AssignCpu ;;
    Migrate p c msg_seqnum assoc_ok
  else
    c <- cpu_state_of p ;;
    O1Rq_Enqueue c p.

(** The ping of the remote agent that ends the handlers of messages
    carrying [from_switchto]. *)
Definition ping_if (from_switchto : bool) (payload_cpu : Z) : M unit :=
  if from_switchto then emit (EvPing payload_cpu) else ret tt.

(** [O1Scheduler::TaskDeparted]. *)
Definition TaskDeparted (p : taskp) (from_switchto : bool) (payload_cpu : Z)
  : M unit :=
  t <- get_task p ;;
  (if oncpu t || from_switchto then TaskOffCpu p false from_switchto
   else if queued t then
     c <- cpu_state_of p ;;
     O1Rq_Erase c p
   else CHECK (blocked t)) ;;
  ping_if from_switchto payload_cpu ;;
  FreeTask p.

(** [O1Scheduler::TaskDead]. *)
Definition TaskDead (p : taskp) : M unit :=
  t <- get_task p ;;
  CHECK (blocked t) ;;
  FreeTask p.

(** [O1Scheduler::TaskYield]. *)
Definition TaskYield (p : taskp) (from_switchto : bool) (payload_cpu : Z)
  : M unit :=
  TaskOffCpu p false from_switchto ;;
  c <- cpu_state_of p ;;
  O1Rq_Enqueue c p ;;
  ping_if from_switchto payload_cpu.

(** [O1Scheduler::TaskBlocked]. *)
Definition TaskBlocked (p : taskp) (from_switchto : bool) (payload_cpu : Z)
  : M unit :=
  TaskOffCpu p true from_switchto ;;
  ping_if from_switchto payload_cpu.

(** [O1Scheduler::TaskPreempted]. *)
Definition TaskPreempted (p : taskp) (from_switchto : bool) (payload_cpu : Z)
  : M unit :=
  TaskOffCpu p false from_switchto ;;
  modify_task p (set_preempted true) ;;
  modify_task p (set_prio_boost true) ;;
  c <- cpu_state_of p ;;
  O1Rq_Enqueue c p ;;
  ping_if from_switchto payload_cpu.

(** [O1Scheduler::TaskSwitchto]. *)
Definition TaskSwitchto (p : taskp) : M unit :=
  TaskOffCpu p true false.

(** [O1Scheduler::CheckPreemptTick]. *)
Definition CheckPreemptTick (c : Z) : M unit :=
  cs <- cpu_state c ;;
  match current cs with
  | Some cur =>
      expired <- UpdateRemainingTime cur false ;;
      if expired then modify_cs c (set_preempt_curr true) else ret tt
  | None => ret tt
  end.

(** [O1Scheduler::CpuTick]. *)
Definition CpuTick (payload_cpu : Z) : M unit :=
  CheckPreemptTick payload_cpu.

(** *** The commit loop, [O1Scheduler::O1Schedule], in its three parts *)

(** Lines 331-340: the preemption step. *)
Definition O1Schedule_preempt (c : Z) : M unit :=
  cs <- cpu_state c ;;
  if preempt_curr cs then
    let prev := current cs in
    match prev with
    | Some pv =>
        TaskOffCpu pv false false ;;
        O1Rq_Enqueue c pv
    | None => ret tt
    end ;;
    modify_cs c (set_preempt_curr false)
  else ret tt.

(** Lines 342-345: the selection of [next]. *)
Definition O1Schedule_pick (c : Z) (prio_boost_ : bool) : M (option taskp) :=
  if negb prio_boost_ then
    cs <- cpu_state c ;;
    match current cs with
    | Some cur => ret (Some cur)
    | None => O1Rq_Dequeue c
    end
  else ret None.

(** The wait [while (next->status_word.on_cpu()) Pause();]: the status
    word is kernel memory, and [spins] is how often it was read as on-CPU
    before it was read as off. *)
Fixpoint pause_loop (spins : nat) : M unit :=
  match spins with
  | O => ret tt
  | S n => emit EvPause ;; pause_loop n
  end.

(** Lines 351-398: the run request.  [commit_ok] is what [req->Commit()]
    answers. *)
Definition O1Schedule_commit (c : Z) (agent_barrier : Z) (prio_boost_ : bool)
    (next : option taskp) (spins : nat) (commit_ok : bool) : M unit :=
  match next with
  | Some nx =>
      t <- get_task nx ;;
      pause_loop spins ;;
      emit (EvOpen c (gtid t) (seqnum t) agent_barrier) ;;
      emit (EvCommit c commit_ok) ;;
      if commit_ok then TaskOnCpu nx c
      else
        cs <- cpu_state c ;;
        (if bool_decide (Some nx = current cs)
         then TaskOffCpu nx false false else ret tt) ;;
        modify_task nx (set_prio_boost true) ;;
        O1Rq_Enqueue c nx
  | None =>
      cs <- cpu_state c ;;
      let flags :=
        prio_boost_ && (bool_decide (current cs ≠ None)
                        || negb (O1Rq_Empty (run_queue cs))) in
      emit (EvLocalYield c agent_barrier flags)
  end.

(** [O1Scheduler::O1Schedule]. *)
Definition O1Schedule (c : Z) (agent_barrier : Z) (prio_boost_ : bool)
    (spins : nat) (commit_ok : bool) : M unit :=
  O1Schedule_preempt c ;;
  next <- O1Schedule_pick c prio_boost_ ;;
  O1Schedule_commit c agent_barrier prio_boost_ next spins commit_ok.

(** [n] consecutive calls of [AssignCpu], with the CPUs they return. *)
Fixpoint AssignCpu_n (n : nat) : M (list Z) :=
  match n with
  | O => ret []
  | S k =>
      c <- AssignCpu ;;
      rest <- AssignCpu_n k ;;
      ret (c :: rest)
  end.

(** The entry points of the scheduler: one per kernel message, with the
    payload fields and kernel answers the handler uses, and the commit
    loop. *)
Inductive Call : Type :=
| CallTaskNew (p : taskp) (runnable : bool) (msg_seqnum : Z) (assoc_ok : bool)
| CallTaskRunnable (p : taskp) (deferrable : bool) (msg_seqnum : Z)
                   (assoc_ok : bool)
| CallTaskDeparted (p : taskp) (from_switchto : bool) (payload_cpu : Z)
| CallTaskDead (p : taskp)
| CallTaskYield (p : taskp) (from_switchto : bool) (payload_cpu : Z)
| CallTaskBlocked (p : taskp) (from_switchto : bool) (payload_cpu : Z)
| CallTaskPreempted (p : taskp) (from_switchto : bool) (payload_cpu : Z)
| CallTaskSwitchto (p : taskp)
| CallCpuTick (payload_cpu : Z)
| CallO1Schedule (c : Z) (agent_barrier : Z) (prio_boost_ : bool)
                 (spins : nat) (commit_ok : bool).

Definition exec (k : Call) : M unit :=
  match k with
  | CallTaskNew p r q a => TaskNew p r q a
  | CallTaskRunnable p d q a => TaskRunnable p d q a
  | CallTaskDeparted p f pc => TaskDeparted p f pc
  | CallTaskDead p => TaskDead p
  | CallTaskYield p f pc => TaskYield p f pc
  | CallTaskBlocked p f pc => TaskBlocked p f pc
  | CallTaskPreempted p f pc => TaskPreempted p f pc
  | CallTaskSwitchto p => TaskSwitchto p
  | CallCpuTick pc => CpuTick pc
  | CallO1Schedule c ab pb sp ok => O1Schedule c ab pb sp ok
  end.

Definition is_tick (k : Call) : bool :=
  match k with CallCpuTick _ => true | _ => false end.

(** A computation that leaves every CPU's [preempt_curr] as it found it,
    however it ends; and one that may clear the flag but never sets it. *)
Definition keeps_preempt {A} (m : M A) : Prop :=
  ∀ s c, preempt_curr (cs_of (state_of (m s)) c) = preempt_curr (cs_of s c).

Definition never_sets_preempt {A} (m : M A) : Prop :=
  ∀ s c, preempt_curr (cs_of (state_of (m s)) c) = true →
         preempt_curr (cs_of s c) = true.

(** The position [AssignCpu]'s static cursor stands at: [end] until the
    first call. *)
Definition rr_start (s : Sched) : nat :=
  default (length (cpus_ s)) (rr_next s).

(** How often CPU [x] occurs in a list of placements. *)
Definition count_cpu (x : Z) (l : list Z) : nat := count_occ Z.eq_dec l x.

(** [l] walks the CPU list [L] cyclically from position [a]. *)
Definition round_robin (L : list Z) (a : nat) (l : list Z) : Prop :=
  ∀ i, (i < length l)%nat → l !! i = L !! ((a + i) mod length L)%nat.

(** ** The bookkeeping invariant *)

(** The tasks CPU [c]'s runqueue holds, active band first. *)
Definition bands (s : Sched) (c : Z) : list taskp :=
  aq_ (run_queue (cs_of s c)) ++ eq_ (run_queue (cs_of s c)).

(** A task that is neither queued nor on CPU. *)
Definition idle (t : O1Task) : Prop :=
  run_state t = kBlocked ∨ run_state t = kRunnable.

(** No runqueue and no CPU holds the pointer. *)
Definition unreferenced (s : Sched) (p : taskp) : Prop :=
  ∀ c, (p ∉ bands s c) ∧ current (cs_of s c) ≠ Some p.

(** What the [CHECK]s of the handlers rely on: a pointer held by a runqueue
    is a live Queued task placed on that CPU, and a runqueue holds it once;
    a CPU's [current] is a live task that is on CPU and placed there; a
    Queued task is in the runqueue of its CPU and a task on CPU is the
    [current] of its CPU. *)
Record INV (s : Sched) : Prop := mkINV {
  inv_queued : ∀ c p, p ∈ bands s c →
    ∃ t, tasks_ s !! p = Some t ∧ run_state t = kQueued ∧ cpu t = c;
  inv_current : ∀ c p, current (cs_of s c) = Some p →
    ∃ t, tasks_ s !! p = Some t ∧ run_state t = kOnCpu ∧ cpu t = c;
  inv_nodup : ∀ c, NoDup (bands s c);
  inv_in_rq : ∀ p t, tasks_ s !! p = Some t → run_state t = kQueued →
    p ∈ bands s (cpu t);
  inv_on_cpu : ∀ p t, tasks_ s !! p = Some t → run_state t = kOnCpu →
    current (cs_of s (cpu t)) = Some p
}.

(** [n] consecutive calls of [Dequeue] on CPU [c], with what they return. *)
Fixpoint Dequeue_n (c : Z) (n : nat) : M (list (option taskp)) :=
  match n with
  | O => ret []
  | S k =>
      r <- O1Rq_Dequeue c ;;
      rest <- Dequeue_n c k ;;
      ret (r :: rest)
  end.

(** ** Evaluation lemmas *)

Lemma bind_Ok {A B} (m : M A) (f : A → M B) s a s' :
  m s = Ok a s' → bind m f s = f a s'.
Proof. unfold bind. intros ->. reflexivity. Qed.

Lemma get_task_Some p s t :
  tasks_ s !! p = Some t → get_task p s = Ok t s.
Proof. unfold get_task. intros ->. reflexivity. Qed.

Lemma modify_task_Some p f s t :
  tasks_ s !! p = Some t → modify_task p f s = Ok tt (with_task p (f t) s).
Proof. unfold modify_task. intros ->. reflexivity. Qed.

Lemma bind_get_task {B} p (f : O1Task → M B) s t :
  tasks_ s !! p = Some t → bind (get_task p) f s = f t s.
Proof. intros H. apply bind_Ok. by apply get_task_Some. Qed.

Lemma bind_modify_task {B} p g (f : unit → M B) s t :
  tasks_ s !! p = Some t →
  bind (modify_task p g) f s = f tt (with_task p (g t) s).
Proof. intros H. apply bind_Ok. by apply modify_task_Some. Qed.

Lemma bind_CHECK_true {B} (f : unit → M B) s : bind (CHECK true) f s = f tt s.
Proof. reflexivity. Qed.

Lemma bind_CHECK_false {B} (f : unit → M B) s :
  bind (CHECK false) f s = Abort s.
Proof. reflexivity. Qed.

Lemma bind_ret {A B} (a : A) (f : A → M B) s : bind (ret a) f s = f a s.
Proof. reflexivity. Qed.

Lemma bind_cpu_state {B} c (f : CpuState → M B) s :
  bind (cpu_state c) f s = f (cs_of s c) s.
Proof. reflexivity. Qed.

Lemma bind_get_rq {B} c (f : O1Rq → M B) s :
  bind (get_rq c) f s = f (run_queue (cs_of s c)) s.
Proof. reflexivity. Qed.

Lemma bind_modify_cs {B} c g (f : unit → M B) s :
  bind (modify_cs c g) f s = f tt (with_cs c (g (cs_of s c)) s).
Proof. reflexivity. Qed.

Lemma bind_set_rq {B} c rq (f : unit → M B) s :
  bind (set_rq c rq) f s = f tt (with_rq c rq s).
Proof. reflexivity. Qed.

Lemma set_rq_eq c rq s : set_rq c rq s = Ok tt (with_rq c rq s).
Proof. reflexivity. Qed.

Lemma modify_cs_eq c g s :
  modify_cs c g s = Ok tt (with_cs c (g (cs_of s c)) s).
Proof. reflexivity. Qed.

Lemma bind_emit {B} e (f : unit → M B) s :
  bind (emit e) f s = f tt (set_trace (trace s ++ [e]) s).
Proof. reflexivity. Qed.

Lemma bind_Now {B} (f : Z → M B) s :
  bind Now f s = f (clock (now_reads s)) (set_now_reads (S (now_reads s)) s).
Proof. reflexivity. Qed.

Lemma bind_assoc {A B C} (m : M A) (f : A → M B) (g : B → M C) s :
  bind (bind m f) g s = bind m (fun a => bind (f a) g) s.
Proof. unfold bind. by destruct (m s). Qed.

Lemma cs_of_with_cs_eq c cs s : cs_of (with_cs c cs s) c = cs.
Proof. unfold cs_of, with_cs. simpl. by rewrite lookup_insert_eq. Qed.

Lemma cs_of_with_cs_ne c c' cs s :
  c ≠ c' → cs_of (with_cs c cs s) c' = cs_of s c'.
Proof. intros H. unfold cs_of, with_cs. simpl. by rewrite lookup_insert_ne. Qed.

Lemma cs_of_with_rq_eq c rq s :
  cs_of (with_rq c rq s) c = set_run_queue rq (cs_of s c).
Proof. apply cs_of_with_cs_eq. Qed.

Lemma cs_of_with_rq_ne c c' rq s :
  c ≠ c' → cs_of (with_rq c rq s) c' = cs_of s c'.
Proof. apply cs_of_with_cs_ne. Qed.

Lemma cs_of_with_task p t s c : cs_of (with_task p t s) c = cs_of s c.
Proof. reflexivity. Qed.
Lemma cs_of_set_now_reads n s c : cs_of (set_now_reads n s) c = cs_of s c.
Proof. reflexivity. Qed.
Lemma cs_of_set_trace tr s c : cs_of (set_trace tr s) c = cs_of s c.
Proof. reflexivity. Qed.
Lemma cs_of_set_rr_next r s c : cs_of (set_rr_next r s) c = cs_of s c.
Proof. reflexivity. Qed.
Lemma tasks_with_task p t s : tasks_ (with_task p t s) = <[p := t]> (tasks_ s).
Proof. reflexivity. Qed.
Lemma tasks_with_cs c cs s : tasks_ (with_cs c cs s) = tasks_ s.
Proof. reflexivity. Qed.
Lemma tasks_with_rq c rq s : tasks_ (with_rq c rq s) = tasks_ s.
Proof. reflexivity. Qed.
Lemma tasks_set_now_reads n s : tasks_ (set_now_reads n s) = tasks_ s.
Proof. reflexivity. Qed.
Lemma tasks_set_trace tr s : tasks_ (set_trace tr s) = tasks_ s.
Proof. reflexivity. Qed.

Create Rewrite HintDb sched.
#[local] Hint Rewrite cs_of_with_task cs_of_set_now_reads cs_of_set_trace
  cs_of_set_rr_next cs_of_with_cs_eq cs_of_with_rq_eq tasks_with_task
  tasks_with_cs tasks_with_rq tasks_set_now_reads tasks_set_trace : sched.

Lemma with_task_twice p t t' s :
  with_task p t' (with_task p t s) = with_task p t' s.
Proof. unfold with_task, set_tasks. simpl. by rewrite insert_insert_eq. Qed.

(** Discharges the side condition "the pointer is valid" of the lemmas
    above after any sequence of writes. *)
Ltac task_lookup :=
  autorewrite with sched; rewrite ?lookup_insert_eq;
  first [eassumption | reflexivity].

(** One step of symbolic execution of the code at the head of the goal. *)
Ltac mstep :=
  first
    [ rewrite bind_assoc
    | rewrite bind_ret
    | rewrite bind_CHECK_true
    | rewrite bind_CHECK_false
    | rewrite bind_cpu_state
    | rewrite bind_get_rq
    | rewrite bind_modify_cs
    | rewrite bind_set_rq
    | rewrite bind_emit
    | erewrite bind_get_task by task_lookup
    | erewrite bind_modify_task by task_lookup
    | erewrite modify_task_Some by task_lookup
    | erewrite get_task_Some by task_lookup
    | rewrite set_rq_eq
    | rewrite modify_cs_eq ];
  cbv beta.

Ltac msteps := repeat mstep.

(** Two scheduler states built from the same state by the same writes. *)
Ltac sched_eq :=
  unfold with_rq, with_cs, with_task, cs_of, set_tasks, set_cpu_states,
    set_trace, set_now_reads, set_rr_next; simpl;
  rewrite ?insert_insert_eq, ?lookup_insert_eq; simpl;
  try reflexivity.

(** *** Time-slice accounting *)

(** The state [UpdateRemainingTime] leaves and the value it returns. *)
Lemma UpdateRemainingTime_eval (p : taskp) (isOff : bool) (s : Sched)
    (t : O1Task) :
  tasks_ s !! p = Some t →
  let now1 := clock (now_reads s) in
  let now2 := clock (S (now_reads s)) in
  let rem := remaining_time t - (now1 - runtime_at_last_pick t) in
  UpdateRemainingTime p isOff s =
    if isOff
    then Ok false (with_task p (set_remaining_time rem t)
                     (set_now_reads (S (now_reads s)) s))
    else Ok (bool_decide (rem ≤ 0))
            (with_task p (set_runtime_at_last_pick now2
                            (set_remaining_time rem t))
               (set_now_reads (S (S (now_reads s))) s)).
Proof.
  intros Ht now1 now2 rem.
  unfold UpdateRemainingTime, SetRuntimeAtLastPick.
  destruct isOff; simpl; rewrite bind_Now; msteps; [reflexivity|].
  rewrite bind_Now. msteps.
  subst now1 now2 rem. unfold ret. simpl.
  case_bool_decide; f_equal; sched_eq.
Qed.

(** C3.  [update_remaining_time(is_off_cpu)] subtracts the time elapsed
    since [runtime_at_last_pick] from [remaining_time]; off CPU it leaves
    [runtime_at_last_pick] alone and returns false; otherwise it resets
    [runtime_at_last_pick] to the current time and returns true exactly
    when the updated [remaining_time] is at most zero.  The clock is read
    once for the subtraction and once more for the reset. *)
Theorem UpdateRemainingTime_spec (p : taskp) (isOff : bool) (s : Sched)
    (t : O1Task) :
  tasks_ s !! p = Some t →
  let now1 := clock (now_reads s) in
  let now2 := clock (S (now_reads s)) in
  ∃ b s' t',
    UpdateRemainingTime p isOff s = Ok b s' ∧
    tasks_ s' = <[p := t']> (tasks_ s) ∧
    cpu_states_ s' = cpu_states_ s ∧
    t' = set_remaining_time (remaining_time t')
           (set_runtime_at_last_pick (runtime_at_last_pick t') t) ∧
    remaining_time t' = remaining_time t - (now1 - runtime_at_last_pick t) ∧
    (isOff = false →
       runtime_at_last_pick t' = now2 ∧
       (b = true ↔ remaining_time t' ≤ 0)) ∧
    (isOff = true →
       runtime_at_last_pick t' = runtime_at_last_pick t ∧ b = false).
Proof.
  intros Ht now1 now2.
  pose proof (UpdateRemainingTime_eval p isOff s t Ht) as Heval.
  simpl in Heval. destruct isOff.
  - eexists _, _, _. split; [exact Heval|].
    repeat split; done.
  - eexists _, _, _. split; [exact Heval|].
    repeat split; try done.
    + intros Hb. by apply bool_decide_eq_true in Hb.
    + intros Hle. by apply bool_decide_eq_true.
Qed.

(** *** The runqueue *)

(** The state [Enqueue] leaves for a Runnable, placed task. *)
Lemma Enqueue_eval (c : Z) (p : taskp) (s : Sched) (t : O1Task) :
  tasks_ s !! p = Some t →
  run_state t = kRunnable →
  0 ≤ cpu t →
  let rq := run_queue (cs_of s c) in
  O1Rq_Enqueue c p s =
    Ok tt
      (if bool_decide (0 < remaining_time t) then
         with_rq c
           (mkO1Rq (if prio_boost t then p :: aq_ rq else aq_ rq ++ [p])
                   (eq_ rq))
           (with_task p (set_run_state kQueued t) s)
       else
         with_rq c
           (mkO1Rq (aq_ rq)
                   (if prio_boost t then p :: eq_ rq else eq_ rq ++ [p]))
           (with_task p (set_remaining_time SLICE (set_run_state kQueued t))
              s)).
Proof.
  intros Ht Hrun Hcpu rq. subst rq.
  unfold O1Rq_Enqueue, SetRemainingTime. msteps.
  rewrite bool_decide_true by done. mstep.
  rewrite bool_decide_true by done. msteps. simpl.
  case_bool_decide; [|msteps; rewrite with_task_twice; simpl];
    destruct (prio_boost t); msteps; reflexivity.
Qed.

(** C1.  For a task that is Runnable and placed ([cpu >= 0]), [enqueue]
    marks it Queued; with [remaining_time > 0] it goes into the active
    band, at the front when [prio_boost] is set and at the back otherwise,
    its [remaining_time] untouched; with [remaining_time <= 0] its
    [remaining_time] is first refilled to the slice constant and it goes
    into the expired band, front or back by the same rule.  Nothing else
    changes. *)
Theorem Enqueue_spec (c : Z) (p : taskp) (s : Sched) (t : O1Task) :
  tasks_ s !! p = Some t →
  run_state t = kRunnable →
  0 ≤ cpu t →
  let rq := run_queue (cs_of s c) in
  ∃ s' t',
    O1Rq_Enqueue c p s = Ok tt s' ∧
    tasks_ s' = <[p := t']> (tasks_ s) ∧
    run_state t' = kQueued ∧
    (0 < remaining_time t →
       t' = set_run_state kQueued t ∧
       run_queue (cs_of s' c) =
         mkO1Rq (if prio_boost t then p :: aq_ rq else aq_ rq ++ [p])
                (eq_ rq)) ∧
    (remaining_time t ≤ 0 →
       t' = set_remaining_time SLICE (set_run_state kQueued t) ∧
       run_queue (cs_of s' c) =
         mkO1Rq (aq_ rq)
                (if prio_boost t then p :: eq_ rq else eq_ rq ++ [p])) ∧
    current (cs_of s' c) = current (cs_of s c) ∧
    preempt_curr (cs_of s' c) = preempt_curr (cs_of s c) ∧
    (∀ c', c' ≠ c → cs_of s' c' = cs_of s c').
Proof.
  intros Ht Hrun Hcpu rq. subst rq.
  pose proof (Enqueue_eval c p s t Ht Hrun Hcpu) as Heval. simpl in Heval.
  case_bool_decide as Hrem.
  - eexists _, _. split; [exact Heval|].
    autorewrite with sched. simpl. repeat split; try done; try lia.
    intros c' Hne. by rewrite cs_of_with_rq_ne.
  - eexists _, _. split; [exact Heval|].
    autorewrite with sched. simpl. repeat split; try done; try lia.
    intros c' Hne. by rewrite cs_of_with_rq_ne.
Qed.

Lemma Dequeue_active (c : Z) (s : Sched) (p : taskp) (rest : list taskp)
    (t : O1Task) :
  aq_ (run_queue (cs_of s c)) = p :: rest →
  tasks_ s !! p = Some t →
  run_state t = kQueued →
  O1Rq_Dequeue c s =
    Ok (Some p)
       (with_rq c (mkO1Rq rest (eq_ (run_queue (cs_of s c))))
          (with_task p (set_run_state kRunnable t) s)).
Proof.
  intros Ha Ht Hq. unfold O1Rq_Dequeue, O1Rq_pop_front.
  msteps. rewrite Ha. simpl. msteps. rewrite Ha. msteps.
  unfold queued. rewrite bool_decide_true by done. msteps.
  reflexivity.
Qed.

Lemma Dequeue_swap (c : Z) (s : Sched) (p : taskp) (rest : list taskp)
    (t : O1Task) :
  aq_ (run_queue (cs_of s c)) = [] →
  eq_ (run_queue (cs_of s c)) = p :: rest →
  tasks_ s !! p = Some t →
  run_state t = kQueued →
  O1Rq_Dequeue c s =
    Ok (Some p)
       (with_rq c (mkO1Rq rest [])
          (with_task p (set_run_state kRunnable t) s)).
Proof.
  intros Ha He Ht Hq. unfold O1Rq_Dequeue, O1Rq_pop_front, O1Rq_Swap.
  msteps. rewrite Ha, He. simpl. msteps.
  rewrite cs_of_with_rq_eq. simpl. rewrite He, Ha. msteps.
  unfold queued. rewrite bool_decide_true by done. msteps.
  unfold ret. f_equal. sched_eq.
Qed.

(** C2.  In a runqueue whose front task is a live task in state Queued and
    which holds no task twice (the data model's invariants for queued
    tasks), [dequeue] pops the front of the active band; with the active
    band empty and the expired band not, the bands are swapped and the
    front of the new active band is popped; with both empty the result is
    none and nothing changes.  A returned task is Runnable and no longer in
    either band. *)
Theorem Dequeue_spec (c : Z) (s : Sched) :
  let rq := run_queue (cs_of s c) in
  (∀ p, head (aq_ rq ++ eq_ rq) = Some p →
        ∃ t, tasks_ s !! p = Some t ∧ run_state t = kQueued) →
  NoDup (aq_ rq ++ eq_ rq) →
  (aq_ rq = [] → eq_ rq = [] → O1Rq_Dequeue c s = Ok None s) ∧
  (∀ p rest, aq_ rq = p :: rest →
     ∃ t s', tasks_ s !! p = Some t ∧
       O1Rq_Dequeue c s = Ok (Some p) s' ∧
       s' = with_rq c (mkO1Rq rest (eq_ rq))
              (with_task p (set_run_state kRunnable t) s) ∧
       ¬ in_rq s' c p) ∧
  (∀ p rest, aq_ rq = [] → eq_ rq = p :: rest →
     ∃ t s', tasks_ s !! p = Some t ∧
       O1Rq_Dequeue c s = Ok (Some p) s' ∧
       s' = with_rq c (mkO1Rq rest [])
              (with_task p (set_run_state kRunnable t) s) ∧
       ¬ in_rq s' c p).
Proof using Type.
  clear SLICE clock.
  intros rq Hfront Hnd. subst rq.
  split; [|split].
  - intros Ha He. unfold O1Rq_Dequeue. msteps. rewrite Ha, He. reflexivity.
  - intros p rest Ha. rewrite Ha in Hfront, Hnd.
    destruct (Hfront p eq_refl) as (t & Ht & Hq).
    exists t. eexists. split; [done|].
    split; [by apply Dequeue_active | split; [reflexivity|]].
    unfold in_rq. rewrite cs_of_with_rq_eq. simpl.
    simpl in Hnd. apply NoDup_cons in Hnd as [Hnin _].
    rewrite elem_of_app in Hnin. tauto.
  - intros p rest Ha He. rewrite Ha, He in Hfront, Hnd.
    destruct (Hfront p eq_refl) as (t & Ht & Hq).
    exists t. eexists. split; [done|].
    split; [by apply Dequeue_swap | split; [reflexivity|]].
    unfold in_rq. rewrite cs_of_with_rq_eq. simpl.
    simpl in Hnd. apply NoDup_cons in Hnd as [Hnin _].
    rewrite elem_of_nil. tauto.
Qed.

Lemma erase_loop_Some (q : list taskp) (p : taskp) (n pos i : nat) :
  erase_loop q p pos n = Some i →
  (pos ≤ i < pos + n)%nat ∧ q !! i = Some p ∧
  ∀ j, (pos ≤ j < i)%nat → q !! j ≠ Some p.
Proof.
  revert pos. induction n as [|n IH]; intros pos; simpl; [done|].
  case_bool_decide as Hq.
  - intros [= <-]. split; [lia|]. split; [done|]. intros j ?. lia.
  - intros Hl. destruct (IH _ Hl) as (Hr & Hi & Hlt).
    split; [lia|]. split; [done|].
    intros j Hj. destruct (decide (j = pos)) as [->|]; [done|].
    apply Hlt. lia.
Qed.

Lemma erase_loop_None (q : list taskp) (p : taskp) (n pos : nat) :
  erase_loop q p pos n = None →
  ∀ j, (pos ≤ j < pos + n)%nat → q !! j ≠ Some p.
Proof.
  revert pos. induction n as [|n IH]; intros pos; simpl; [intros _ j; lia|].
  case_bool_decide as Hq; [done|].
  intros Hl j Hj. destruct (decide (j = pos)) as [->|]; [done|].
  apply (IH _ Hl). lia.
Qed.

Lemma erase_at (q : list taskp) (p : taskp) (i : nat) :
  q !! i = Some p →
  q = take i q ++ p :: drop (S i) q ∧ delete i q = take i q ++ drop (S i) q.
Proof.
  intros Hi. split.
  - symmetry. by apply take_drop_middle.
  - apply delete_take_drop.
Qed.

(** The scan of a band finds the task exactly when it is there, and takes
    out one occurrence: the last element if that is the task, otherwise
    the first occurrence. *)
Lemma erase_band_in (q : list taskp) (p : taskp) :
  p ∈ q →
  ∃ l1 l2, q = l1 ++ p :: l2 ∧ erase_band q p = Some (l1 ++ l2) ∧
           (l2 = [] ∨ p ∉ l1).
Proof.
  intros Hin. unfold erase_band.
  assert (0 < length q)%nat as Hlen.
  { destruct q; [by apply elem_of_nil in Hin | simpl; lia]. }
  rewrite bool_decide_true by done.
  case_bool_decide as Hback.
  - destruct (erase_at _ _ _ Hback) as [Hq Hd].
    exists (take (length q - 1) q), (drop (S (length q - 1)) q).
    split; [done|]. split; [by rewrite Hd|].
    left. apply drop_ge. lia.
  - destruct (erase_loop q p 0 (length q - 1)) as [i|] eqn:Hl.
    + destruct (erase_loop_Some _ _ _ _ _ Hl) as (_ & Hi & Hlt).
      destruct (erase_at _ _ _ Hi) as [Hq Hd].
      exists (take i q), (drop (S i) q).
      split; [done|]. split; [by rewrite Hd|].
      right. intros Htk. apply list_elem_of_lookup in Htk as [j Hj].
      pose proof (lookup_lt_Some _ _ _ Hj) as Hjl.
      rewrite length_take in Hjl.
      rewrite lookup_take_lt in Hj by lia.
      apply (Hlt j); [lia | done].
    + exfalso. apply list_elem_of_lookup in Hin as [j Hj].
      pose proof (lookup_lt_Some _ _ _ Hj) as Hjl.
      destruct (decide (j = length q - 1)%nat) as [->|]; [done|].
      apply (erase_loop_None _ _ _ _ Hl j); [lia | done].
Qed.

Lemma erase_band_notin (q : list taskp) (p : taskp) :
  p ∉ q → erase_band q p = None.
Proof.
  intros Hnin. unfold erase_band.
  case_bool_decide; [|done].
  rewrite bool_decide_false.
  - destruct (erase_loop q p 0 (length q - 1)) as [i|] eqn:Hl; [|done].
    destruct (erase_loop_Some _ _ _ _ _ Hl) as (_ & Hi & _).
    exfalso. apply Hnin. apply list_elem_of_lookup. eauto.
  - intros Hi. apply Hnin. apply list_elem_of_lookup. eauto.
Qed.

(** The outcomes of [Erase], case by case. *)
Lemma Erase_cases (c : Z) (p : taskp) (s : Sched) (t : O1Task) :
  tasks_ s !! p = Some t →
  let rq := run_queue (cs_of s c) in
  (run_state t ≠ kQueued → O1Rq_Erase c p s = Abort s) ∧
  (run_state t = kQueued →
     (p ∈ aq_ rq →
        ∃ l1 l2, aq_ rq = l1 ++ p :: l2 ∧
          O1Rq_Erase c p s =
            Ok tt (with_task p (set_run_state kRunnable t)
                     (with_rq c (mkO1Rq (l1 ++ l2) (eq_ rq)) s))) ∧
     (p ∉ aq_ rq → p ∈ eq_ rq →
        ∃ l1 l2, eq_ rq = l1 ++ p :: l2 ∧
          O1Rq_Erase c p s =
            Ok tt (with_task p (set_run_state kRunnable t)
                     (with_rq c (mkO1Rq (aq_ rq) (l1 ++ l2)) s))) ∧
     (p ∉ aq_ rq → p ∉ eq_ rq → O1Rq_Erase c p s = Abort s)).
Proof.
  intros Ht rq. subst rq. unfold O1Rq_Erase. split.
  - intros Hne. msteps. by rewrite bool_decide_false.
  - intros Hq. split; [|split].
    + intros Hin. destruct (erase_band_in _ _ Hin) as (l1 & l2 & Ha & He & _).
      exists l1, l2. split; [done|].
      msteps. rewrite bool_decide_true by done. msteps.
      rewrite He. msteps. reflexivity.
    + intros Hnin Hin.
      destruct (erase_band_in _ _ Hin) as (l1 & l2 & Ha & He & _).
      exists l1, l2. split; [done|].
      msteps. rewrite bool_decide_true by done. msteps.
      rewrite (erase_band_notin _ _ Hnin), He. msteps. reflexivity.
    + intros Hna Hne.
      msteps. rewrite bool_decide_true by done. msteps.
      rewrite (erase_band_notin _ _ Hna), (erase_band_notin _ _ Hne).
      reflexivity.
Qed.

(** C8.  [erase] aborts unless the task is Queued; for a Queued task it
    scans the active band and then the expired band, takes the task out of
    the first band that holds it (the order of the other tasks is kept)
    and marks it Runnable; it aborts when neither band holds the task. *)
Theorem Erase_spec (c : Z) (p : taskp) (s : Sched) (t : O1Task) :
  tasks_ s !! p = Some t →
  let rq := run_queue (cs_of s c) in
  (run_state t ≠ kQueued → O1Rq_Erase c p s = Abort s) ∧
  (run_state t = kQueued →
     (p ∈ aq_ rq →
        ∃ l1 l2, aq_ rq = l1 ++ p :: l2 ∧
          O1Rq_Erase c p s =
            Ok tt (with_task p (set_run_state kRunnable t)
                     (with_rq c (mkO1Rq (l1 ++ l2) (eq_ rq)) s))) ∧
     (p ∉ aq_ rq → p ∈ eq_ rq →
        ∃ l1 l2, eq_ rq = l1 ++ p :: l2 ∧
          O1Rq_Erase c p s =
            Ok tt (with_task p (set_run_state kRunnable t)
                     (with_rq c (mkO1Rq (aq_ rq) (l1 ++ l2)) s))) ∧
     (p ∉ aq_ rq → p ∉ eq_ rq → O1Rq_Erase c p s = Abort s)).
Proof.
  intros Ht rq. subst rq. unfold O1Rq_Erase. split.
  - intros Hne. msteps. by rewrite bool_decide_false.
  - intros Hq. split; [|split].
    + intros Hin. destruct (erase_band_in _ _ Hin) as (l1 & l2 & Ha & He & _).
      exists l1, l2. split; [done|].
      msteps. rewrite bool_decide_true by done. msteps.
      rewrite He. msteps. reflexivity.
    + intros Hnin Hin.
      destruct (erase_band_in _ _ Hin) as (l1 & l2 & Ha & He & _).
      exists l1, l2. split; [done|].
      msteps. rewrite bool_decide_true by done. msteps.
      rewrite (erase_band_notin _ _ Hnin), He. msteps. reflexivity.
    + intros Hna Hne.
      msteps. rewrite bool_decide_true by done. msteps.
      rewrite (erase_band_notin _ _ Hna), (erase_band_notin _ _ Hne).
      reflexivity.
Qed.

(** *** Going off CPU *)

Lemma UpdateRemainingTime_off (p : taskp) (s : Sched) (t : O1Task) :
  tasks_ s !! p = Some t →
  UpdateRemainingTime p true s =
    Ok false
       (with_task p
          (set_remaining_time
             (remaining_time t
              - (clock (now_reads s) - runtime_at_last_pick t)) t)
          (set_now_reads (S (now_reads s)) s)).
Proof. intros Ht. by rewrite (UpdateRemainingTime_eval p true s t Ht). Qed.

(** C5.  What the code does where the claim asks for a guard: a call of
    task-off-cpu for a placed task whose CPU has no current task
    dereferences the null [current] before any on-CPU check, whatever the
    task's state and the [blocked] and [from_switchto] arguments are. *)
Theorem TaskOffCpu_null_current (p : taskp) (blocked_ from_switchto : bool)
    (s : Sched) (t : O1Task) :
  tasks_ s !! p = Some t →
  0 ≤ cpu t →
  current (cs_of s (cpu t)) = None →
  TaskOffCpu p blocked_ from_switchto s = Fault s.
Proof.
  intros Ht Hc Hcur. unfold TaskOffCpu, cpu_state_of. msteps.
  rewrite bool_decide_true by done. msteps.
  rewrite Hcur. reflexivity.
Qed.

(** Task-off-cpu for the task that is the CPU's current one: the elapsed
    time is charged to its slice, [current] is nulled and the task gets
    the state the caller asks for. *)
Lemma TaskOffCpu_current (p : taskp) (blocked_ from_switchto : bool)
    (s : Sched) (t : O1Task) :
  tasks_ s !! p = Some t →
  run_state t = kOnCpu →
  0 ≤ cpu t →
  current (cs_of s (cpu t)) = Some p →
  TaskOffCpu p blocked_ from_switchto s =
    Ok tt
       (with_task p
          (set_run_state (if blocked_ then kBlocked else kRunnable)
             (set_remaining_time
                (remaining_time t
                 - (clock (now_reads s) - runtime_at_last_pick t)) t))
          (with_cs (cpu t) (set_current None (cs_of s (cpu t)))
             (set_now_reads (S (now_reads s)) s))).
Proof.
  intros Ht Hon Hc Hcur. unfold TaskOffCpu, cpu_state_of. msteps.
  rewrite bool_decide_true by done. msteps. rewrite Hcur. mstep.
  erewrite bind_Ok by (by apply UpdateRemainingTime_off).
  msteps. unfold oncpu. simpl. rewrite bool_decide_true by done.
  msteps. autorewrite with sched. rewrite Hcur.
  rewrite bool_decide_true by done. msteps.
  f_equal. sched_eq.
Qed.

(** *** Commit failure *)

Lemma pause_loop_eq (n : nat) (s : Sched) :
  pause_loop n s = Ok tt (set_trace (trace s ++ replicate n EvPause) s).
Proof.
  revert s. induction n as [|n IH]; intros s; simpl.
  - unfold ret. f_equal. rewrite app_nil_r. by destruct s.
  - mstep. rewrite IH. f_equal. simpl.
    unfold set_trace; simpl. by rewrite <- app_assoc.
Qed.

(** Re-enqueueing a Runnable task with the boost set: it becomes the head
    of the band its remaining time selects, and the next selection on a
    CPU without a current task returns it when that band is the active one
    or the active band is empty. *)
Lemma requeue_boosted (c : Z) (p : taskp) (s : Sched) (t : O1Task) :
  tasks_ s !! p = Some t →
  run_state t = kRunnable →
  0 ≤ cpu t →
  let rq := run_queue (cs_of s c) in
  ∃ s' t',
    (modify_task p (set_prio_boost true) ;; O1Rq_Enqueue c p) s = Ok tt s' ∧
    current (cs_of s' c) = current (cs_of s c) ∧
    tasks_ s' !! p = Some t' ∧
    prio_boost t' = true ∧
    run_state t' = kQueued ∧
    remaining_time t' =
      (if bool_decide (0 < remaining_time t) then remaining_time t
       else SLICE) ∧
    run_queue (cs_of s' c) =
      (if bool_decide (0 < remaining_time t)
       then mkO1Rq (p :: aq_ rq) (eq_ rq)
       else mkO1Rq (aq_ rq) (p :: eq_ rq)) ∧
    (current (cs_of s c) = None →
     0 < remaining_time t ∨ aq_ rq = [] →
     ∃ s'', O1Schedule_pick c false s' = Ok (Some p) s'').
Proof.
  intros Ht Hrun Hc rq. subst rq. mstep.
  erewrite Enqueue_eval by (first [task_lookup | done]).
  simpl. case_bool_decide as Hrem.
  - eexists. eexists. split; [reflexivity|].
    autorewrite with sched. simpl.
    rewrite lookup_insert_eq. repeat split; try done.
    intros Hcur _. unfold O1Schedule_pick. simpl. mstep.
    autorewrite with sched. simpl. rewrite Hcur.
    eexists. eapply Dequeue_active.
    + autorewrite with sched. simpl. reflexivity.
    + task_lookup.
    + done.
  - eexists. eexists. split; [reflexivity|].
    autorewrite with sched. simpl.
    rewrite lookup_insert_eq. repeat split; try done.
    intros Hcur [Hpos | Hempty]; [lia|].
    unfold O1Schedule_pick. simpl. mstep.
    autorewrite with sched. simpl. rewrite Hcur.
    eexists. eapply Dequeue_swap.
    + autorewrite with sched. simpl. done.
    + autorewrite with sched. simpl. reflexivity.
    + task_lookup.
    + done.
Qed.

(** What the failure path of the commit loop does.  After a failed commit
    of a target that is the CPU's current task (on CPU) or was just
    dequeued (Runnable, no current task), the CPU has no current task, and
    the target is Queued with [prio_boost] set at the head of a band of
    its CPU's runqueue: the active band when its remaining time, after the
    off-CPU accounting if it was current, is positive, and otherwise the
    expired band, with the slice refilled.  The next selection returns it
    when it went to the active band or the active band was empty; a
    current task whose slice ran out goes to the expired band, behind the
    whole active band, which is not the front of the runqueue that the
    comment on this path announces. *)
Theorem commit_failure_requeues (c ab : Z) (pb : bool) (spins : nat)
    (s : Sched) (p : taskp) (t : O1Task) :
  tasks_ s !! p = Some t →
  cpu t = c →
  0 ≤ c →
  (current (cs_of s c) = Some p ∧ run_state t = kOnCpu) ∨
  (current (cs_of s c) = None ∧ run_state t = kRunnable) →
  let rem :=
    match current (cs_of s c) with
    | Some _ =>
        remaining_time t - (clock (now_reads s) - runtime_at_last_pick t)
    | None => remaining_time t
    end in
  let rq := run_queue (cs_of s c) in
  ∃ s' t',
    O1Schedule_commit c ab pb (Some p) spins false s = Ok tt s' ∧
    current (cs_of s' c) = None ∧
    tasks_ s' !! p = Some t' ∧
    prio_boost t' = true ∧
    run_state t' = kQueued ∧
    remaining_time t' = (if bool_decide (0 < rem) then rem else SLICE) ∧
    run_queue (cs_of s' c) =
      (if bool_decide (0 < rem)
       then mkO1Rq (p :: aq_ rq) (eq_ rq)
       else mkO1Rq (aq_ rq) (p :: eq_ rq)) ∧
    (0 < rem ∨ aq_ rq = [] →
     ∃ s'', O1Schedule_pick c false s' = Ok (Some p) s'').
Proof.
  intros Ht Hcpu Hc Hcase rem rq. subst rem rq.
  unfold O1Schedule_commit. mstep.
  erewrite bind_Ok by apply pause_loop_eq.
  msteps. autorewrite with sched.
  set (s0 := set_trace _ (set_trace _ (set_trace _ s))).
  assert (tasks_ s0 !! p = Some t) as Ht0 by done.
  assert (∀ c', cs_of s0 c' = cs_of s c') as Hcs0 by done.
  destruct Hcase as [[Hcur Hon] | [Hcur Hrun]]; rewrite Hcur.
  - rewrite bool_decide_true by done.
    erewrite bind_Ok
      by (apply (TaskOffCpu_current p false false s0 t); try done;
          [lia | by rewrite Hcpu, Hcs0]).
    rewrite Hcpu.
    match goal with
    | |- context [bind _ _ ?s1] =>
        destruct (requeue_boosted c p s1
                    (set_run_state kRunnable
                       (set_remaining_time
                          (remaining_time t
                           - (clock (now_reads s0) - runtime_at_last_pick t))
                          t)))
          as (s' & t' & Hrun' & Hcur' & Ht' & Hb & Hq & Hrem & Hrq & Hpick);
          [task_lookup | done | simpl; lia |]
    end.
    exists s', t'. split; [exact Hrun'|].
    autorewrite with sched in Hcur', Hrq, Hpick. simpl in *.
    rewrite Hcs0 in Hrq, Hpick.
    repeat split; try done. intros H. by apply Hpick.
  - rewrite bool_decide_false by done. mstep.
    destruct (requeue_boosted c p s0 t Ht0 Hrun ltac:(lia))
      as (s' & t' & Hrun' & Hcur' & Ht' & Hb & Hq & Hrem & Hrq & Hpick).
    exists s', t'. split; [exact Hrun'|].
    rewrite Hcs0 in Hcur', Hrq, Hpick. rewrite Hcur in Hcur'.
    repeat split; try done. intros H. by apply Hpick.
Qed.

(** *** Placement *)

Lemma mod_add_inj (K a i j : nat) :
  (0 < K)%nat → (i < K)%nat → (j < K)%nat →
  ((a + i) mod K = (a + j) mod K)%nat → i = j.
Proof.
  intros HK Hi Hj Heq.
  pose proof (Nat.div_mod_eq (a + i) K) as Ei.
  pose proof (Nat.div_mod_eq (a + j) K) as Ej.
  rewrite Heq in Ei.
  destruct (Nat.lt_trichotomy ((a + i) / K) ((a + j) / K)) as [H|[H|H]]; nia.
Qed.

Lemma round_robin_NoDup (L : list Z) (a : nat) (l : list Z) :
  L ≠ [] → NoDup L → round_robin L a l → (length l ≤ length L)%nat →
  NoDup l.
Proof.
  intros HL Hnd Hrr Hlen. apply NoDup_alt. intros i j x Hi Hj.
  assert (0 < length L)%nat as HK by (destruct L; [done | simpl; lia]).
  pose proof (lookup_lt_Some _ _ _ Hi) as Hil.
  pose proof (lookup_lt_Some _ _ _ Hj) as Hjl.
  rewrite (Hrr i Hil) in Hi. rewrite (Hrr j Hjl) in Hj.
  pose proof (NoDup_lookup _ _ _ _ Hnd Hi Hj) as Heq.
  apply (mod_add_inj (length L) a); [done | lia | lia | done].
Qed.

Lemma round_robin_elem (L : list Z) (a : nat) (l : list Z) (x : Z) :
  round_robin L a l → x ∈ l → x ∈ L.
Proof.
  intros Hrr Hx. apply list_elem_of_lookup in Hx as [i Hi].
  pose proof (lookup_lt_Some _ _ _ Hi) as Hil.
  rewrite (Hrr i Hil) in Hi. apply list_elem_of_lookup. eauto.
Qed.

Lemma round_robin_take (L : list Z) (a k : nat) (l : list Z) :
  round_robin L a l → round_robin L a (take k l).
Proof.
  intros Hrr i Hi. rewrite length_take in Hi.
  rewrite lookup_take_lt by lia. apply Hrr. lia.
Qed.

Lemma round_robin_drop (L : list Z) (a : nat) (l : list Z) :
  L ≠ [] → round_robin L a l → round_robin L a (drop (length L) l).
Proof.
  intros HL Hrr i Hi. rewrite length_drop in Hi.
  rewrite lookup_drop. rewrite Hrr by lia. f_equal.
  assert (length L ≠ 0)%nat as HK by (destruct L; [done | simpl; lia]).
  replace (a + (length L + i))%nat with (a + i + 1 * length L)%nat by lia.
  by rewrite Nat.Div0.mod_add.
Qed.

(** A cyclic walk visits every CPU of a duplicate-free list either [q] or
    [q + 1] times, for one [q]. *)
Lemma round_robin_balanced (L : list Z) (a : nat) (l : list Z) :
  L ≠ [] → NoDup L → round_robin L a l →
  ∃ q, ∀ x, x ∈ L → (q ≤ count_cpu x l ≤ q + 1)%nat.
Proof.
  intros HL Hnd.
  assert (0 < length L)%nat as HK by (destruct L; [done | simpl; lia]).
  remember (length l) as n eqn:Hn. revert l Hn.
  induction (lt_wf n) as [n _ IH]. intros l Hn Hrr.
  destruct (decide (n < length L)%nat) as [Hlt|Hge].
  - exists O. intros x _. split; [lia|]. simpl.
    assert (NoDup l) as Hl by (eapply round_robin_NoDup; eauto; lia).
    apply NoDup_ListNoDup in Hl.
    exact (proj1 (NoDup_count_occ Z.eq_dec l) Hl x).
  - destruct (IH (n - length L)%nat ltac:(lia) (drop (length L) l))
      as [q Hq].
    { rewrite length_drop. lia. }
    { by apply round_robin_drop. }
    exists (S q). intros x Hx.
    assert (take (length L) l ≡ₚ L) as Hperm.
    { apply submseteq_length_Permutation.
      - apply NoDup_submseteq.
        + eapply round_robin_NoDup; [done | done | |].
          * by apply round_robin_take.
          * rewrite length_take. lia.
        + intros y Hy. eapply round_robin_elem; [|exact Hy].
          by apply round_robin_take.
      - rewrite length_take. lia. }
    unfold count_cpu in *.
    rewrite <- (take_drop (length L) l), count_occ_app.
    rewrite (proj1 (Permutation_count_occ Z.eq_dec _ _) Hperm x).
    rewrite (proj1 (NoDup_count_occ' Z.eq_dec L)
               (proj1 (NoDup_ListNoDup L) Hnd) x)
      by (by apply list_elem_of_In).
    specialize (Hq x Hx). lia.
Qed.

Lemma AssignCpu_eq (s : Sched) :
  cpus_ s ≠ [] →
  (rr_start s ≤ length (cpus_ s))%nat →
  ∃ c, cpus_ s !! (rr_start s mod length (cpus_ s))%nat = Some c ∧
       AssignCpu s =
         Ok c (set_rr_next
                 (Some (S (rr_start s mod length (cpus_ s))%nat)) s).
Proof.
  intros HL Hle.
  assert (0 < length (cpus_ s))%nat as HK
    by (destruct (cpus_ s); [done | simpl; lia]).
  unfold AssignCpu. fold (rr_start s).
  assert ((if bool_decide (rr_start s = length (cpus_ s)) then O
           else rr_start s) = (rr_start s mod length (cpus_ s))%nat) as ->.
  { case_bool_decide as E.
    - rewrite E. by rewrite Nat.Div0.mod_same.
    - rewrite Nat.mod_small; [done | lia]. }
  destruct (lookup_lt_is_Some_2 (cpus_ s)
              (rr_start s mod length (cpus_ s))%nat) as [c Hc].
  { apply Nat.mod_upper_bound. lia. }
  exists c. by rewrite Hc.
Qed.

Lemma AssignCpu_n_round_robin (n : nat) (s : Sched) :
  cpus_ s ≠ [] →
  (rr_start s ≤ length (cpus_ s))%nat →
  ∃ l s',
    AssignCpu_n n s = Ok l s' ∧
    length l = n ∧
    round_robin (cpus_ s) (rr_start s) l ∧
    cpus_ s' = cpus_ s ∧
    (rr_start s' mod length (cpus_ s)
     = (rr_start s + n) mod length (cpus_ s))%nat.
Proof.
  revert s. induction n as [|n IH]; intros s HL Hle.
  - exists [], s. simpl. repeat split; try done.
    + intros i Hi. simpl in Hi. lia.
    + by rewrite Nat.add_0_r.
  - assert (0 < length (cpus_ s))%nat as HK
      by (destruct (cpus_ s); [done | simpl; lia]).
    destruct (AssignCpu_eq s HL Hle) as (c & Hc & Hstep).
    set (s1 := set_rr_next _ s) in Hstep.
    destruct (IH s1) as (l & s' & Hrun & Hlen & Hrr & Hcpus & Hcur).
    { done. }
    { subst s1. unfold rr_start. simpl.
      pose proof (Nat.mod_upper_bound (rr_start s) (length (cpus_ s))).
      unfold rr_start in *. lia. }
    assert (rr_start s1 = S (rr_start s mod length (cpus_ s))) as Hs1 by done.
    assert (∀ j, ((rr_start s1 + j) mod length (cpus_ s)
                  = (rr_start s + S j) mod length (cpus_ s))%nat) as Hshift.
    { intros j. rewrite Hs1.
      replace (S (rr_start s mod length (cpus_ s)) + j)%nat
        with (rr_start s mod length (cpus_ s) + S j)%nat by lia.
      by rewrite Nat.Div0.add_mod_idemp_l. }
    exists (c :: l), s'. split; [|split; [|split; [|split]]].
    + simpl. erewrite bind_Ok by exact Hstep.
      erewrite bind_Ok by exact Hrun. reflexivity.
    + simpl. by rewrite Hlen.
    + intros [|j] Hj; simpl in *.
      * by rewrite Nat.add_0_r.
      * rewrite (Hrr j) by lia. simpl. f_equal. apply Hshift.
    + done.
    + simpl in Hcur. rewrite Hcur. apply Hshift.
Qed.

(** C7.  On a non-empty CPU list without duplicates, [n] consecutive calls
    of [assign_cpu] all succeed and return the CPUs in cyclic order from
    the cursor left by earlier calls, from the first CPU when there was no
    earlier call, wrapping to the beginning at the end of the list; the
    cursor they leave is the one they found advanced by [n]; and any two
    CPUs are returned a number of times that differs by at most one. *)
Theorem AssignCpu_round_robin (n : nat) (s : Sched) :
  cpus_ s ≠ [] →
  NoDup (cpus_ s) →
  (rr_start s ≤ length (cpus_ s))%nat →
  let K := length (cpus_ s) in
  ∃ l s',
    AssignCpu_n n s = Ok l s' ∧
    length l = n ∧
    (∀ i, (i < n)%nat → l !! i = cpus_ s !! ((rr_start s + i) mod K)%nat) ∧
    (rr_next s = None →
     ∀ i, (i < n)%nat → l !! i = cpus_ s !! (i mod K)%nat) ∧
    (rr_start s' mod K = (rr_start s + n) mod K)%nat ∧
    (∀ x y, x ∈ cpus_ s → y ∈ cpus_ s →
            (count_cpu x l ≤ count_cpu y l + 1)%nat).
Proof.
  intros HL Hnd Hle K.
  destruct (AssignCpu_n_round_robin n s HL Hle)
    as (l & s' & Hrun & Hlen & Hrr & _ & Hcur).
  exists l, s'. split; [done|]. split; [done|].
  split; [|split; [|split; [done|]]].
  - intros i Hi. apply Hrr. lia.
  - intros Hfresh i Hi. rewrite (Hrr i) by lia. f_equal.
    unfold rr_start. rewrite Hfresh. simpl.
    replace (length (cpus_ s) + i)%nat
      with (i + 1 * length (cpus_ s))%nat by lia.
    by rewrite Nat.Div0.mod_add.
  - intros x y Hx Hy.
    destruct (round_robin_balanced _ _ _ HL Hnd Hrr) as [q Hq].
    pose proof (Hq x Hx). pose proof (Hq y Hy). lia.
Qed.

(** *** Migration *)


(** *** The preemption flag *)

Lemma keeps_never_sets {A} (m : M A) : keeps_preempt m → never_sets_preempt m.
Proof. intros H s c. by rewrite H. Qed.

Lemma keeps_bind_post {A B} (m : M A) (f : A → M B) (Q : A → Prop) :
  keeps_preempt m →
  (∀ s a s', m s = Ok a s' → Q a) →
  (∀ a, Q a → keeps_preempt (f a)) →
  keeps_preempt (bind m f).
Proof.
  intros Hm HQ Hf s c. specialize (Hm s c). unfold bind.
  destruct (m s) as [a s'| |] eqn:E; simpl in *; try done.
  rewrite <- Hm. apply Hf. eapply HQ, E.
Qed.

Lemma keeps_bind {A B} (m : M A) (f : A → M B) :
  keeps_preempt m → (∀ a, keeps_preempt (f a)) → keeps_preempt (bind m f).
Proof.
  intros Hm Hf. apply (keeps_bind_post m f (fun _ => True)); auto.
Qed.

Lemma never_sets_bind {A B} (m : M A) (f : A → M B) :
  never_sets_preempt m → (∀ a, never_sets_preempt (f a)) →
  never_sets_preempt (bind m f).
Proof.
  intros Hm Hf s c. specialize (Hm s c). unfold bind.
  destruct (m s) as [a s'| |] eqn:E; simpl in *; try done.
  intros H. apply Hm. by apply (Hf a s' c).
Qed.

Lemma keeps_ret {A} (a : A) : keeps_preempt (ret a).
Proof. done. Qed.
Lemma keeps_fault {A} : keeps_preempt (@fault A).
Proof. done. Qed.
Lemma keeps_CHECK b : keeps_preempt (CHECK b).
Proof. intros s c. unfold CHECK. by destruct b. Qed.
Lemma keeps_emit e : keeps_preempt (emit e).
Proof. done. Qed.
Lemma keeps_Now : keeps_preempt Now.
Proof. done. Qed.
Lemma keeps_cpu_state c : keeps_preempt (cpu_state c).
Proof. done. Qed.
Lemma keeps_get_rq c : keeps_preempt (get_rq c).
Proof. done. Qed.
Lemma keeps_get_task p : keeps_preempt (get_task p).
Proof. intros s c. unfold get_task. by destruct (tasks_ s !! p). Qed.
Lemma keeps_modify_task p f : keeps_preempt (modify_task p f).
Proof. intros s c. unfold modify_task. by destruct (tasks_ s !! p). Qed.
Lemma keeps_FreeTask p : keeps_preempt (FreeTask p).
Proof. done. Qed.
Lemma keeps_AssignCpu : keeps_preempt AssignCpu.
Proof. intros s c. unfold AssignCpu. by destruct (cpus_ s !! _). Qed.

Lemma keeps_modify_cs c f :
  (∀ cs, preempt_curr (f cs) = preempt_curr cs) →
  keeps_preempt (modify_cs c f).
Proof.
  intros Hf s c'. simpl. destruct (decide (c = c')) as [->|Hne].
  - fold (with_cs c' (f (cs_of s c')) s). by rewrite cs_of_with_cs_eq.
  - fold (with_cs c (f (cs_of s c)) s). by rewrite cs_of_with_cs_ne.
Qed.

Lemma never_sets_clear c :
  never_sets_preempt (modify_cs c (set_preempt_curr false)).
Proof.
  intros s c'. simpl. destruct (decide (c = c')) as [->|Hne].
  - fold (with_cs c' (set_preempt_curr false (cs_of s c')) s).
    by rewrite cs_of_with_cs_eq.
  - fold (with_cs c (set_preempt_curr false (cs_of s c)) s).
    by rewrite cs_of_with_cs_ne.
Qed.

Lemma keeps_set_rq c rq : keeps_preempt (set_rq c rq).
Proof. by apply keeps_modify_cs. Qed.

Lemma keeps_if {A} (b : bool) (m1 m2 : M A) :
  keeps_preempt m1 → keeps_preempt m2 → keeps_preempt (if b then m1 else m2).
Proof. by destruct b. Qed.

Create HintDb keeps discriminated.
#[local] Hint Resolve keeps_ret keeps_fault keeps_CHECK keeps_emit keeps_Now
  keeps_cpu_state keeps_get_rq keeps_get_task keeps_modify_task
  keeps_FreeTask keeps_AssignCpu keeps_set_rq : keeps.

(** Walks through straight-line code, one statement at a time. *)
Ltac keeps_tac :=
  repeat first
    [ progress intros
    | solve [auto with keeps]
    | solve [apply keeps_modify_cs; done]
    | apply keeps_bind
    | apply keeps_if
    | match goal with
      | |- keeps_preempt (match ?x with _ => _ end) => destruct x
      end ].

Lemma UpdateRemainingTime_off_false (p : taskp) (s s' : Sched) (b : bool) :
  UpdateRemainingTime p true s = Ok b s' → b = false.
Proof.
  unfold UpdateRemainingTime. simpl. rewrite bind_Now. unfold bind.
  destruct (modify_task p _ _); [|done..].
  unfold ret. by intros [= <- _].
Qed.

Lemma keeps_UpdateRemainingTime p isOff :
  keeps_preempt (UpdateRemainingTime p isOff).
Proof. unfold UpdateRemainingTime, SetRuntimeAtLastPick. keeps_tac. Qed.

Lemma keeps_SetRemainingTime p : keeps_preempt (SetRemainingTime p).
Proof. unfold SetRemainingTime. keeps_tac. Qed.

Lemma keeps_cpu_state_of p : keeps_preempt (cpu_state_of p).
Proof. unfold cpu_state_of. keeps_tac. Qed.

#[local] Hint Resolve keeps_UpdateRemainingTime keeps_SetRemainingTime
  keeps_cpu_state_of : keeps.

Lemma keeps_Enqueue c p : keeps_preempt (O1Rq_Enqueue c p).
Proof. unfold O1Rq_Enqueue. keeps_tac. Qed.

Lemma keeps_Dequeue c : keeps_preempt (O1Rq_Dequeue c).
Proof. unfold O1Rq_Dequeue, O1Rq_pop_front, O1Rq_Swap. keeps_tac. Qed.

Lemma keeps_Erase c p : keeps_preempt (O1Rq_Erase c p).
Proof. unfold O1Rq_Erase. keeps_tac. Qed.

Lemma keeps_TaskOffCpu p blocked_ from_switchto :
  keeps_preempt (TaskOffCpu p blocked_ from_switchto).
Proof.
  unfold TaskOffCpu.
  apply keeps_bind; [auto with keeps | intros c].
  apply keeps_bind; [auto with keeps | intros cs].
  apply keeps_bind; [|keeps_tac].
  destruct (current cs) as [cur|]; [|auto with keeps].
  apply (keeps_bind_post _ _ (fun b => b = false)); [auto with keeps | |].
  - intros s b s'. apply UpdateRemainingTime_off_false.
  - intros b ->. auto with keeps.
Qed.

#[local] Hint Resolve keeps_Enqueue keeps_Dequeue keeps_Erase
  keeps_TaskOffCpu : keeps.

Lemma keeps_Migrate p c q a : keeps_preempt (Migrate p c q a).
Proof. unfold Migrate. keeps_tac. Qed.

#[local] Hint Resolve keeps_Migrate : keeps.

Lemma keeps_pause_loop n : keeps_preempt (pause_loop n).
Proof. induction n; simpl; keeps_tac. Qed.

Lemma keeps_TaskOnCpu p c : keeps_preempt (TaskOnCpu p c).
Proof. unfold TaskOnCpu, SetRuntimeAtLastPick. keeps_tac. Qed.

#[local] Hint Resolve keeps_pause_loop keeps_TaskOnCpu : keeps.

Lemma never_sets_O1Schedule c ab pb sp ok :
  never_sets_preempt (O1Schedule c ab pb sp ok).
Proof.
  unfold O1Schedule. apply never_sets_bind; [|intros _].
  - unfold O1Schedule_preempt.
    apply never_sets_bind; [apply keeps_never_sets; auto with keeps|].
    intros cs. destruct (preempt_curr cs);
      [|apply keeps_never_sets; auto with keeps].
    apply never_sets_bind; [|intros _; apply never_sets_clear].
    apply keeps_never_sets. keeps_tac.
  - apply keeps_never_sets.
    unfold O1Schedule_pick, O1Schedule_commit. keeps_tac.
Qed.

(** C10.  With [preempt_curr] set on entry, and the CPU's current task (if
    there is one) on CPU and placed on this CPU, the preemption step of the
    commit loop completes with [preempt_curr] cleared, and the selection of
    the next task runs on the state it leaves.  When the CPU has no current
    task, clearing the flag is the step's only effect. *)
Theorem O1Schedule_preempt_clears (c : Z) (s : Sched) :
  preempt_curr (cs_of s c) = true →
  (∀ p, current (cs_of s c) = Some p →
        ∃ t, tasks_ s !! p = Some t ∧ run_state t = kOnCpu ∧
             cpu t = c ∧ 0 ≤ c) →
  ∃ s',
    O1Schedule_preempt c s = Ok tt s' ∧
    preempt_curr (cs_of s' c) = false ∧
    (current (cs_of s c) = None →
       s' = with_cs c (set_preempt_curr false (cs_of s c)) s) ∧
    (∀ ab pb spins ok,
       O1Schedule c ab pb spins ok s =
         (next <- O1Schedule_pick c pb ;;
          O1Schedule_commit c ab pb next spins ok) s').
Proof.
  intros Hpre Hcur.
  assert (∃ s', O1Schedule_preempt c s = Ok tt s' ∧
                preempt_curr (cs_of s' c) = false ∧
                (current (cs_of s c) = None →
                 s' = with_cs c (set_preempt_curr false (cs_of s c)) s))
    as (s' & Hrun & Hclr & Hnone).
  { unfold O1Schedule_preempt. mstep. rewrite Hpre. simpl.
    destruct (current (cs_of s c)) as [p|] eqn:Hp.
    - destruct (Hcur p eq_refl) as (t & Ht & Hon & Hcpu & Hc0).
      mstep.
      erewrite bind_Ok
        by (apply (TaskOffCpu_current p false false s t); try done;
            [lia | by rewrite Hcpu]).
      erewrite bind_Ok
        by (eapply Enqueue_eval; [task_lookup | done | simpl; lia]).
      mstep. eexists. split; [reflexivity|].
      split; [by rewrite cs_of_with_cs_eq | done].
    - msteps. eexists. split; [reflexivity|].
      split; [by rewrite cs_of_with_cs_eq | done]. }
  exists s'. repeat split; try done.
  intros ab pb spins ok. unfold O1Schedule. by rewrite (bind_Ok _ _ _ _ _ Hrun).
Qed.

(** C9.  [update_remaining_time] called off CPU never returns true, so
    task-off-cpu leaves every CPU's [preempt_curr] as it was, however it
    ends; and of all entry points of the scheduler only the tick handler
    can turn a [preempt_curr] from false to true. *)
Theorem preempt_curr_only_by_tick :
  (∀ p s b s', UpdateRemainingTime p true s = Ok b s' → b = false) ∧
  (∀ p blocked_ from_switchto s c,
     preempt_curr (cs_of (state_of (TaskOffCpu p blocked_ from_switchto s)) c)
     = preempt_curr (cs_of s c)) ∧
  (∀ k s c,
     is_tick k = false →
     preempt_curr (cs_of (state_of (exec k s)) c) = true →
     preempt_curr (cs_of s c) = true).
Proof.
  split; [|split].
  - intros p s b s'. apply UpdateRemainingTime_off_false.
  - intros p bl fs. apply keeps_TaskOffCpu.
  - intros k s c Hk.
    destruct k; try discriminate Hk; clear Hk; simpl;
      try (apply never_sets_O1Schedule);
      apply keeps_never_sets;
      unfold TaskNew, TaskRunnable, TaskDeparted, TaskDead, TaskYield,
        TaskBlocked, TaskPreempted, TaskSwitchto, ping_if; keeps_tac.
Qed.

(** ** How calls end *)

Lemma bind_Ok_inv {A B} (m : M A) (f : A → M B) s b s' :
  bind m f s = Ok b s' → ∃ a s1, m s = Ok a s1 ∧ f a s1 = Ok b s'.
Proof. unfold bind. destruct (m s) as [a s1| |]; [eauto | done..]. Qed.

Lemma get_task_Ok_inv p s t s' :
  get_task p s = Ok t s' → s' = s ∧ tasks_ s !! p = Some t.
Proof. unfold get_task. destruct (tasks_ s !! p); [|done]. by intros [= -> ->]. Qed.

Lemma modify_task_Ok_inv p f s u s' :
  modify_task p f s = Ok u s' →
  ∃ t, tasks_ s !! p = Some t ∧ s' = with_task p (f t) s.
Proof.
  unfold modify_task. destruct (tasks_ s !! p) as [t|]; [|done].
  intros [= _ <-]. eauto.
Qed.

Lemma CHECK_Ok_inv b s u s' : CHECK b s = Ok u s' → b = true ∧ s' = s.
Proof. unfold CHECK. destruct b; [|done]. by intros [= _ ->]. Qed.

Lemma ret_Ok_inv {A} (a b : A) s s' : ret a s = Ok b s' → a = b ∧ s' = s.
Proof. by intros [= -> ->]. Qed.

(** Breaks a hypothesis "the call ended normally" into the steps of the
    call. *)
Ltac minv H :=
  repeat
    match type of H with
    | bind (bind _ _) _ _ = Ok _ _ => rewrite bind_assoc in H
    | bind (get_task _) _ _ = Ok _ _ =>
        let t := fresh "t" in let s1 := fresh "s" in
        let Hg := fresh "Hget" in let E := fresh "E" in
        apply bind_Ok_inv in H as (t & s1 & Hg & H);
        apply get_task_Ok_inv in Hg as [E Hg]; subst s1
    | bind (modify_task _ _) _ _ = Ok _ _ =>
        let u := fresh "u" in let s1 := fresh "s" in
        let t := fresh "t" in
        let Hg := fresh "Hget" in let E := fresh "E" in
        apply bind_Ok_inv in H as (u & s1 & Hg & H);
        apply modify_task_Ok_inv in Hg as (t & Hg & E); subst s1
    | bind (CHECK _) _ _ = Ok _ _ =>
        let u := fresh "u" in let s1 := fresh "s" in
        let Hc := fresh "Hchk" in let E := fresh "E" in
        apply bind_Ok_inv in H as (u & s1 & Hc & H);
        apply CHECK_Ok_inv in Hc as [Hc E]; subst s1
    | bind (ret _) _ _ = Ok _ _ => rewrite bind_ret in H
    | bind (cpu_state _) _ _ = Ok _ _ => rewrite bind_cpu_state in H
    | bind (get_rq _) _ _ = Ok _ _ => rewrite bind_get_rq in H
    | bind (modify_cs _ _) _ _ = Ok _ _ => rewrite bind_modify_cs in H
    | bind (set_rq _ _) _ _ = Ok _ _ => rewrite bind_set_rq in H
    | bind (emit _) _ _ = Ok _ _ => rewrite bind_emit in H
    | bind Now _ _ = Ok _ _ => rewrite bind_Now in H
    | set_rq _ _ _ = Ok _ _ => rewrite set_rq_eq in H
    | modify_cs _ _ _ = Ok _ _ => rewrite modify_cs_eq in H
    | _ => progress cbv beta in H
    end.

(** The same, stopping at writes to task records. *)
Ltac minvq H :=
  repeat
    match type of H with
    | bind (bind _ _) _ _ = Ok _ _ => rewrite bind_assoc in H
    | bind (get_task _) _ _ = Ok _ _ =>
        let t := fresh "t" in let s1 := fresh "s" in
        let Hg := fresh "Hget" in let E := fresh "E" in
        apply bind_Ok_inv in H as (t & s1 & Hg & H);
        apply get_task_Ok_inv in Hg as [E Hg]; subst s1
    | bind (CHECK _) _ _ = Ok _ _ =>
        let u := fresh "u" in let s1 := fresh "s" in
        let Hc := fresh "Hchk" in let E := fresh "E" in
        apply bind_Ok_inv in H as (u & s1 & Hc & H);
        apply CHECK_Ok_inv in Hc as [Hc E]; subst s1
    | bind (ret _) _ _ = Ok _ _ => rewrite bind_ret in H
    | bind (cpu_state _) _ _ = Ok _ _ => rewrite bind_cpu_state in H
    | bind (get_rq _) _ _ = Ok _ _ => rewrite bind_get_rq in H
    | bind (modify_cs _ _) _ _ = Ok _ _ => rewrite bind_modify_cs in H
    | bind (set_rq _ _) _ _ = Ok _ _ => rewrite bind_set_rq in H
    | bind (emit _) _ _ = Ok _ _ => rewrite bind_emit in H
    | bind Now _ _ = Ok _ _ => rewrite bind_Now in H
    | set_rq _ _ _ = Ok _ _ => rewrite set_rq_eq in H
    | modify_cs _ _ _ = Ok _ _ => rewrite modify_cs_eq in H
    | _ => progress cbv beta in H
    end.

(** *** The invariant under the elementary updates *)

Lemma elem_of_bands s c p : p ∈ bands s c ↔ in_rq s c p.
Proof. unfold bands, in_rq. apply elem_of_app. Qed.

Lemma INV_idle_unreferenced s p t :
  INV s → tasks_ s !! p = Some t → idle t → unreferenced s p.
Proof.
  intros HI Ht Hidle c. split.
  - intros Hin. destruct (inv_queued s HI c p Hin) as (t' & Ht' & Hq & _).
    rewrite Ht in Ht'. injection Ht' as <-. destruct Hidle; congruence.
  - intros Hcur. destruct (inv_current s HI c p Hcur) as (t' & Ht' & Hq & _).
    rewrite Ht in Ht'. injection Ht' as <-. destruct Hidle; congruence.
Qed.

Lemma INV_dead_unreferenced s p :
  INV s → tasks_ s !! p = None → unreferenced s p.
Proof.
  intros HI Ht c. split.
  - intros Hin. destruct (inv_queued s HI c p Hin) as (t' & Ht' & _).
    congruence.
  - intros Hcur. destruct (inv_current s HI c p Hcur) as (t' & Ht' & _).
    congruence.
Qed.

(** Nothing the invariant looks at changed. *)
Lemma INV_same_view s s' :
  INV s →
  tasks_ s' = tasks_ s →
  (∀ c, current (cs_of s' c) = current (cs_of s c)) →
  (∀ c, bands s' c = bands s c) →
  INV s'.
Proof.
  intros HI HT HC HB. split.
  - intros c p. rewrite HB, HT. apply (inv_queued s HI).
  - intros c p. rewrite HC, HT. apply (inv_current s HI).
  - intros c. rewrite HB. apply (inv_nodup s HI).
  - intros p t. rewrite HB, HT. apply (inv_in_rq s HI).
  - intros p t. rewrite HC, HT. apply (inv_on_cpu s HI).
Qed.

(** A write to a task record that keeps its state and CPU, or moves it
    between the two idle states (the CPU of an idle task is free). *)
Lemma INV_task_neutral s s' p t t' :
  INV s →
  tasks_ s !! p = Some t →
  tasks_ s' = <[p := t']> (tasks_ s) →
  (∀ c, current (cs_of s' c) = current (cs_of s c)) →
  (∀ c, bands s' c = bands s c) →
  (run_state t' = run_state t ∧ cpu t' = cpu t) ∨ (idle t ∧ idle t') →
  INV s'.
Proof.
  intros HI Ht HT HC HB Hcase. split.
  - intros c q. rewrite HB, HT. intros Hin.
    destruct (inv_queued s HI c q Hin) as (tq & Htq & Hq & Hc).
    destruct (decide (p = q)) as [->|Hne].
    + rewrite lookup_insert_eq. exists t'. rewrite Ht in Htq.
      injection Htq as <-. destruct Hcase as [[Hr Hcp]|[[Hi|Hi] _]];
        [split; [done|]; split; congruence | congruence..].
    + rewrite lookup_insert_ne by done. eauto.
  - intros c q. rewrite HC, HT. intros Hcur.
    destruct (inv_current s HI c q Hcur) as (tq & Htq & Hq & Hc).
    destruct (decide (p = q)) as [->|Hne].
    + rewrite lookup_insert_eq. exists t'. rewrite Ht in Htq.
      injection Htq as <-. destruct Hcase as [[Hr Hcp]|[[Hi|Hi] _]];
        [split; [done|]; split; congruence | congruence..].
    + rewrite lookup_insert_ne by done. eauto.
  - intros c. rewrite HB. apply (inv_nodup s HI).
  - intros q tq. rewrite HT, HB. destruct (decide (p = q)) as [->|Hne].
    + rewrite lookup_insert_eq. intros [= <-] Hq.
      destruct Hcase as [[Hr Hcp]|[_ [Hi|Hi]]]; [|congruence..].
      rewrite Hcp. apply (inv_in_rq s HI q t Ht). congruence.
    + rewrite lookup_insert_ne by done. apply (inv_in_rq s HI).
  - intros q tq. rewrite HT, HC. destruct (decide (p = q)) as [->|Hne].
    + rewrite lookup_insert_eq. intros [= <-] Hq.
      destruct Hcase as [[Hr Hcp]|[_ [Hi|Hi]]]; [|congruence..].
      rewrite Hcp. apply (inv_on_cpu s HI q t Ht). congruence.
    + rewrite lookup_insert_ne by done. apply (inv_on_cpu s HI).
Qed.

(** An idle task becomes Queued on CPU [c] and joins [c]'s runqueue. *)
Lemma INV_insert s s' c p t t' :
  INV s →
  tasks_ s !! p = Some t → idle t →
  tasks_ s' = <[p := t']> (tasks_ s) →
  run_state t' = kQueued → cpu t' = c →
  (∀ c', current (cs_of s' c') = current (cs_of s c')) →
  (∀ c', c' ≠ c → bands s' c' = bands s c') →
  bands s' c ≡ₚ p :: bands s c →
  INV s'.
Proof.
  intros HI Ht Hidle HT Hq Hc HC HB HP.
  pose proof (INV_idle_unreferenced s p t HI Ht Hidle) as Hun.
  assert (∀ c' q, q ∈ bands s' c' → q ≠ p → q ∈ bands s c') as Hold.
  { intros c' q Hin Hne. destruct (decide (c' = c)) as [->|Hc'].
    - rewrite HP in Hin. apply elem_of_cons in Hin as [?|?]; done.
    - by rewrite <- HB. }
  split.
  - intros c' q Hin. rewrite HT. destruct (decide (q = p)) as [->|Hne].
    + rewrite lookup_insert_eq. exists t'. split; [done|]. split; [done|].
      destruct (decide (c' = c)) as [->|Hc']; [done|].
      rewrite HB in Hin by done. by destruct (Hun c').
    + rewrite lookup_insert_ne by done.
      apply (inv_queued s HI). by apply Hold.
  - intros c' q. rewrite HC, HT. intros Hcur.
    destruct (decide (q = p)) as [->|Hne]; [by destruct (Hun c')|].
    rewrite lookup_insert_ne by done. by apply (inv_current s HI).
  - intros c'. destruct (decide (c' = c)) as [->|Hc'].
    + rewrite HP. apply NoDup_cons. split; [by destruct (Hun c)|].
      apply (inv_nodup s HI).
    + rewrite HB by done. apply (inv_nodup s HI).
  - intros q tq. rewrite HT. destruct (decide (p = q)) as [->|Hne].
    + rewrite lookup_insert_eq. intros [= <-] _. rewrite Hc, HP.
      apply elem_of_cons. by left.
    + rewrite lookup_insert_ne by done. intros Htq Hqq.
      pose proof (inv_in_rq s HI q tq Htq Hqq) as Hin.
      destruct (decide (cpu tq = c)) as [<-|Hc'].
      * rewrite HP. apply elem_of_cons. by right.
      * by rewrite HB.
  - intros q tq. rewrite HT, HC. destruct (decide (p = q)) as [->|Hne].
    + rewrite lookup_insert_eq. intros [= <-] Hon. congruence.
    + rewrite lookup_insert_ne by done. apply (inv_on_cpu s HI).
Qed.

(** A Queued task leaves its runqueue and becomes idle. *)
Lemma INV_remove s s' c p t t' :
  INV s →
  tasks_ s !! p = Some t → run_state t = kQueued → cpu t = c →
  tasks_ s' = <[p := t']> (tasks_ s) →
  idle t' →
  (∀ c', current (cs_of s' c') = current (cs_of s c')) →
  (∀ c', c' ≠ c → bands s' c' = bands s c') →
  bands s c ≡ₚ p :: bands s' c →
  INV s'.
Proof.
  intros HI Ht Hq Hc HT Hidle HC HB HP.
  pose proof (inv_nodup s HI c) as Hnd. rewrite HP in Hnd.
  apply NoDup_cons in Hnd as [Hnin Hnd].
  assert (∀ c', p ∉ bands s' c') as Hgone.
  { intros c'. destruct (decide (c' = c)) as [->|Hc']; [done|].
    rewrite HB by done. intros Hin.
    destruct (inv_queued s HI c' p Hin) as (t0 & Ht0 & _ & Hc0).
    congruence. }
  assert (∀ c' q, q ∈ bands s' c' → q ∈ bands s c') as Hold.
  { intros c' q Hin. destruct (decide (c' = c)) as [->|Hc'].
    - rewrite HP. apply elem_of_cons. by right.
    - by rewrite <- HB. }
  split.
  - intros c' q Hin. rewrite HT.
    destruct (decide (q = p)) as [->|Hne]; [by destruct (Hgone c')|].
    rewrite lookup_insert_ne by done.
    apply (inv_queued s HI). by apply Hold.
  - intros c' q. rewrite HC, HT. intros Hcur.
    destruct (inv_current s HI c' q Hcur) as (tq & Htq & Hon & Hcq).
    destruct (decide (q = p)) as [->|Hne]; [congruence|].
    rewrite lookup_insert_ne by done. eauto.
  - intros c'. destruct (decide (c' = c)) as [->|Hc']; [done|].
    rewrite HB by done. apply (inv_nodup s HI).
  - intros q tq. rewrite HT. destruct (decide (p = q)) as [->|Hne].
    + rewrite lookup_insert_eq. intros [= <-] Hqq.
      destruct Hidle; congruence.
    + rewrite lookup_insert_ne by done. intros Htq Hqq.
      pose proof (inv_in_rq s HI q tq Htq Hqq) as Hin.
      destruct (decide (cpu tq = c)) as [<-|Hc'].
      * rewrite HP in Hin. apply elem_of_cons in Hin as [?|?]; done.
      * by rewrite HB.
  - intros q tq. rewrite HT, HC. destruct (decide (p = q)) as [->|Hne].
    + rewrite lookup_insert_eq. intros [= <-] Hon.
      destruct Hidle; congruence.
    + rewrite lookup_insert_ne by done. apply (inv_on_cpu s HI).
Qed.

(** An idle task is put on the idle CPU [c]. *)
Lemma INV_set_current s s' c p t t' :
  INV s →
  tasks_ s !! p = Some t → idle t →
  current (cs_of s c) = None →
  tasks_ s' = <[p := t']> (tasks_ s) →
  run_state t' = kOnCpu → cpu t' = c →
  current (cs_of s' c) = Some p →
  (∀ c', c' ≠ c → current (cs_of s' c') = current (cs_of s c')) →
  (∀ c', bands s' c' = bands s c') →
  INV s'.
Proof.
  intros HI Ht Hidle Hnone HT Hon Hc Hcur HC HB.
  pose proof (INV_idle_unreferenced s p t HI Ht Hidle) as Hun.
  split.
  - intros c' q. rewrite HB, HT. intros Hin.
    destruct (decide (q = p)) as [->|Hne]; [by destruct (Hun c')|].
    rewrite lookup_insert_ne by done. by apply (inv_queued s HI).
  - intros c' q Hq. rewrite HT. destruct (decide (c' = c)) as [->|Hc'].
    + rewrite Hcur in Hq. injection Hq as <-. rewrite lookup_insert_eq. eauto.
    + rewrite HC in Hq by done.
      destruct (decide (q = p)) as [->|Hne]; [by destruct (Hun c')|].
      rewrite lookup_insert_ne by done. by apply (inv_current s HI).
  - intros c'. rewrite HB. apply (inv_nodup s HI).
  - intros q tq. rewrite HT, HB. destruct (decide (p = q)) as [->|Hne].
    + rewrite lookup_insert_eq. intros [= <-] Hqq. congruence.
    + rewrite lookup_insert_ne by done. apply (inv_in_rq s HI).
  - intros q tq. rewrite HT. destruct (decide (p = q)) as [->|Hne].
    + rewrite lookup_insert_eq. intros [= <-] _. by rewrite Hc.
    + rewrite lookup_insert_ne by done. intros Htq Hqq.
      pose proof (inv_on_cpu s HI q tq Htq Hqq) as Hin.
      destruct (decide (cpu tq = c)) as [E|Hc']; [congruence|].
      by rewrite HC.
Qed.

(** The current task of CPU [c] leaves the CPU and becomes idle. *)
Lemma INV_clear_current s s' c p t t' :
  INV s →
  tasks_ s !! p = Some t →
  current (cs_of s c) = Some p →
  tasks_ s' = <[p := t']> (tasks_ s) →
  idle t' →
  current (cs_of s' c) = None →
  (∀ c', c' ≠ c → current (cs_of s' c') = current (cs_of s c')) →
  (∀ c', bands s' c' = bands s c') →
  INV s'.
Proof.
  intros HI Ht Hcur HT Hidle Hnone HC HB.
  destruct (inv_current s HI c p Hcur) as (t0 & Ht0 & Hon & Hc).
  assert (t0 = t) as -> by congruence.
  split.
  - intros c' q. rewrite HB, HT. intros Hin.
    destruct (inv_queued s HI c' q Hin) as (tq & Htq & Hq & Hcq).
    destruct (decide (q = p)) as [->|Hne]; [congruence|].
    rewrite lookup_insert_ne by done. eauto.
  - intros c' q Hq. rewrite HT. destruct (decide (c' = c)) as [->|Hc'].
    + congruence.
    + rewrite HC in Hq by done.
      destruct (inv_current s HI c' q Hq) as (tq & Htq & Honq & Hcq).
      destruct (decide (q = p)) as [->|Hne]; [congruence|].
      rewrite lookup_insert_ne by done. eauto.
  - intros c'. rewrite HB. apply (inv_nodup s HI).
  - intros q tq. rewrite HT, HB. destruct (decide (p = q)) as [->|Hne].
    + rewrite lookup_insert_eq. intros [= <-] Hqq. destruct Hidle; congruence.
    + rewrite lookup_insert_ne by done. apply (inv_in_rq s HI).
  - intros q tq. rewrite HT. destruct (decide (p = q)) as [->|Hne].
    + rewrite lookup_insert_eq. intros [= <-] Hqq. destruct Hidle; congruence.
    + rewrite lookup_insert_ne by done. intros Htq Hqq.
      pose proof (inv_on_cpu s HI q tq Htq Hqq) as Hin.
      destruct (decide (cpu tq = c)) as [E|Hc']; [|by rewrite HC].
      rewrite E, Hcur in Hin. congruence.
Qed.

(** A record that nothing refers to leaves the pool. *)
Lemma INV_free s s' p :
  INV s →
  unreferenced s p →
  tasks_ s' = delete p (tasks_ s) →
  (∀ c, current (cs_of s' c) = current (cs_of s c)) →
  (∀ c, bands s' c = bands s c) →
  INV s'.
Proof.
  intros HI Hun HT HC HB. split.
  - intros c q. rewrite HB, HT. intros Hin.
    destruct (decide (q = p)) as [->|Hne]; [by destruct (Hun c)|].
    rewrite lookup_delete_ne by done. by apply (inv_queued s HI).
  - intros c q. rewrite HC, HT. intros Hcur.
    destruct (decide (q = p)) as [->|Hne]; [by destruct (Hun c)|].
    rewrite lookup_delete_ne by done. by apply (inv_current s HI).
  - intros c. rewrite HB. apply (inv_nodup s HI).
  - intros q tq. rewrite HT, HB. intros Hl.
    apply lookup_delete_Some in Hl as [_ Hl]. by apply (inv_in_rq s HI).
  - intros q tq. rewrite HT, HC. intros Hl.
    apply lookup_delete_Some in Hl as [_ Hl]. by apply (inv_on_cpu s HI).
Qed.

(** *** The runqueue operations, seen from their normal end *)

Lemma bands_with_task p t s c : bands (with_task p t s) c = bands s c.
Proof. reflexivity. Qed.
Lemma bands_set_trace tr s c : bands (set_trace tr s) c = bands s c.
Proof. reflexivity. Qed.
Lemma bands_set_now_reads n s c : bands (set_now_reads n s) c = bands s c.
Proof. reflexivity. Qed.
Lemma bands_set_rr_next r s c : bands (set_rr_next r s) c = bands s c.
Proof. reflexivity. Qed.
Lemma bands_with_rq_eq c rq s : bands (with_rq c rq s) c = aq_ rq ++ eq_ rq.
Proof. unfold bands. by rewrite cs_of_with_rq_eq. Qed.
Lemma bands_with_rq_ne c c' rq s :
  c ≠ c' → bands (with_rq c rq s) c' = bands s c'.
Proof. intros H. unfold bands. by rewrite cs_of_with_rq_ne. Qed.
Lemma bands_with_cs_keep c f s c' :
  (∀ cs, run_queue (f cs) = run_queue cs) →
  bands (with_cs c (f (cs_of s c)) s) c' = bands s c'.
Proof.
  intros Hf. unfold bands. destruct (decide (c = c')) as [->|Hne].
  - by rewrite cs_of_with_cs_eq, Hf.
  - by rewrite cs_of_with_cs_ne.
Qed.
Lemma current_with_rq c rq s c' :
  current (cs_of (with_rq c rq s) c') = current (cs_of s c').
Proof.
  destruct (decide (c = c')) as [->|Hne].
  - by rewrite cs_of_with_rq_eq.
  - by rewrite cs_of_with_rq_ne.
Qed.
Lemma current_with_cs_keep c f s c' :
  (∀ cs, current (f cs) = current cs) →
  current (cs_of (with_cs c (f (cs_of s c)) s) c') = current (cs_of s c').
Proof.
  intros Hf. destruct (decide (c = c')) as [->|Hne].
  - by rewrite cs_of_with_cs_eq, Hf.
  - by rewrite cs_of_with_cs_ne.
Qed.

Lemma Enqueue_cases (c : Z) (p : taskp) (s : Sched) :
  match tasks_ s !! p with
  | None => O1Rq_Enqueue c p s = Fault s
  | Some t =>
      if bool_decide (0 ≤ cpu t ∧ run_state t = kRunnable)
      then ∃ s', O1Rq_Enqueue c p s = Ok tt s'
      else O1Rq_Enqueue c p s = Abort s
  end.
Proof using Type.
  clear clock.
  destruct (tasks_ s !! p) as [t|] eqn:Ht.
  - case_bool_decide as Hok.
    + destruct Hok as [Hc Hr]. eexists. by apply Enqueue_eval.
    + unfold O1Rq_Enqueue. mstep.
      destruct (decide (0 ≤ cpu t)) as [Hc|Hc].
      * rewrite bool_decide_true by done. mstep.
        rewrite bool_decide_false by tauto. reflexivity.
      * by rewrite bool_decide_false.
  - unfold O1Rq_Enqueue, bind, get_task. by rewrite Ht.
Qed.

Lemma Enqueue_Ok (c : Z) (p : taskp) (s s' : Sched) :
  O1Rq_Enqueue c p s = Ok tt s' →
  ∃ t t',
    tasks_ s !! p = Some t ∧ run_state t = kRunnable ∧ 0 ≤ cpu t ∧
    tasks_ s' = <[p := t']> (tasks_ s) ∧
    run_state t' = kQueued ∧ cpu t' = cpu t ∧
    (∀ c', current (cs_of s' c') = current (cs_of s c')) ∧
    (∀ c', c' ≠ c → bands s' c' = bands s c') ∧
    bands s' c ≡ₚ p :: bands s c.
Proof using Type.
  clear clock.
  intros Hrun. pose proof (Enqueue_cases c p s) as Hout.
  destruct (tasks_ s !! p) as [t|] eqn:Ht; [|congruence].
  case_bool_decide as Hok; [|congruence]. destruct Hok as [Hc Hr].
  rewrite (Enqueue_eval c p s t Ht Hr Hc) in Hrun. clear Hout.
  exists t. injection Hrun as <-.
  case_bool_decide; eexists; (split; [done|]); (split; [done|]);
    (split; [done|]); (split; [reflexivity|]); (split; [done|]);
    (split; [done|]); (split; [intros; by rewrite current_with_rq|]);
    (split; [intros; by rewrite bands_with_rq_ne|]);
    rewrite bands_with_rq_eq; simpl; unfold bands; autorewrite with sched;
    destruct (prio_boost t); simpl.
  - done.
  - rewrite <- app_assoc. simpl. symmetry. apply Permutation_middle.
  - symmetry. apply Permutation_middle.
  - rewrite app_assoc. symmetry. apply Permutation_cons_append.
Qed.

Lemma Enqueue_INV (c : Z) (p : taskp) (s s' : Sched) :
  INV s →
  (∀ t, tasks_ s !! p = Some t → cpu t = c) →
  O1Rq_Enqueue c p s = Ok tt s' →
  INV s' ∧ ∃ t', tasks_ s' !! p = Some t' ∧ run_state t' = kQueued ∧
                 cpu t' = c.
Proof using Type.
  clear clock.
  intros HI Hcpu Hrun.
  destruct (Enqueue_Ok c p s s' Hrun)
    as (t & t' & Ht & Hr & Hc & HT & Hq & Hc' & HC & HB & HP).
  split.
  - eapply (INV_insert s s' c p t t'); try done.
    + by right.
    + rewrite Hc'. by apply Hcpu.
  - exists t'. rewrite HT, lookup_insert_eq. split; [done|]. split; [done|].
    rewrite Hc'. by apply Hcpu.
Qed.

Lemma Dequeue_Ok (c : Z) (r : option taskp) (s s' : Sched) :
  O1Rq_Dequeue c s = Ok r s' →
  (r = None ∧ s' = s ∧ bands s c = []) ∨
  (∃ p t rest,
     r = Some p ∧ bands s c = p :: rest ∧
     tasks_ s !! p = Some t ∧ run_state t = kQueued ∧
     tasks_ s' = <[p := set_run_state kRunnable t]> (tasks_ s) ∧
     (∀ c', current (cs_of s' c') = current (cs_of s c')) ∧
     (∀ c', c' ≠ c → bands s' c' = bands s c') ∧
     bands s' c = rest).
Proof using Type.
  clear SLICE clock.
  intros Hrun.
  assert (∀ p rest, bands s c = p :: rest →
            (aq_ (run_queue (cs_of s c)) = [] →
             eq_ (run_queue (cs_of s c)) = p :: rest) →
            (aq_ (run_queue (cs_of s c)) ≠ [] →
             ∃ ra, aq_ (run_queue (cs_of s c)) = p :: ra ∧
                   rest = ra ++ eq_ (run_queue (cs_of s c))) →
            ∃ t, tasks_ s !! p = Some t ∧ run_state t = kQueued ∧
                 r = Some p ∧
                 tasks_ s' = <[p := set_run_state kRunnable t]> (tasks_ s) ∧
                 (∀ c', current (cs_of s' c') = current (cs_of s c')) ∧
                 (∀ c', c' ≠ c → bands s' c' = bands s c') ∧
                 bands s' c = rest) as Hpop.
  { intros p rest Hb Hswap Hact.
    destruct (tasks_ s !! p) as [t|] eqn:Ht.
    - destruct (decide (run_state t = kQueued)) as [Hq|Hq].
      + exists t. split; [done|]. split; [done|].
        destruct (aq_ (run_queue (cs_of s c))) as [|a ra] eqn:Ha.
        * rewrite (Dequeue_swap c s p rest t Ha (Hswap eq_refl) Ht Hq) in Hrun.
          injection Hrun as <- <-. split; [done|]. split; [done|].
          split; [intros; by rewrite current_with_rq|].
          split; [intros; by rewrite bands_with_rq_ne|].
          rewrite bands_with_rq_eq. simpl. apply app_nil_r.
        * destruct Hact as (ra' & [= -> ->] & ->); [done|].
          rewrite (Dequeue_active c s p ra' t Ha Ht Hq) in Hrun.
          injection Hrun as <- <-. split; [done|]. split; [done|].
          split; [intros; by rewrite current_with_rq|].
          split; [intros; by rewrite bands_with_rq_ne|].
          by rewrite bands_with_rq_eq.
      + exfalso. revert Hrun.
        unfold O1Rq_Dequeue, O1Rq_pop_front, O1Rq_Swap. mstep.
        destruct (aq_ (run_queue (cs_of s c))) as [|a ra] eqn:Ha.
        * rewrite (Hswap eq_refl). simpl. msteps.
          rewrite cs_of_with_rq_eq. simpl. rewrite (Hswap eq_refl).
          msteps. unfold queued. by rewrite bool_decide_false.
        * destruct Hact as (ra' & [= -> ->] & ->); [done|].
          simpl. msteps. rewrite Ha. msteps.
          unfold queued. by rewrite bool_decide_false.
    - exfalso. revert Hrun.
      unfold O1Rq_Dequeue, O1Rq_pop_front, O1Rq_Swap. mstep.
      destruct (aq_ (run_queue (cs_of s c))) as [|a ra] eqn:Ha.
      + rewrite (Hswap eq_refl). simpl. msteps.
        rewrite cs_of_with_rq_eq. simpl. rewrite (Hswap eq_refl).
        unfold bind, get_task. autorewrite with sched. by rewrite Ht.
      + destruct Hact as (ra' & [= -> ->] & ->); [done|].
        simpl. msteps. rewrite Ha.
        unfold bind, get_task. by rewrite Ht. }
  destruct (bands s c) as [|p rest] eqn:Hb.
  - left. apply app_eq_nil in Hb as [Ha He].
    revert Hrun. unfold O1Rq_Dequeue. mstep. rewrite Ha, He. simpl.
    by intros [= <- <-].
  - right. destruct (Hpop p rest eq_refl) as (t & Ht & Hq & -> & Hrest).
    + intros Ha. unfold bands in Hb. by rewrite Ha in Hb.
    + intros Ha. unfold bands in Hb.
      destruct (aq_ (run_queue (cs_of s c))) as [|a ra]; [done|].
      injection Hb as -> <-. eauto.
    + exists p, t, rest. by repeat (split; [done|]).
Qed.

Lemma Dequeue_INV (c : Z) (r : option taskp) (s s' : Sched) :
  INV s →
  O1Rq_Dequeue c s = Ok r s' →
  INV s' ∧
  current (cs_of s' c) = current (cs_of s c) ∧
  match r with
  | None => True
  | Some p => ∃ t, tasks_ s' !! p = Some t ∧ run_state t = kRunnable ∧
                   cpu t = c
  end.
Proof using Type.
  clear SLICE clock.
  intros HI Hrun.
  destruct (Dequeue_Ok c r s s' Hrun)
    as [(-> & -> & _) | (p & t & rest & -> & Hb & Ht & Hq & HT & HC & HB & HR)];
    [done|].
  assert (cpu t = c) as Hcpu.
  { destruct (inv_queued s HI c p) as (t0 & Ht0 & _ & Hc0).
    - rewrite Hb. apply elem_of_cons. by left.
    - congruence. }
  split; [|split; [done|]].
  - eapply (INV_remove s s' c p t); try done.
    + by right.
    + by rewrite Hb, HR.
  - exists (set_run_state kRunnable t). by rewrite HT, lookup_insert_eq.
Qed.

Lemma Erase_Ok (c : Z) (p : taskp) (s s' : Sched) :
  O1Rq_Erase c p s = Ok tt s' →
  ∃ t l1 l2,
    tasks_ s !! p = Some t ∧ run_state t = kQueued ∧
    tasks_ s' = <[p := set_run_state kRunnable t]> (tasks_ s) ∧
    (∀ c', current (cs_of s' c') = current (cs_of s c')) ∧
    (∀ c', c' ≠ c → bands s' c' = bands s c') ∧
    bands s c = l1 ++ p :: l2 ∧ bands s' c = l1 ++ l2.
Proof using Type.
  clear SLICE clock.
  intros Hrun.
  destruct (tasks_ s !! p) as [t|] eqn:Ht;
    [|revert Hrun; unfold O1Rq_Erase, bind, get_task; by rewrite Ht].
  destruct (decide (run_state t = kQueued)) as [Hq|Hq];
    [|by rewrite (proj1 (Erase_cases c p s t Ht) Hq) in Hrun].
  destruct (proj2 (Erase_cases c p s t Ht) Hq) as (Hact & Hexp & Hnone).
  exists t.
  destruct (decide (p ∈ aq_ (run_queue (cs_of s c)))) as [Ha|Ha].
  - destruct (Hact Ha) as (l1 & l2 & Hl & Heq). rewrite Heq in Hrun.
    injection Hrun as <-.
    exists l1, (l2 ++ eq_ (run_queue (cs_of s c))).
    split; [done|]. split; [done|]. split; [done|].
    split; [intros; by rewrite cs_of_with_task, current_with_rq|].
    split; [intros; by rewrite bands_with_task, bands_with_rq_ne|].
    rewrite bands_with_task, bands_with_rq_eq. unfold bands. rewrite Hl.
    simpl. by rewrite <- !app_assoc.
  - destruct (decide (p ∈ eq_ (run_queue (cs_of s c)))) as [He|He].
    + destruct (Hexp Ha He) as (l1 & l2 & Hl & Heq). rewrite Heq in Hrun.
      injection Hrun as <-.
      exists (aq_ (run_queue (cs_of s c)) ++ l1), l2.
      split; [done|]. split; [done|]. split; [done|].
      split; [intros; by rewrite cs_of_with_task, current_with_rq|].
      split; [intros; by rewrite bands_with_task, bands_with_rq_ne|].
      rewrite bands_with_task, bands_with_rq_eq. unfold bands. rewrite Hl.
      simpl. by rewrite <- !app_assoc.
    + by rewrite (Hnone Ha He) in Hrun.
Qed.

Lemma Erase_INV (c : Z) (p : taskp) (s s' : Sched) :
  INV s →
  (∀ t, tasks_ s !! p = Some t → cpu t = c) →
  O1Rq_Erase c p s = Ok tt s' →
  INV s' ∧ ∃ t', tasks_ s' !! p = Some t' ∧ run_state t' = kRunnable.
Proof using Type.
  clear SLICE clock.
  intros HI Hcpu Hrun.
  destruct (Erase_Ok c p s s' Hrun)
    as (t & l1 & l2 & Ht & Hq & HT & HC & HB & Hb & Hb').
  split.
  - eapply (INV_remove s s' c p t); try done.
    + by apply Hcpu.
    + by right.
    + rewrite Hb, Hb'. symmetry. apply Permutation_middle.
  - exists (set_run_state kRunnable t). by rewrite HT, lookup_insert_eq.
Qed.

(** *** The handlers keep the invariant *)

Lemma UpdateRemainingTime_Ok (q : taskp) (isOff b : bool) (s s' : Sched) :
  UpdateRemainingTime q isOff s = Ok b s' →
  ∃ t t',
    tasks_ s !! q = Some t ∧
    tasks_ s' = <[q := t']> (tasks_ s) ∧
    run_state t' = run_state t ∧ cpu t' = cpu t ∧
    cpu_states_ s' = cpu_states_ s.
Proof using Type.
  intros Hrun. destruct (tasks_ s !! q) as [t|] eqn:Ht.
  - rewrite (UpdateRemainingTime_eval q isOff s t Ht) in Hrun.
    exists t. destruct isOff; injection Hrun as _ <-; eexists;
      (split; [done|]); (split; [reflexivity|]); done.
  - exfalso. revert Hrun. unfold UpdateRemainingTime. rewrite bind_Now.
    unfold bind, modify_task. simpl. by rewrite Ht.
Qed.

Lemma cs_of_ext (s s' : Sched) (c : Z) :
  cpu_states_ s' = cpu_states_ s → cs_of s' c = cs_of s c.
Proof. unfold cs_of. by intros ->. Qed.

Lemma UpdateRemainingTime_INV (q : taskp) (isOff b : bool) (s s' : Sched) :
  INV s →
  UpdateRemainingTime q isOff s = Ok b s' →
  INV s' ∧ (∀ c, cs_of s' c = cs_of s c) ∧
  ∀ p t, p ≠ q → tasks_ s !! p = Some t → tasks_ s' !! p = Some t.
Proof using Type.
  intros HI Hrun.
  destruct (UpdateRemainingTime_Ok q isOff b s s' Hrun)
    as (t & t' & Ht & HT & Hr & Hc & HS).
  split; [|split].
  - eapply (INV_task_neutral s s' q t t'); try done.
    + intros c. by rewrite (cs_of_ext s s' c HS).
    + intros c. unfold bands. by rewrite (cs_of_ext s s' c HS).
    + by left.
  - intros c. by apply cs_of_ext.
  - intros p tp Hne Hp. rewrite HT. by rewrite lookup_insert_ne.
Qed.

(** Task-off-cpu keeps the invariant and leaves the task idle, on the CPU
    it was placed on. *)
Lemma TaskOffCpu_INV (p : taskp) (blocked_ from_switchto : bool)
    (s s' : Sched) :
  INV s →
  TaskOffCpu p blocked_ from_switchto s = Ok tt s' →
  INV s' ∧
  ∃ t t', tasks_ s !! p = Some t ∧ tasks_ s' !! p = Some t' ∧
          run_state t' = (if blocked_ then kBlocked else kRunnable) ∧
          cpu t' = cpu t ∧
          (∀ c, bands s' c = bands s c) ∧
          (∀ c, c ≠ cpu t → current (cs_of s' c) = current (cs_of s c)) ∧
          (current (cs_of s' (cpu t)) = None ∨
           current (cs_of s' (cpu t)) = current (cs_of s (cpu t))).
Proof using Type.
  intros HI Hrun. unfold TaskOffCpu, cpu_state_of in Hrun. minv Hrun.
  rename t into t0.
  destruct (current (cs_of s (cpu t0))) as [cur|] eqn:Hcur; [|done].
  apply bind_Ok_inv in Hrun as (u1 & s1 & Hupd & Hrun).
  apply bind_Ok_inv in Hupd as (b & s2 & Hupd & Hflag).
  pose proof (UpdateRemainingTime_off_false _ _ _ _ Hupd) as ->.
  apply ret_Ok_inv in Hflag as [_ <-].
  destruct (UpdateRemainingTime_Ok cur true false s s1 Hupd)
    as (tc & tc' & Htc & HT1 & Hr1 & Hc1 & HS1).
  destruct (UpdateRemainingTime_INV cur true false s s1 HI Hupd)
    as (HI1 & Hcs1 & _).
  minv Hrun. rename t into t1.
  assert (run_state t1 = run_state t0 ∧ cpu t1 = cpu t0) as [Hrs Hcp].
  { rewrite HT1 in Hget0. destruct (decide (cur = p)) as [->|Hne].
    - rewrite lookup_insert_eq in Hget0. injection Hget0 as <-.
      rewrite Hget in Htc. injection Htc as <-. done.
    - rewrite lookup_insert_ne in Hget0 by done.
      rewrite Hget in Hget0. by injection Hget0 as <-. }
  assert (∀ c, bands s1 c = bands s c) as Hb1.
  { intros c. unfold bands. by rewrite Hcs1. }
  destruct (oncpu t1) eqn:Hon.
  - minv Hrun. apply bool_decide_eq_true in Hchk0.
    apply modify_task_Ok_inv in Hrun as (t2 & Hget2 & ->).
    autorewrite with sched in Hget2.
    assert (t2 = t1) as -> by congruence.
    split.
    + eapply (INV_clear_current s1 _ (cpu t0) p t1); try done.
      * destruct blocked_; [by left | by right].
      * autorewrite with sched. done.
      * intros c' Hne. autorewrite with sched. by rewrite cs_of_with_cs_ne.
      * intros c'. rewrite bands_with_task.
        by apply (bands_with_cs_keep (cpu t0) (set_current None)).
    + exists t0. eexists. split; [done|].
      split; [autorewrite with sched; apply lookup_insert_eq|].
      split; [done|]. split; [done|].
      split.
      { intros c'. rewrite bands_with_task.
        rewrite (bands_with_cs_keep (cpu t0) (set_current None)) by done.
        apply Hb1. }
      split.
      { intros c' Hne. autorewrite with sched.
        rewrite cs_of_with_cs_ne by done. by rewrite Hcs1. }
      left. by autorewrite with sched.
  - minv Hrun. apply bool_decide_eq_true in Hchk1.
    apply modify_task_Ok_inv in Hrun as (t2 & Hget2 & ->).
    assert (t2 = t1) as -> by congruence.
    split.
    + eapply (INV_task_neutral s1 _ p t1); try done.
      right. split; [by left|]. destruct blocked_; [by left | by right].
    + exists t0. eexists. split; [done|].
      split; [autorewrite with sched; apply lookup_insert_eq|].
      split; [done|]. split; [done|].
      split; [intros c'; rewrite bands_with_task; apply Hb1|].
      split; [intros c' _; autorewrite with sched; by rewrite Hcs1|].
      right. autorewrite with sched. by rewrite Hcs1.
Qed.

Lemma TaskOnCpu_eval (p : taskp) (c : Z) (s : Sched) (t : O1Task) :
  tasks_ s !! p = Some t →
  TaskOnCpu p c s =
    Ok tt
      (with_task p
         (set_prio_boost false
            (set_preempted false
               (set_cpu c
                  (set_runtime_at_last_pick (clock (now_reads s))
                     (set_run_state kOnCpu t)))))
         (with_cs c (set_current (Some p) (cs_of s c))
            (set_now_reads (S (now_reads s)) s))).
Proof using Type.
  intros Ht. unfold TaskOnCpu, SetRuntimeAtLastPick. msteps.
  rewrite bind_Now. msteps. f_equal. sched_eq.
Qed.

(** Compares what the invariant looks at before and after a write to one
    CPU state. *)
Ltac view_tac :=
  intros; unfold bands; autorewrite with sched;
  repeat match goal with
    | |- context [cs_of (with_cs ?c _ _) ?c'] =>
        destruct (decide (c = c')) as [->|?];
        [rewrite cs_of_with_cs_eq | rewrite cs_of_with_cs_ne by done]
    end;
  autorewrite with sched; try done.

Lemma TaskOnCpu_INV (p : taskp) (c : Z) (s s' : Sched) :
  INV s →
  current (cs_of s c) = Some p ∨
  (current (cs_of s c) = None ∧ ∃ t, tasks_ s !! p = Some t ∧ idle t) →
  TaskOnCpu p c s = Ok tt s' →
  INV s'.
Proof using Type.
  intros HI Hcase Hrun.
  assert (∃ t, tasks_ s !! p = Some t) as [t Ht].
  { destruct Hcase as [Hcur | (_ & t & Ht & _)]; [|eauto].
    destruct (inv_current s HI c p Hcur) as (t & Ht & _). eauto. }
  rewrite (TaskOnCpu_eval p c s t Ht) in Hrun. injection Hrun as <-.
  destruct Hcase as [Hcur | (Hnone & t0 & Ht0 & Hidle)].
  - destruct (inv_current s HI c p Hcur) as (t0 & Ht0 & Hon & Hc).
    assert (t0 = t) as -> by congruence.
    eapply (INV_task_neutral s _ p t); try done.
    + view_tac.
    + view_tac.
    + left. simpl. by rewrite Hon, Hc.
  - assert (t0 = t) as -> by congruence.
    eapply (INV_set_current s _ c p t); try done.
    + view_tac.
    + view_tac.
    + view_tac.
Qed.

Lemma Migrate_INV (p : taskp) (c q : Z) (assoc_ok : bool) (s s' : Sched) :
  INV s →
  Migrate p c q assoc_ok s = Ok tt s' →
  INV s'.
Proof using Type.
  clear clock.
  intros HI Hrun. unfold Migrate in Hrun. minv Hrun.
  apply bool_decide_eq_true in Hchk, Hchk0.
  autorewrite with sched in Hget0. assert (t0 = t) as -> by congruence.
  apply bind_Ok_inv in Hrun as ([] & sE & Henq & Hrun).
  assert (INV (with_task p (set_cpu c t)
                 (set_trace (trace s ++ [EvAssociateTask c (gtid t) q assoc_ok])
                    s))) as HI1.
  { eapply (INV_task_neutral s _ p t); try done.
    right. split; by right. }
  destruct (Enqueue_INV c p _ sE HI1) as [HI2 _]; [|exact Henq|].
  { intros t1. autorewrite with sched. rewrite lookup_insert_eq.
    by intros [= <-]. }
  injection Hrun as <-. by eapply INV_same_view.
Qed.

Lemma INV_same_store (s s' : Sched) :
  INV s → tasks_ s' = tasks_ s → cpu_states_ s' = cpu_states_ s → INV s'.
Proof.
  intros HI HT HS. apply (INV_same_view s s' HI HT).
  - intros c. by rewrite (cs_of_ext s s' c HS).
  - intros c. unfold bands. by rewrite (cs_of_ext s s' c HS).
Qed.

Lemma unreferenced_ext (s s' : Sched) (p : taskp) :
  cpu_states_ s' = cpu_states_ s → unreferenced s p → unreferenced s' p.
Proof.
  intros HS Hun c. unfold bands. rewrite (cs_of_ext s s' c HS). apply Hun.
Qed.

Lemma INV_unreferenced_idle (s : Sched) (p : taskp) (t : O1Task) :
  INV s → unreferenced s p → tasks_ s !! p = Some t → idle t.
Proof.
  intros HI Hun Ht. destruct (run_state t) eqn:Hr.
  - by left.
  - by right.
  - destruct (Hun (cpu t)) as [Hnin _]. destruct Hnin.
    by apply (inv_in_rq s HI p t).
  - destruct (Hun (cpu t)) as [_ Hcur]. destruct Hcur.
    by apply (inv_on_cpu s HI p t).
Qed.

(** A write to one task record that keeps the task's state and CPU, or
    moves an idle task to an idle state. *)
Lemma modify_task_INV (p : taskp) (f : O1Task → O1Task) (s s' : Sched) :
  INV s →
  modify_task p f s = Ok tt s' →
  (∀ t, tasks_ s !! p = Some t →
        (run_state (f t) = run_state t ∧ cpu (f t) = cpu t) ∨
        (idle t ∧ idle (f t))) →
  INV s' ∧ cpu_states_ s' = cpu_states_ s ∧
  ∃ t, tasks_ s !! p = Some t ∧ tasks_ s' !! p = Some (f t).
Proof.
  intros HI Hrun Hf. apply modify_task_Ok_inv in Hrun as (t & Ht & ->).
  split; [|split; [done|]].
  - eapply (INV_task_neutral s _ p t); try done. by apply Hf.
  - exists t. split; [done|]. autorewrite with sched. apply lookup_insert_eq.
Qed.

Lemma AssignCpu_store (c : Z) (s s' : Sched) :
  AssignCpu s = Ok c s' →
  tasks_ s' = tasks_ s ∧ cpu_states_ s' = cpu_states_ s.
Proof.
  unfold AssignCpu. destruct (cpus_ s !! _); [|done]. by intros [= _ <-].
Qed.

Lemma ping_if_store (b : bool) (pc : Z) (s s' : Sched) :
  ping_if b pc s = Ok tt s' →
  tasks_ s' = tasks_ s ∧ cpu_states_ s' = cpu_states_ s.
Proof. unfold ping_if. destruct b; by intros [= <-]. Qed.

Lemma FreeTask_INV (p : taskp) (s s' : Sched) :
  INV s → unreferenced s p → FreeTask p s = Ok tt s' →
  INV s' ∧ tasks_ s' !! p = None ∧ cpu_states_ s' = cpu_states_ s.
Proof.
  intros HI Hun [= <-]. split; [|split; [apply lookup_delete_eq | done]].
  by eapply (INV_free s _ p).
Qed.

Lemma TaskNew_INV (p : taskp) (runnable : bool) (q : Z) (a : bool)
    (s s' : Sched) :
  INV s → unreferenced s p →
  TaskNew p runnable q a s = Ok tt s' → INV s'.
Proof using Type.
  intros HI Hun Hrun. unfold TaskNew, SetRemainingTime in Hrun.
  apply bind_Ok_inv in Hrun as ([] & s1 & H1 & Hrun).
  destruct (modify_task_INV _ _ _ _ HI H1) as (HI1 & HS1 & t1 & Ht1 & Ht1');
    [by left|].
  apply bind_Ok_inv in Hrun as ([] & s2 & H2 & Hrun).
  destruct (modify_task_INV _ _ _ _ HI1 H2) as (HI2 & HS2 & t2 & Ht2 & Ht2');
    [by left|].
  apply bind_Ok_inv in Hrun as ([] & s3 & H3 & Hrun).
  assert (unreferenced s2 p) as Hun2.
  { apply (unreferenced_ext s1); [done|]. by apply (unreferenced_ext s). }
  destruct (modify_task_INV _ _ _ _ HI2 H3) as (HI3 & HS3 & t3 & Ht3 & Ht3').
  { intros t Ht. right. split; [|by left].
    by apply (INV_unreferenced_idle s2 p t). }
  destruct runnable.
  - apply bind_Ok_inv in Hrun as ([] & s4 & H4 & Hrun).
    destruct (modify_task_INV _ _ _ _ HI3 H4) as (HI4 & _).
    { intros t Ht. right. rewrite Ht3' in Ht. injection Ht as <-.
      split; [by left | by right]. }
    apply bind_Ok_inv in Hrun as (c & s5 & H5 & Hrun).
    apply AssignCpu_store in H5 as [HT5 HS5].
    eapply Migrate_INV; [|exact Hrun]. by apply (INV_same_store s4).
  - by injection Hrun as <-.
Qed.

Lemma TaskRunnable_INV (p : taskp) (deferrable : bool) (q : Z) (a : bool)
    (s s' : Sched) :
  INV s → TaskRunnable p deferrable q a s = Ok tt s' → INV s'.
Proof using Type.
  clear clock.
  intros HI Hrun. unfold TaskRunnable in Hrun. minvq Hrun.
  apply bool_decide_eq_true in Hchk.
  apply bind_Ok_inv in Hrun as ([] & s1 & H1 & Hrun).
  destruct (modify_task_INV _ _ _ _ HI H1) as (HI1 & HS1 & _).
  { intros t' Ht'. right. assert (t' = t) as -> by congruence.
    split; [by left | by right]. }
  apply bind_Ok_inv in Hrun as ([] & s2 & H2 & Hrun).
  destruct (modify_task_INV _ _ _ _ HI1 H2) as (HI2 & HS2 & _); [by left|].
  minvq Hrun. case_bool_decide.
  - apply bind_Ok_inv in Hrun as (c & s3 & H3 & Hrun).
    apply AssignCpu_store in H3 as [HT3 HS3].
    eapply Migrate_INV; [|exact Hrun]. by apply (INV_same_store s2).
  - unfold cpu_state_of in Hrun. minv Hrun.
    eapply Enqueue_INV; [exact HI2| |exact Hrun].
    intros t' Ht'. congruence.
Qed.

Lemma TaskDeparted_INV (p : taskp) (from_switchto : bool) (pc : Z)
    (s s' : Sched) :
  INV s → TaskDeparted p from_switchto pc s = Ok tt s' →
  INV s' ∧ tasks_ s' !! p = None.
Proof using Type.
  intros HI Hrun. unfold TaskDeparted in Hrun. minv Hrun.
  apply bind_Ok_inv in Hrun as ([] & s1 & H1 & Hrun).
  assert (INV s1 ∧ ∃ t1, tasks_ s1 !! p = Some t1 ∧ idle t1)
    as (HI1 & t1 & Ht1 & Hidle).
  { destruct (oncpu t || from_switchto).
    - destruct (TaskOffCpu_INV p false from_switchto s s1 HI H1)
        as (HI1 & t0 & t1 & _ & Ht1 & Hr & _).
      split; [done|]. exists t1. split; [done|]. by right.
    - destruct (queued t) eqn:Hq.
      + unfold cpu_state_of in H1. minv H1.
        destruct (Erase_INV (cpu t0) p s s1 HI) as (HI1 & t1 & Ht1 & Hr);
          [intros; congruence | done |].
        split; [done|]. exists t1. split; [done|]. by right.
      + apply CHECK_Ok_inv in H1 as [Hb ->]. split; [done|].
        exists t. split; [done|]. left. by apply bool_decide_eq_true in Hb. }
  apply bind_Ok_inv in Hrun as ([] & s2 & H2 & Hrun).
  apply ping_if_store in H2 as [HT2 HS2].
  assert (INV s2) as HI2 by by apply (INV_same_store s1).
  destruct (FreeTask_INV p s2 s' HI2) as (HI' & Hgone & _); [|done|done].
  apply (INV_idle_unreferenced s2 p t1); [done | by rewrite HT2 | done].
Qed.

Lemma TaskDead_INV (p : taskp) (s s' : Sched) :
  INV s → TaskDead p s = Ok tt s' → INV s' ∧ tasks_ s' !! p = None.
Proof using Type.
  clear SLICE clock.
  intros HI Hrun. unfold TaskDead in Hrun. minv Hrun.
  apply bool_decide_eq_true in Hchk.
  destruct (FreeTask_INV p s s' HI) as (HI' & Hgone & _); [|done|done].
  apply (INV_idle_unreferenced s p t); [done | done | by left].
Qed.

Lemma TaskOffCpu_then_Enqueue_INV (p : taskp) (s s' : Sched) :
  INV s →
  (∃ t, tasks_ s !! p = Some t) →
  (c <- cpu_state_of p ;; O1Rq_Enqueue c p) s = Ok tt s' →
  INV s'.
Proof using Type.
  clear clock.
  intros HI _ Hrun. unfold cpu_state_of in Hrun. minv Hrun.
  eapply Enqueue_INV; [exact HI| |exact Hrun]. intros; congruence.
Qed.

Lemma TaskYield_INV (p : taskp) (from_switchto : bool) (pc : Z)
    (s s' : Sched) :
  INV s → TaskYield p from_switchto pc s = Ok tt s' → INV s'.
Proof using Type.
  intros HI Hrun. unfold TaskYield in Hrun.
  apply bind_Ok_inv in Hrun as ([] & s1 & H1 & Hrun).
  destruct (TaskOffCpu_INV p false from_switchto s s1 HI H1)
    as (HI1 & t0 & t1 & _ & Ht1 & _).
  rewrite <- bind_assoc in Hrun.
  apply bind_Ok_inv in Hrun as ([] & s2 & H2 & Hrun).
  apply ping_if_store in Hrun as [HT HS].
  apply (INV_same_store s2); [|done..].
  eapply TaskOffCpu_then_Enqueue_INV; [exact HI1 | eauto | exact H2].
Qed.

Lemma TaskBlocked_INV (p : taskp) (from_switchto : bool) (pc : Z)
    (s s' : Sched) :
  INV s → TaskBlocked p from_switchto pc s = Ok tt s' → INV s'.
Proof using Type.
  intros HI Hrun. unfold TaskBlocked in Hrun.
  apply bind_Ok_inv in Hrun as ([] & s1 & H1 & Hrun).
  destruct (TaskOffCpu_INV p true from_switchto s s1 HI H1) as (HI1 & _).
  apply ping_if_store in Hrun as [HT HS].
  by apply (INV_same_store s1).
Qed.

Lemma TaskPreempted_INV (p : taskp) (from_switchto : bool) (pc : Z)
    (s s' : Sched) :
  INV s → TaskPreempted p from_switchto pc s = Ok tt s' → INV s'.
Proof using Type.
  intros HI Hrun. unfold TaskPreempted in Hrun.
  apply bind_Ok_inv in Hrun as ([] & s1 & H1 & Hrun).
  destruct (TaskOffCpu_INV p false from_switchto s s1 HI H1)
    as (HI1 & t0 & t1 & _ & Ht1 & _).
  apply bind_Ok_inv in Hrun as ([] & s2 & H2 & Hrun).
  destruct (modify_task_INV _ _ _ _ HI1 H2) as (HI2 & HS2 & _); [by left|].
  apply bind_Ok_inv in Hrun as ([] & s3 & H3 & Hrun).
  destruct (modify_task_INV _ _ _ _ HI2 H3) as (HI3 & HS3 & t3 & _ & Ht3);
    [by left|].
  rewrite <- bind_assoc in Hrun.
  apply bind_Ok_inv in Hrun as ([] & s4 & H4 & Hrun).
  apply ping_if_store in Hrun as [HT HS].
  apply (INV_same_store s4); [|done..].
  eapply TaskOffCpu_then_Enqueue_INV; [exact HI3 | eauto | exact H4].
Qed.

Lemma CheckPreemptTick_INV (c : Z) (s s' : Sched) :
  INV s → CheckPreemptTick c s = Ok tt s' → INV s'.
Proof using Type.
  intros HI Hrun. unfold CheckPreemptTick in Hrun. minv Hrun.
  destruct (current (cs_of s c)) as [cur|]; [|by injection Hrun as <-].
  apply bind_Ok_inv in Hrun as (b & s1 & H1 & Hrun).
  destruct (UpdateRemainingTime_INV cur false b s s1 HI H1) as (HI1 & _).
  destruct b; [|by injection Hrun as <-].
  rewrite modify_cs_eq in Hrun. injection Hrun as <-.
  apply (INV_same_view s1); [done | done | view_tac | view_tac].
Qed.

Lemma O1Schedule_preempt_INV (c : Z) (s s' : Sched) :
  INV s → O1Schedule_preempt c s = Ok tt s' → INV s'.
Proof using Type.
  intros HI Hrun. unfold O1Schedule_preempt in Hrun. minvq Hrun.
  destruct (preempt_curr (cs_of s c)); [|by injection Hrun as <-].
  apply bind_Ok_inv in Hrun as ([] & s1 & H1 & Hrun).
  rewrite modify_cs_eq in Hrun. injection Hrun as <-.
  assert (INV s1) as HI1.
  { destruct (current (cs_of s c)) as [pv|] eqn:Hcur;
      [|by injection H1 as <-].
    apply bind_Ok_inv in H1 as ([] & s2 & H2 & H1).
    destruct (TaskOffCpu_INV pv false false s s2 HI H2)
      as (HI2 & t0 & t1 & Ht0 & Ht1 & _ & Hcpu & _).
    destruct (inv_current s HI c pv Hcur) as (t0' & Ht0' & _ & Hc).
    assert (t0' = t0) as -> by congruence.
    eapply Enqueue_INV; [exact HI2| |exact H1]. intros; congruence. }
  apply (INV_same_view s1); [done | done | view_tac | view_tac].
Qed.

Lemma O1Schedule_pick_INV (c : Z) (pb : bool) (next : option taskp)
    (s s' : Sched) :
  INV s → O1Schedule_pick c pb s = Ok next s' →
  INV s' ∧
  match next with
  | None => True
  | Some nx =>
      current (cs_of s' c) = Some nx ∨
      (current (cs_of s' c) = None ∧
       ∃ t, tasks_ s' !! nx = Some t ∧ run_state t = kRunnable ∧ cpu t = c)
  end.
Proof using Type.
  clear SLICE clock.
  intros HI Hrun. unfold O1Schedule_pick in Hrun.
  destruct pb; simpl in Hrun; [by injection Hrun as <- <-|].
  minvq Hrun. destruct (current (cs_of s c)) as [cur|] eqn:Hcur.
  - injection Hrun as <- <-. split; [done|]. by left.
  - destruct (Dequeue_INV c next s s' HI Hrun) as (HI' & Hc' & Hnext).
    split; [done|]. destruct next as [nx|]; [|done].
    right. by rewrite Hc', Hcur.
Qed.

Lemma O1Schedule_commit_INV (c ab : Z) (pb : bool) (next : option taskp)
    (spins : nat) (ok : bool) (s s' : Sched) :
  INV s →
  match next with
  | None => True
  | Some nx =>
      current (cs_of s c) = Some nx ∨
      (current (cs_of s c) = None ∧
       ∃ t, tasks_ s !! nx = Some t ∧ run_state t = kRunnable ∧ cpu t = c)
  end →
  O1Schedule_commit c ab pb next spins ok s = Ok tt s' → INV s'.
Proof using Type.
  intros HI Hnext Hrun. unfold O1Schedule_commit in Hrun.
  destruct next as [nx|].
  - minvq Hrun.
    apply bind_Ok_inv in Hrun as ([] & s1 & H1 & Hrun).
    rewrite pause_loop_eq in H1. injection H1 as <-.
    minvq Hrun.
    match type of Hrun with _ ?s0 = _ => set (s0' := s0) in * end.
    assert (INV s0') as HI0 by by apply (INV_same_store s).
    assert (∀ c', cs_of s0' c' = cs_of s c') as Hcs0 by done.
    assert (tasks_ s0' = tasks_ s) as HT0 by done.
    destruct ok.
    + eapply (TaskOnCpu_INV nx c s0'); [done| |exact Hrun].
      rewrite Hcs0, HT0. destruct Hnext as [?|(? & t' & ? & ? & ?)];
        [by left|].
      right. split; [done|]. exists t'. split; [done|]. by right.
    + minvq Hrun. rewrite Hcs0 in Hrun.
      apply bind_Ok_inv in Hrun as ([] & s1 & H1 & Hrun).
      apply bind_Ok_inv in Hrun as ([] & s2 & H2 & Hrun).
      assert (INV s1 ∧ ∃ t1, tasks_ s1 !! nx = Some t1 ∧ cpu t1 = c)
        as (HI1 & t1 & Ht1 & Hc1).
      { case_bool_decide as Hcur.
        - destruct (TaskOffCpu_INV nx false false s0' s1 HI0 H1)
            as (HI1 & t0 & t1 & Ht0 & Ht1 & _ & Hcpu & _).
          split; [done|]. exists t1. split; [done|].
          destruct (inv_current s HI c nx) as (t0' & Ht0' & _ & Hc);
            [done|].
          rewrite HT0 in Ht0. congruence.
        - injection H1 as <-. split; [done|].
          destruct Hnext as [?|(_ & t' & ? & _ & ?)]; [congruence|].
          exists t'. by rewrite HT0. }
      destruct (modify_task_INV _ _ _ _ HI1 H2) as (HI2 & _ & t2 & Ht2 & Ht2');
        [by left|].
      eapply Enqueue_INV; [exact HI2| |exact Hrun].
      intros t3 Ht3. rewrite Ht2' in Ht3. injection Ht3 as <-. simpl.
      congruence.
  - minvq Hrun. injection Hrun as <-. by apply (INV_same_store s).
Qed.

Lemma O1Schedule_INV (c ab : Z) (pb : bool) (spins : nat) (ok : bool)
    (s s' : Sched) :
  INV s → O1Schedule c ab pb spins ok s = Ok tt s' → INV s'.
Proof using Type.
  intros HI Hrun. unfold O1Schedule in Hrun.
  apply bind_Ok_inv in Hrun as ([] & s1 & H1 & Hrun).
  apply bind_Ok_inv in Hrun as (next & s2 & H2 & Hrun).
  pose proof (O1Schedule_preempt_INV c s s1 HI H1) as HI1.
  destruct (O1Schedule_pick_INV c pb next s1 s2 HI1 H2) as [HI2 Hnext].
  by eapply O1Schedule_commit_INV.
Qed.

(** X2.  Every entry point of the scheduler that ends normally keeps the
    bookkeeping invariant: runqueues hold only live Queued tasks of their
    own CPU, each once; a CPU's [current] is a live task on CPU there; and,
    conversely, every Queued task is in the runqueue of its CPU and every
    task on CPU is the [current] of its CPU.  For task-new the record must
    be a new one, held by no runqueue and no CPU. *)
Theorem exec_keeps_INV (k : Call) (s s' : Sched) :
  INV s →
  (∀ p r q a, k = CallTaskNew p r q a → unreferenced s p) →
  exec k s = Ok tt s' →
  INV s'.
Proof using Type.
  intros HI Hnew Hrun. destruct k; simpl in Hrun.
  - eapply TaskNew_INV; [exact HI | by eapply Hnew | exact Hrun].
  - by eapply TaskRunnable_INV.
  - by eapply TaskDeparted_INV.
  - by eapply TaskDead_INV.
  - by eapply TaskYield_INV.
  - by eapply TaskBlocked_INV.
  - by eapply TaskPreempted_INV.
  - unfold TaskSwitchto in Hrun.
    by destruct (TaskOffCpu_INV p true false s s' HI Hrun).
  - by eapply CheckPreemptTick_INV.
  - by eapply O1Schedule_INV.
Qed.

(** ** Further properties of the runqueue *)

(** X1.  The [CHECK]s of [Enqueue] come before its writes: on a pointer
    that is not in the pool the call faults, and on a task that is unplaced
    ([cpu < 0]) or not Runnable it aborts, in both cases with the scheduler
    state exactly as it was; on a placed Runnable task it ends normally. *)
Theorem Enqueue_outcomes (c : Z) (p : taskp) (s : Sched) :
  (tasks_ s !! p = None → O1Rq_Enqueue c p s = Fault s) ∧
  (∀ t, tasks_ s !! p = Some t → cpu t < 0 ∨ run_state t ≠ kRunnable →
        O1Rq_Enqueue c p s = Abort s) ∧
  (∀ t, tasks_ s !! p = Some t → 0 ≤ cpu t → run_state t = kRunnable →
        ∃ s', O1Rq_Enqueue c p s = Ok tt s').
Proof using Type.
  clear clock.
  pose proof (Enqueue_cases c p s) as Hc.
  split; [|split].
  - intros Ht. by rewrite Ht in Hc.
  - intros t Ht Hbad. rewrite Ht in Hc.
    rewrite bool_decide_false in Hc; [done|]. intros [? ?].
    destruct Hbad; [lia | done].
  - intros t Ht H0 Hr. rewrite Ht in Hc. by rewrite bool_decide_true in Hc.
Qed.

(** X3.  [Enqueue] is [EnqueueActive] for a task with slice left and
    [EnqueueExpired] for a task without, whatever the state of the task
    and of the runqueue. *)
Theorem Enqueue_by_polarity (c : Z) (p : taskp) (s : Sched) (t : O1Task) :
  tasks_ s !! p = Some t →
  O1Rq_Enqueue c p s =
    if bool_decide (0 < remaining_time t)
    then O1Rq_EnqueueActive c p s
    else O1Rq_EnqueueExpired c p s.
Proof using Type.
  clear clock.
  intros Ht. unfold O1Rq_Enqueue, O1Rq_EnqueueActive, O1Rq_EnqueueExpired,
    SetRemainingTime.
  case_bool_decide as Hrem; msteps;
    (destruct (bool_decide (0 ≤ cpu t)); [|reflexivity]); msteps;
    (destruct (bool_decide (run_state t = kRunnable)); [|reflexivity]);
    msteps; simpl.
  - by rewrite bool_decide_true.
  - rewrite bool_decide_false by done. msteps. simpl. reflexivity.
Qed.

(** X4.  [Dequeue] returns none exactly on an empty runqueue: on a
    runqueue with a task in either band it never ends normally without a
    task. *)
Theorem Dequeue_none_iff_empty (c : Z) (s : Sched) :
  result_of (O1Rq_Dequeue c s) = Some None ↔
  O1Rq_Empty (run_queue (cs_of s c)) = true.
Proof using Type.
  clear SLICE clock.
  unfold O1Rq_Empty. split.
  - intros Hres. destruct (O1Rq_Dequeue c s) as [r s'| |] eqn:Hrun; [|done..].
    injection Hres as ->.
    destruct (Dequeue_Ok c None s s' Hrun)
      as [(_ & _ & Hb) | (p & t & rest & [=] & _)].
    apply app_eq_nil in Hb as [-> ->]. reflexivity.
  - intros He. apply andb_true_iff in He as [Ha Hb].
    apply bool_decide_eq_true in Ha, Hb.
    unfold O1Rq_Dequeue. mstep. by rewrite Ha, Hb.
Qed.

Lemma Dequeue_front (c : Z) (s : Sched) (p : taskp) (rest : list taskp) :
  INV s → bands s c = p :: rest →
  ∃ s', O1Rq_Dequeue c s = Ok (Some p) s' ∧ bands s' c = rest ∧ INV s' ∧
        cpu_states_ s' !! c ≠ None.
Proof using Type.
  clear SLICE clock.
  intros HI Hb.
  destruct (inv_queued s HI c p) as (t & Ht & Hq & _).
  { rewrite Hb. apply elem_of_cons. by left. }
  assert (∃ s', O1Rq_Dequeue c s = Ok (Some p) s' ∧
                cpu_states_ s' !! c ≠ None) as (s' & Hrun & Hin).
  { unfold bands in Hb.
    destruct (aq_ (run_queue (cs_of s c))) as [|a ra] eqn:Ha.
    - eexists. split; [by eapply Dequeue_swap|].
      simpl. by rewrite lookup_insert_eq.
    - injection Hb as -> _. eexists. split; [by eapply Dequeue_active|].
      simpl. by rewrite lookup_insert_eq. }
  exists s'. split; [done|].
  destruct (Dequeue_INV c _ s s' HI Hrun) as (HI' & _).
  destruct (Dequeue_Ok c _ s s' Hrun)
    as [([=] & _) | (p' & t' & rest' & [= <-] & Hb' & _ & _ & _ & _ & _ & HR)].
  rewrite Hb in Hb'. injection Hb' as <-. done.
Qed.

(** X5.  Under the bookkeeping invariant, as many [Dequeue]s as the
    runqueue has tasks all succeed and return its tasks in band order:
    the active band front to back, then the expired band front to back.
    They leave the runqueue empty and keep the invariant. *)
Theorem Dequeue_n_drains (c : Z) (s : Sched) :
  INV s →
  ∃ s', Dequeue_n c (length (bands s c)) s = Ok (Some <$> bands s c) s' ∧
        bands s' c = [] ∧ INV s'.
Proof using Type.
  clear SLICE clock.
  remember (bands s c) as l eqn:Hl. revert s Hl.
  induction l as [|p rest IH]; intros s Hl HI.
  - exists s. split; [reflexivity|]. split; [by symmetry | exact HI].
  - destruct (Dequeue_front c s p rest HI (eq_sym Hl))
      as (s1 & Hrun & Hb1 & HI1 & _).
    destruct (IH s1 (eq_sym Hb1) HI1) as (s' & Hrest & Hb' & HI').
    exists s'. split; [|done]. simpl.
    erewrite bind_Ok by exact Hrun. erewrite bind_Ok by exact Hrest.
    reflexivity.
Qed.

Lemma erase_band_back (q : list taskp) (p : taskp) :
  erase_band (q ++ [p]) p = Some q.
Proof.
  unfold erase_band. rewrite length_app. simpl.
  rewrite bool_decide_true by lia.
  replace (length q + 1 - 1)%nat with (length q) by lia.
  rewrite bool_decide_true.
  - f_equal. rewrite delete_take_drop, take_app_length.
    rewrite drop_ge by (rewrite length_app; simpl; lia).
    apply app_nil_r.
  - rewrite lookup_app_r by lia. by rewrite Nat.sub_diag.
Qed.

Lemma erase_band_front (q : list taskp) (p : taskp) :
  p ∉ q → erase_band (p :: q) p = Some q.
Proof.
  intros Hnin.
  destruct (erase_band_in (p :: q) p) as (l1 & l2 & Hl & He & _).
  { apply elem_of_cons. by left. }
  rewrite He. f_equal. destruct l1 as [|x l1]; simpl in Hl.
  - by injection Hl as <-.
  - injection Hl as <- ->. destruct Hnin.
    apply elem_of_app. right. apply elem_of_cons. by left.
Qed.

(** X6.  [Erase] undoes [Enqueue]: enqueueing a placed Runnable task that
    the runqueue does not hold and erasing it again ends normally with
    both bands as they were and the task Runnable again; only its slice
    may have been refilled on the way through the expired band. *)
Theorem Enqueue_then_Erase (c : Z) (p : taskp) (s : Sched) (t : O1Task) :
  tasks_ s !! p = Some t →
  run_state t = kRunnable →
  0 ≤ cpu t →
  p ∉ bands s c →
  ∃ s',
    (O1Rq_Enqueue c p ;; O1Rq_Erase c p) s = Ok tt s' ∧
    run_queue (cs_of s' c) = run_queue (cs_of s c) ∧
    tasks_ s' =
      <[p := set_remaining_time
               (if bool_decide (0 < remaining_time t) then remaining_time t
                else SLICE) t]> (tasks_ s).
Proof using Type.
  clear clock.
  intros Ht Hr Hc Hnin.
  apply not_elem_of_app in Hnin as [Ha He].
  erewrite bind_Ok by (by apply Enqueue_eval).
  unfold O1Rq_Erase.
  assert (∀ q, p ∉ q →
            erase_band (if prio_boost t then p :: q else q ++ [p]) p
            = Some q) as Hband.
  { intros q Hq. destruct (prio_boost t);
      [by apply erase_band_front | apply erase_band_back]. }
  assert (∀ rq : O1Rq, mkO1Rq (aq_ rq) (eq_ rq) = rq) as Heta
    by (by intros []).
  case_bool_decide as Hrem; msteps; simpl; msteps;
    rewrite cs_of_with_rq_eq; simpl.
  - rewrite (Hband _ Ha). msteps. eexists. split; [reflexivity|].
    split.
    + rewrite cs_of_with_task, cs_of_with_rq_eq. simpl.
      autorewrite with sched. apply Heta.
    + simpl. rewrite insert_insert_eq. f_equal.
      destruct t; simpl in *; by subst.
  - rewrite (erase_band_notin _ p Ha), (Hband _ He). msteps.
    eexists. split; [reflexivity|].
    split.
    + rewrite cs_of_with_task, cs_of_with_rq_eq. simpl.
      autorewrite with sched. apply Heta.
    + simpl. rewrite !insert_insert_eq. f_equal.
      destruct t; simpl in *; by subst.
Qed.

(** X7.  A task that departs or dies is gone without a trace: when the
    handler ends normally under the bookkeeping invariant, the record has
    left the pool, no runqueue and no CPU still points to it, and the
    invariant holds for the tasks that remain. *)
Theorem departed_task_is_gone (p : taskp) (from_switchto : bool) (pc : Z)
    (s s' : Sched) :
  INV s →
  TaskDeparted p from_switchto pc s = Ok tt s' ∨ TaskDead p s = Ok tt s' →
  tasks_ s' !! p = None ∧ unreferenced s' p ∧ INV s'.
Proof using Type.
  intros HI [Hrun|Hrun].
  - destruct (TaskDeparted_INV p from_switchto pc s s' HI Hrun) as [HI' Hg].
    split; [done|]. split; [|done]. by apply INV_dead_unreferenced.
  - destruct (TaskDead_INV p s s' HI Hrun) as [HI' Hg].
    split; [done|]. split; [|done]. by apply INV_dead_unreferenced.
Qed.

(** ** Further properties of the handlers and of the commit loop *)

(** X8.  A task is charged exactly the time between being put on CPU and
    being taken off: after [TaskOnCpu] followed by task-off-cpu its
    [remaining_time] is lower by the difference of the two clock readings,
    its CPU has no current task again, and it is Blocked or Runnable as the
    off-CPU event says. *)
Theorem on_then_off_cpu_accounting (p : taskp) (c : Z)
    (blocked_ from_switchto : bool) (s : Sched) (t : O1Task) :
  tasks_ s !! p = Some t →
  0 ≤ c →
  ∃ s' t',
    (TaskOnCpu p c ;; TaskOffCpu p blocked_ from_switchto) s = Ok tt s' ∧
    tasks_ s' = <[p := t']> (tasks_ s) ∧
    remaining_time t' =
      remaining_time t - (clock (S (now_reads s)) - clock (now_reads s)) ∧
    run_state t' = (if blocked_ then kBlocked else kRunnable) ∧
    cpu t' = c ∧
    current (cs_of s' c) = None ∧
    run_queue (cs_of s' c) = run_queue (cs_of s c) ∧
    ∀ c', c' ≠ c → cs_of s' c' = cs_of s c'.
Proof using Type.
  intros Ht Hc.
  erewrite bind_Ok by (by apply TaskOnCpu_eval).
  erewrite TaskOffCpu_current; [| task_lookup | done | done |].
  - eexists _, _. split; [reflexivity|]. simpl.
    split; [by rewrite !insert_insert_eq|].
    split; [done|]. split; [done|]. split; [done|].
    split; [view_tac|]. split; [view_tac|].
    intros c' Hne.
    repeat (autorewrite with sched; rewrite ?cs_of_with_cs_ne by congruence).
    done.
  - simpl. autorewrite with sched. done.
Qed.

(** X9.  The tick handler does nothing on a CPU without a current task.
    With one, it charges the time since the last pick, restarts the
    measurement, and raises [preempt_curr] exactly when the slice is used
    up; it never lowers the flag and never touches [current] or the
    runqueue. *)
Theorem CpuTick_spec (c : Z) (s : Sched) :
  (current (cs_of s c) = None → CpuTick c s = Ok tt s) ∧
  (∀ p t, current (cs_of s c) = Some p → tasks_ s !! p = Some t →
     let rem := remaining_time t
                - (clock (now_reads s) - runtime_at_last_pick t) in
     ∃ s',
       CpuTick c s = Ok tt s' ∧
       tasks_ s' =
         <[p := set_runtime_at_last_pick (clock (S (now_reads s)))
                  (set_remaining_time rem t)]> (tasks_ s) ∧
       preempt_curr (cs_of s' c) =
         (preempt_curr (cs_of s c) || bool_decide (rem ≤ 0)) ∧
       current (cs_of s' c) = Some p ∧
       run_queue (cs_of s' c) = run_queue (cs_of s c) ∧
       ∀ c', c' ≠ c → cs_of s' c' = cs_of s c').
Proof using Type.
  split.
  - intros Hcur. unfold CpuTick, CheckPreemptTick. mstep. by rewrite Hcur.
  - intros p t Hcur Ht rem. unfold CpuTick, CheckPreemptTick.
    mstep. rewrite Hcur.
    erewrite bind_Ok by (exact (UpdateRemainingTime_eval p false s t Ht)).
    simpl. fold rem. case_bool_decide as Hrem.
    + mstep. eexists. split; [reflexivity|]. split; [done|].
      autorewrite with sched. simpl.
      split; [by rewrite orb_true_r|]. split; [done|]. split; [done|].
      intros c' Hne. by rewrite cs_of_with_cs_ne by congruence.
    + eexists. split; [reflexivity|]. split; [done|].
      autorewrite with sched.
      split; [by rewrite orb_false_r|]. done.
Qed.

(** X10.  Task-off-cpu for a Blocked task that arrives with
    [from_switchto] while its CPU runs another task charges the elapsed
    time to the slice of that other task, which stays on CPU with its
    [runtime_at_last_pick] as it was; the blocked task only gets the state
    the event asks for. *)
Theorem TaskOffCpu_charges_current (p q : taskp) (blocked_ : bool)
    (s : Sched) (t tq : O1Task) :
  p ≠ q →
  tasks_ s !! p = Some t →
  run_state t = kBlocked →
  0 ≤ cpu t →
  current (cs_of s (cpu t)) = Some q →
  tasks_ s !! q = Some tq →
  ∃ s',
    TaskOffCpu p blocked_ true s = Ok tt s' ∧
    tasks_ s' =
      <[p := set_run_state (if blocked_ then kBlocked else kRunnable) t]>
        (<[q := set_remaining_time
                  (remaining_time tq
                   - (clock (now_reads s) - runtime_at_last_pick tq)) tq]>
           (tasks_ s)) ∧
    cpu_states_ s' = cpu_states_ s.
Proof using Type.
  intros Hne Ht Hb Hc Hcur Htq. unfold TaskOffCpu, cpu_state_of. msteps.
  rewrite bool_decide_true by done. msteps. rewrite Hcur. mstep.
  erewrite bind_Ok by (by apply UpdateRemainingTime_off).
  mstep.
  erewrite bind_get_task
    by (autorewrite with sched; rewrite lookup_insert_ne by done; exact Ht).
  unfold oncpu. rewrite bool_decide_false by congruence. msteps.
  rewrite bool_decide_true by done. mstep.
  erewrite modify_task_Some
    by (autorewrite with sched; rewrite lookup_insert_ne by done; exact Ht).
  eexists. split; [reflexivity|]. done.
Qed.

(** X11.  A commit loop that needs no preemption and is run with
    [prio_boost] only yields: it asks the kernel to return on idle exactly
    when the CPU has a current task or a non-empty runqueue, and changes
    nothing in the scheduler.  Without [prio_boost], an idle CPU with an
    empty runqueue yields without that flag. *)
Theorem O1Schedule_yields (c ab : Z) (spins : nat) (ok : bool) (s : Sched) :
  preempt_curr (cs_of s c) = false →
  O1Schedule c ab true spins ok s =
    Ok tt (set_trace
             (trace s ++
              [EvLocalYield c ab
                 (bool_decide (current (cs_of s c) ≠ None)
                  || negb (O1Rq_Empty (run_queue (cs_of s c))))]) s) ∧
  (current (cs_of s c) = None →
   O1Rq_Empty (run_queue (cs_of s c)) = true →
   O1Schedule c ab false spins ok s =
     Ok tt (set_trace (trace s ++ [EvLocalYield c ab false]) s)).
Proof using Type.
  intros Hpre. unfold O1Schedule, O1Schedule_preempt, O1Schedule_pick,
    O1Schedule_commit. split.
  - msteps. rewrite Hpre. msteps. simpl. msteps. reflexivity.
  - intros Hcur Hempty. msteps. rewrite Hpre. msteps. simpl. msteps.
    rewrite Hcur. unfold O1Rq_Dequeue. msteps.
    unfold O1Rq_Empty in Hempty. apply andb_true_iff in Hempty as [Ha He].
    rewrite Ha, He. msteps. reflexivity.
Qed.

Lemma Dequeue_head (c : Z) (s : Sched) (p : taskp) (rest : list taskp)
    (t : O1Task) :
  bands s c = p :: rest →
  tasks_ s !! p = Some t →
  run_state t = kQueued →
  ∃ rq',
    O1Rq_Dequeue c s =
      Ok (Some p)
         (with_rq c rq' (with_task p (set_run_state kRunnable t) s)) ∧
    aq_ rq' ++ eq_ rq' = rest.
Proof using Type.
  clear SLICE clock.
  intros Hb Ht Hq. unfold bands in Hb.
  destruct (aq_ (run_queue (cs_of s c))) as [|a ra] eqn:Ha.
  - simpl in Hb. eexists. split; [by apply Dequeue_swap|].
    simpl. apply app_nil_r.
  - injection Hb as -> <-. eexists. split; [by apply Dequeue_active|]. done.
Qed.

(** Selection and successful commit on a CPU without a current task whose
    runqueue has the live Queued task [p] at its head. *)
Lemma pick_commit_head (c ab : Z) (spins : nat) (s : Sched)
    (p : taskp) (rest : list taskp) (t : O1Task) :
  current (cs_of s c) = None →
  bands s c = p :: rest →
  tasks_ s !! p = Some t →
  run_state t = kQueued →
  ∃ s',
    (next <- O1Schedule_pick c false ;;
     O1Schedule_commit c ab false next spins true) s = Ok tt s' ∧
    current (cs_of s' c) = Some p ∧
    preempt_curr (cs_of s' c) = preempt_curr (cs_of s c) ∧
    bands s' c = rest ∧
    tasks_ s' =
      <[p := set_prio_boost false
               (set_preempted false
                  (set_cpu c
                     (set_runtime_at_last_pick (clock (now_reads s))
                        (set_run_state kOnCpu t))))]> (tasks_ s) ∧
    trace s' =
      trace s ++ replicate spins EvPause ++
      [EvOpen c (gtid t) (seqnum t) ab; EvCommit c true].
Proof using Type.
  intros Hcur Hb Ht Hq.
  destruct (Dequeue_head c s p rest t Hb Ht Hq) as (rq' & Hdq & Hrest).
  unfold O1Schedule_pick, O1Schedule_commit.
  simpl. msteps. rewrite Hcur.
  erewrite bind_Ok by exact Hdq.
  cbv iota. msteps. erewrite bind_Ok by apply pause_loop_eq. msteps.
  erewrite TaskOnCpu_eval by task_lookup.
  eexists. split; [reflexivity|].
  split; [view_tac|]. split; [view_tac|]. split; [view_tac|].
  split; [simpl; by rewrite insert_insert_eq|].
  simpl. by rewrite <- !app_assoc.
Qed.

(** X12.  A successful commit on an idle CPU: with no preemption pending,
    no current task and a live Queued task [p] at the head of the
    runqueue, the commit loop opens a run request for [p], and when the
    kernel commits it, [p] is the CPU's current task, on CPU, out of the
    runqueue, with [prio_boost] and [preempted] cleared and its slice as it
    was; the runqueue keeps its other tasks in order. *)
Theorem O1Schedule_runs_head (c ab : Z) (spins : nat) (s : Sched)
    (p : taskp) (rest : list taskp) (t : O1Task) :
  preempt_curr (cs_of s c) = false →
  current (cs_of s c) = None →
  bands s c = p :: rest →
  tasks_ s !! p = Some t →
  run_state t = kQueued →
  ∃ s' t',
    O1Schedule c ab false spins true s = Ok tt s' ∧
    current (cs_of s' c) = Some p ∧
    bands s' c = rest ∧
    tasks_ s' = <[p := t']> (tasks_ s) ∧
    t' = set_prio_boost false
           (set_preempted false
              (set_cpu c
                 (set_runtime_at_last_pick (clock (now_reads s))
                    (set_run_state kOnCpu t)))) ∧
    trace s' =
      trace s ++ replicate spins EvPause ++
      [EvOpen c (gtid t) (seqnum t) ab; EvCommit c true].
Proof using Type.
  intros Hpre Hcur Hb Ht Hq.
  destruct (pick_commit_head c ab spins s p rest t Hcur Hb Ht Hq)
    as (s' & Hrun & Hc' & _ & Hb' & HT & Htr).
  exists s'. eexists. split; [|by repeat split].
  unfold O1Schedule, O1Schedule_preempt. msteps. rewrite Hpre. by mstep.
Qed.

(** X13.  A lone task keeps the CPU: when the tick has asked for
    preemption of the current task and the runqueue is empty, one commit
    loop with a successful commit takes the task off CPU, passes it
    through the runqueue (through the expired band, with a fresh slice, if
    its slice is used up), and puts it back on CPU.  It ends as the current
    task with [preempt_curr] cleared and the runqueue empty. *)
Theorem O1Schedule_lone_task (c ab : Z) (spins : nat) (s : Sched)
    (p : taskp) (t : O1Task) :
  preempt_curr (cs_of s c) = true →
  current (cs_of s c) = Some p →
  bands s c = [] →
  tasks_ s !! p = Some t →
  run_state t = kOnCpu →
  cpu t = c →
  0 ≤ c →
  let rem := remaining_time t
             - (clock (now_reads s) - runtime_at_last_pick t) in
  ∃ s' t',
    O1Schedule c ab false spins true s = Ok tt s' ∧
    current (cs_of s' c) = Some p ∧
    preempt_curr (cs_of s' c) = false ∧
    bands s' c = [] ∧
    tasks_ s' = <[p := t']> (tasks_ s) ∧
    run_state t' = kOnCpu ∧
    cpu t' = c ∧
    prio_boost t' = false ∧
    remaining_time t' = (if bool_decide (0 < rem) then rem else SLICE) ∧
    runtime_at_last_pick t' = clock (S (now_reads s)).
Proof using Type.
  intros Hpre Hcur Hb Ht Hon Hcpu Hc rem.
  apply app_eq_nil in Hb as [Ha He].
  unfold O1Schedule, O1Schedule_preempt. msteps. rewrite Hpre, Hcur.
  msteps.
  erewrite bind_Ok
    by (apply (TaskOffCpu_current p false false s t); try done;
        [lia | by rewrite Hcpu]).
  erewrite bind_Ok by (eapply Enqueue_eval; [task_lookup | done | simpl; lia]).
  msteps. rewrite Hcpu. autorewrite with sched. simpl. rewrite Ha, He.
  fold rem.
  assert (∀ x : taskp, (if prio_boost t then [x] else [] ++ [x]) = [x])
    as Hone by (by destruct (prio_boost t)).
  rewrite !Hone.
  match goal with |- context [bind _ _ ?S] => set (s2 := S) end.
  assert (current (cs_of s2 c) = None) as Hcur2
    by (subst s2; case_bool_decide; view_tac).
  assert (preempt_curr (cs_of s2 c) = false) as Hpre2
    by (subst s2; case_bool_decide; view_tac).
  assert (bands s2 c = [p]) as Hb2
    by (subst s2; case_bool_decide; view_tac).
  assert (∃ tq, tasks_ s2 !! p = Some tq ∧ run_state tq = kQueued ∧
                cpu tq = c ∧
                remaining_time tq
                = (if bool_decide (0 < rem) then rem else SLICE) ∧
                tasks_ s2 = <[p := tq]> (tasks_ s) ∧
                now_reads s2 = S (now_reads s)) as (tq & Htq & Hqq & Hcq
                                                    & Hrq & HT2 & Hn2).
  { subst s2. case_bool_decide; eexists;
      (split; [task_lookup|]); (split; [done|]); (split; [done|]);
      (split; [done|]); (split; [|done]); simpl;
      by rewrite !insert_insert_eq. }
  destruct (pick_commit_head c ab spins s2 p [] tq Hcur2 Hb2 Htq Hqq)
    as (s' & Hrun & Hc' & Hp' & Hb' & HT & _).
  exists s'. eexists. split; [exact Hrun|].
  split; [done|]. split; [by rewrite Hp'|]. split; [done|].
  split; [by rewrite HT, HT2, insert_insert_eq|].
  split; [done|]. split; [done|]. split; [done|].
  split; [exact Hrq|]. by rewrite <- Hn2.
Qed.

Lemma tasks_set_rr_next r s : tasks_ (set_rr_next r s) = tasks_ s.
Proof. reflexivity. Qed.
#[local] Hint Rewrite tasks_set_rr_next : sched.

(** X14.  Task-new for a task that is not runnable only initialises the
    record: slice refilled, sequence number taken from the message, state
    Blocked.  For a runnable, unplaced task it places the task on the CPU
    under the round-robin cursor, advances the cursor, associates the task
    with that CPU's channel, enqueues it there with a full slice and pings
    the CPU's agent. *)
Theorem TaskNew_spec (p : taskp) (q : Z) (a : bool) (s : Sched)
    (t : O1Task) :
  tasks_ s !! p = Some t →
  TaskNew p false q a s =
    Ok tt (with_task p
             (set_run_state kBlocked
                (set_seqnum q (set_remaining_time SLICE t))) s) ∧
  (∀ c0,
     cpu t = -1 →
     (rr_start s ≤ length (cpus_ s))%nat →
     cpus_ s !! (rr_start s mod length (cpus_ s))%nat = Some c0 →
     0 ≤ c0 →
     0 < SLICE →
     ∃ s' t',
       TaskNew p true q true s = Ok tt s' ∧
       tasks_ s' = <[p := t']> (tasks_ s) ∧
       t' = set_run_state kQueued
              (set_cpu c0 (set_seqnum q (set_remaining_time SLICE t))) ∧
       run_queue (cs_of s' c0) =
         mkO1Rq (if prio_boost t then p :: aq_ (run_queue (cs_of s c0))
                 else aq_ (run_queue (cs_of s c0)) ++ [p])
                (eq_ (run_queue (cs_of s c0))) ∧
       rr_next s' = Some (S (rr_start s mod length (cpus_ s))) ∧
       trace s' =
         trace s ++ [EvAssociateTask c0 (gtid t) q true; EvPing c0]).
Proof using Type.
  clear clock.
  intros Ht. split.
  - unfold TaskNew, SetRemainingTime. msteps. simpl.
    unfold ret. f_equal. sched_eq.
  - intros c0 Hcpu Hle Hc0 H0 Hslice.
    assert (cpus_ s ≠ []) as HL.
    { intros E. rewrite E in Hc0. done. }
    unfold TaskNew, SetRemainingTime. msteps. simpl. msteps.
    match goal with |- context [bind AssignCpu _ ?S] => set (s1 := S) end.
    destruct (AssignCpu_eq s1 HL Hle) as (c1 & Hc1 & Hassign1).
    assert (c1 = c0) as ->.
    { change (cpus_ s1) with (cpus_ s) in Hc1.
      change (rr_start s1) with (rr_start s) in Hc1. congruence. }
    erewrite bind_Ok by exact Hassign1.
    subst s1. unfold Migrate. msteps.
    simpl. rewrite !bool_decide_true by done. msteps.
    erewrite bind_Ok by (eapply Enqueue_eval; [task_lookup | done | done]).
    cbn [remaining_time prio_boost set_cpu set_run_state set_seqnum
         set_remaining_time].
    rewrite bool_decide_true by done. unfold emit.
    eexists _, _. split; [reflexivity|].
    split; [simpl; by rewrite !insert_insert_eq|].
    split; [done|].
    split; [by rewrite cs_of_set_trace, cs_of_with_rq_eq|].
    split; [done|].
    simpl. by rewrite <- app_assoc.
Qed.

(** X15.  A wakeup is refused for a task that is not Blocked: the handler
    aborts with nothing changed.  For a Blocked task that is already placed
    it sets [prio_boost] to "not deferrable" and enqueues the task on its
    CPU: a deferrable wakeup joins its band at the back, a non-deferrable
    one at the front. *)
Theorem TaskRunnable_placed (p : taskp) (deferrable : bool) (q : Z)
    (a : bool) (s : Sched) (t : O1Task) :
  tasks_ s !! p = Some t →
  (run_state t ≠ kBlocked → TaskRunnable p deferrable q a s = Abort s) ∧
  (run_state t = kBlocked → 0 ≤ cpu t →
     let rq := run_queue (cs_of s (cpu t)) in
     ∃ s' t',
       TaskRunnable p deferrable q a s = Ok tt s' ∧
       tasks_ s' = <[p := t']> (tasks_ s) ∧
       run_state t' = kQueued ∧
       prio_boost t' = negb deferrable ∧
       remaining_time t' =
         (if bool_decide (0 < remaining_time t) then remaining_time t
          else SLICE) ∧
       run_queue (cs_of s' (cpu t)) =
         (if bool_decide (0 < remaining_time t)
          then mkO1Rq (if deferrable then aq_ rq ++ [p] else p :: aq_ rq)
                      (eq_ rq)
          else mkO1Rq (aq_ rq)
                      (if deferrable then eq_ rq ++ [p] else p :: eq_ rq))).
Proof using Type.
  clear clock.
  intros Ht. split.
  - intros Hnb. unfold TaskRunnable. mstep. unfold blocked.
    by rewrite bool_decide_false.
  - intros Hb Hc rq. subst rq. unfold TaskRunnable, cpu_state_of.
    mstep. unfold blocked. rewrite bool_decide_true by done. msteps.
    simpl. rewrite bool_decide_false by lia. msteps.
    simpl. rewrite bool_decide_true by done. msteps.
    erewrite Enqueue_eval; [| task_lookup | done | done].
    simpl. autorewrite with sched.
    case_bool_decide; eexists _, _; (split; [reflexivity|]);
      (split; [simpl; by rewrite !insert_insert_eq|]);
      (split; [done|]); (split; [done|]); (split; [done|]);
      rewrite cs_of_with_rq_eq; simpl; by destruct deferrable.
Qed.

(** X16.  Round-robin rotation.  Under the bookkeeping invariant, when the
    tick has asked for preemption, the current task [p] (not boosted) has
    used up its slice and task [q] heads the runqueue, one commit loop with
    a successful commit puts [q] on CPU and sends [p] to the end of the
    line with a fresh slice: the runqueue holds the tasks that waited
    behind [q], in their order, and then [p]. *)
Theorem O1Schedule_rotates (c ab : Z) (spins : nat) (s : Sched)
    (p q : taskp) (rest : list taskp) (t : O1Task) :
  INV s →
  0 ≤ c →
  preempt_curr (cs_of s c) = true →
  current (cs_of s c) = Some p →
  tasks_ s !! p = Some t →
  prio_boost t = false →
  remaining_time t - (clock (now_reads s) - runtime_at_last_pick t) ≤ 0 →
  bands s c = q :: rest →
  ∃ s' tp tq,
    O1Schedule c ab false spins true s = Ok tt s' ∧
    current (cs_of s' c) = Some q ∧
    preempt_curr (cs_of s' c) = false ∧
    bands s' c = rest ++ [p] ∧
    tasks_ s' !! p = Some tp ∧
    run_state tp = kQueued ∧ remaining_time tp = SLICE ∧
    tasks_ s' !! q = Some tq ∧
    run_state tq = kOnCpu ∧ cpu tq = c.
Proof using Type.
  intros HI Hc Hpre Hcur Ht Hboost Hrem Hb.
  destruct (inv_current s HI c p Hcur) as (t0 & Ht0 & Hon & Hcpu).
  assert (t0 = t) as -> by congruence.
  destruct (inv_queued s HI c q) as (tq & Htq & Hqq & Hcq).
  { rewrite Hb. apply elem_of_cons. by left. }
  assert (p ≠ q) as Hne by (intros ->; congruence).
  unfold O1Schedule, O1Schedule_preempt. msteps. rewrite Hpre, Hcur.
  msteps.
  erewrite bind_Ok
    by (apply (TaskOffCpu_current p false false s t); try done;
        [lia | by rewrite Hcpu]).
  erewrite bind_Ok by (eapply Enqueue_eval; [task_lookup | done | simpl; lia]).
  msteps. rewrite Hcpu. autorewrite with sched. simpl.
  rewrite bool_decide_false by lia. rewrite Hboost.
  match goal with |- context [bind _ _ ?S] => set (s2 := S) end.
  assert (current (cs_of s2 c) = None) as Hcur2 by (subst s2; view_tac).
  assert (preempt_curr (cs_of s2 c) = false) as Hpre2
    by (subst s2; view_tac).
  assert (bands s2 c = q :: rest ++ [p]) as Hb2.
  { subst s2. view_tac. simpl. unfold bands in Hb.
    by rewrite app_assoc, Hb. }
  assert (tasks_ s2 !! q = Some tq) as Htq2.
  { subst s2. autorewrite with sched.
    by rewrite !lookup_insert_ne by done. }
  assert (∃ tp, tasks_ s2 !! p = Some tp ∧ run_state tp = kQueued ∧
                remaining_time tp = SLICE) as (tp & Htp & Hqp & Hrp).
  { subst s2. eexists. split; [task_lookup|]. done. }
  destruct (pick_commit_head c ab spins s2 q (rest ++ [p]) tq
              Hcur2 Hb2 Htq2 Hqq)
    as (s' & Hrun & Hc' & Hp' & Hb' & HT & _).
  exists s', tp. eexists. split; [exact Hrun|].
  split; [done|]. split; [by rewrite Hp'|]. split; [done|].
  split; [by rewrite HT, lookup_insert_ne|]. split; [done|].
  split; [done|].
  split; [rewrite HT; apply lookup_insert_eq|]. done.
Qed.

(** X17.  How a running task re-joins the runqueue.  Both a preemption and
    a yield take the current task off CPU, charge it the time since it was
    picked and enqueue it on its CPU in the band its remaining slice
    selects.  The preempted task is marked [preempted] and boosted, so it
    goes to the front of the band; the yielding task keeps its
    [prio_boost] and, unless boosted, goes to the back. *)
Theorem off_cpu_requeue (p : taskp) (pc : Z) (s : Sched) (t : O1Task) :
  tasks_ s !! p = Some t →
  run_state t = kOnCpu →
  0 ≤ cpu t →
  current (cs_of s (cpu t)) = Some p →
  let rem := remaining_time t
             - (clock (now_reads s) - runtime_at_last_pick t) in
  let rq := run_queue (cs_of s (cpu t)) in
  (∃ s' t',
     TaskPreempted p false pc s = Ok tt s' ∧
     tasks_ s' = <[p := t']> (tasks_ s) ∧
     run_state t' = kQueued ∧ preempted t' = true ∧ prio_boost t' = true ∧
     remaining_time t' = (if bool_decide (0 < rem) then rem else SLICE) ∧
     current (cs_of s' (cpu t)) = None ∧
     run_queue (cs_of s' (cpu t)) =
       (if bool_decide (0 < rem) then mkO1Rq (p :: aq_ rq) (eq_ rq)
        else mkO1Rq (aq_ rq) (p :: eq_ rq))) ∧
  (∃ s' t',
     TaskYield p false pc s = Ok tt s' ∧
     tasks_ s' = <[p := t']> (tasks_ s) ∧
     run_state t' = kQueued ∧ prio_boost t' = prio_boost t ∧
     remaining_time t' = (if bool_decide (0 < rem) then rem else SLICE) ∧
     current (cs_of s' (cpu t)) = None ∧
     run_queue (cs_of s' (cpu t)) =
       (if bool_decide (0 < rem)
        then mkO1Rq (if prio_boost t then p :: aq_ rq else aq_ rq ++ [p])
                    (eq_ rq)
        else mkO1Rq (aq_ rq)
                    (if prio_boost t then p :: eq_ rq else eq_ rq ++ [p]))).
Proof using Type.
  intros Ht Hon Hc Hcur rem rq. subst rq. split.
  - unfold TaskPreempted, cpu_state_of, ping_if.
    erewrite bind_Ok by (by apply TaskOffCpu_current).
    msteps. simpl. rewrite bool_decide_true by done. msteps.
    erewrite bind_Ok by (eapply Enqueue_eval; [task_lookup | done | done]).
    simpl. fold rem. unfold ret.
    case_bool_decide; eexists _, _; (split; [reflexivity|]);
      (split; [simpl; by rewrite !insert_insert_eq|]);
      (split; [done|]); (split; [done|]); (split; [done|]);
      (split; [done|]); (split; [view_tac|]);
      rewrite cs_of_with_rq_eq; simpl; autorewrite with sched; done.
  - unfold TaskYield, cpu_state_of, ping_if.
    erewrite bind_Ok by (by apply TaskOffCpu_current).
    msteps. simpl. rewrite bool_decide_true by done. msteps.
    erewrite bind_Ok by (eapply Enqueue_eval; [task_lookup | done | done]).
    simpl. fold rem. unfold ret.
    case_bool_decide; eexists _, _; (split; [reflexivity|]);
      (split; [simpl; by rewrite !insert_insert_eq|]);
      (split; [done|]); (split; [done|]);
      (split; [done|]); (split; [view_tac|]);
      rewrite cs_of_with_rq_eq; simpl; autorewrite with sched; done.
Qed.

End O1.

(** ** The theorems at the concrete state *)

Lemma UpdateRemainingTime_spec_witness :
  tasks_ ex_s !! 1%nat = Some ex_t1 ∧
  ∃ s' t',
    UpdateRemainingTime ex_clock 1 false ex_s = Ok true s' ∧
    tasks_ s' !! 1%nat = Some t' ∧
    remaining_time t' = -5 ∧
    runtime_at_last_pick t' = 11.
Proof.
  split; [reflexivity|].
  destruct (UpdateRemainingTime_spec ex_clock 1 false ex_s ex_t1 eq_refl)
    as (b & s' & t' & Hrun & Ht' & _ & _ & Hrem & Hon & _).
  destruct (Hon eq_refl) as [Hpick Hb].
  exists s', t'.
  assert (b = true) as -> by (apply Hb; rewrite Hrem; vm_compute; discriminate).
  split; [exact Hrun|].
  split; [rewrite Ht'; apply lookup_insert_eq|].
  split; [exact Hrem | exact Hpick].
Defined.

Lemma Enqueue_spec_witness :
  tasks_ ex_s !! 3%nat = Some ex_t3 ∧
  run_state ex_t3 = kRunnable ∧
  0 ≤ cpu ex_t3 ∧
  ∃ s',
    O1Rq_Enqueue ex_SLICE 0 3 ex_s = Ok tt s' ∧
    tasks_ s' !! 3%nat = Some (set_run_state kQueued ex_t3) ∧
    run_queue (cs_of s' 0) = mkO1Rq [2; 3]%nat [].
Proof.
  assert (0 ≤ cpu ex_t3) as Hc by (simpl; lia).
  split; [reflexivity|]. split; [reflexivity|]. split; [exact Hc|].
  destruct (Enqueue_spec ex_SLICE 0 3 ex_s ex_t3 eq_refl eq_refl Hc)
    as (s' & t' & Hrun & Ht' & _ & Hactive & _).
  destruct Hactive as [-> Hrq]; [vm_compute; reflexivity|].
  exists s'. split; [exact Hrun|].
  split; [rewrite Ht'; apply lookup_insert_eq | exact Hrq].
Defined.

Lemma Dequeue_spec_witness :
  (∀ p, head (aq_ (run_queue (cs_of ex_s 0)) ++ eq_ (run_queue (cs_of ex_s 0)))
        = Some p →
        ∃ t, tasks_ ex_s !! p = Some t ∧ run_state t = kQueued) ∧
  NoDup (aq_ (run_queue (cs_of ex_s 0)) ++ eq_ (run_queue (cs_of ex_s 0))) ∧
  ∃ s', O1Rq_Dequeue 0 ex_s = Ok (Some 2%nat) s' ∧
        tasks_ s' !! 2%nat = Some (set_run_state kRunnable ex_t2) ∧
        run_queue (cs_of s' 0) = mkO1Rq [] [] ∧
        ¬ in_rq s' 0 2.
Proof.
  assert (∀ p, head (aq_ (run_queue (cs_of ex_s 0))
                     ++ eq_ (run_queue (cs_of ex_s 0))) = Some p →
               ∃ t, tasks_ ex_s !! p = Some t ∧ run_state t = kQueued) as H1.
  { intros p [= <-]. exists ex_t2. split; reflexivity. }
  assert (NoDup (aq_ (run_queue (cs_of ex_s 0))
                 ++ eq_ (run_queue (cs_of ex_s 0)))) as H2.
  { apply NoDup_cons. split; [apply not_elem_of_nil | apply NoDup_nil_2]. }
  split; [exact H1|]. split; [exact H2|].
  destruct (Dequeue_spec 0 ex_s H1 H2) as (_ & Hactive & _).
  destruct (Hactive 2%nat [] eq_refl) as (t & s' & Ht & Hrun & Hs' & Hnin).
  exists s'. split; [exact Hrun|].
  assert (t = ex_t2) as -> by (injection Ht as <-; reflexivity).
  rewrite Hs' in *. split; [reflexivity|]. split; [reflexivity|]. exact Hnin.
Defined.

Lemma Erase_spec_witness :
  tasks_ ex_s !! 2%nat = Some ex_t2 ∧
  ∃ l1 l2, [2%nat] = l1 ++ 2%nat :: l2 ∧
    O1Rq_Erase 0 2 ex_s =
      Ok tt (with_task 2 (set_run_state kRunnable ex_t2)
               (with_rq 0 (mkO1Rq (l1 ++ l2) []) ex_s)).
Proof.
  split; [reflexivity|].
  destruct (Erase_spec 0 2 ex_s ex_t2 eq_refl) as (_ & Hq).
  destruct (Hq eq_refl) as (Hactive & _).
  apply Hactive. apply list_elem_of_singleton. reflexivity.
Defined.

Lemma TaskOffCpu_null_current_witness :
  tasks_ ex_s !! 5%nat = Some ex_t5 ∧
  0 ≤ cpu ex_t5 ∧
  current (cs_of ex_s (cpu ex_t5)) = None ∧
  TaskOffCpu ex_clock 5 true true ex_s = Fault ex_s.
Proof.
  assert (0 ≤ cpu ex_t5) as Hc by (simpl; lia).
  split; [reflexivity|]. split; [exact Hc|]. split; [reflexivity|].
  exact (TaskOffCpu_null_current ex_clock 5 true true ex_s ex_t5
           eq_refl Hc eq_refl).
Defined.

(** The handler of a task-blocked message with [from_switchto] for the
    blocked task 5 stops at the null [current] of CPU 1. *)
Example TaskBlocked_from_switchto_faults :
  TaskBlocked ex_clock 5 true 1 ex_s = Fault ex_s.
Proof. reflexivity. Qed.

Lemma commit_failure_requeues_witness :
  tasks_ ex_s !! 1%nat = Some ex_t1 ∧
  cpu ex_t1 = 0 ∧
  0 ≤ 0 ∧
  ((current (cs_of ex_s 0) = Some 1%nat ∧ run_state ex_t1 = kOnCpu) ∨
   (current (cs_of ex_s 0) = None ∧ run_state ex_t1 = kRunnable)) ∧
  ∃ s' t',
    O1Schedule_commit ex_SLICE ex_clock_early 0 0 false (Some 1%nat) 0 false
      ex_s = Ok tt s' ∧
    tasks_ s' !! 1%nat = Some t' ∧
    prio_boost t' = true ∧
    run_queue (cs_of s' 0) = mkO1Rq [1; 2]%nat [] ∧
    ∃ s'', O1Schedule_pick 0 false s' = Ok (Some 1%nat) s''.
Proof.
  assert (0 ≤ 0) as H0 by lia.
  assert ((current (cs_of ex_s 0) = Some 1%nat ∧ run_state ex_t1 = kOnCpu) ∨
          (current (cs_of ex_s 0) = None ∧ run_state ex_t1 = kRunnable)) as Hc
    by (left; split; reflexivity).
  split; [reflexivity|]. split; [reflexivity|]. split; [exact H0|].
  split; [exact Hc|].
  destruct (commit_failure_requeues ex_SLICE ex_clock_early 0 0 false 0 ex_s 1
              ex_t1 eq_refl eq_refl H0 Hc)
    as (s' & t' & Hrun & _ & Ht' & Hb & _ & _ & Hrq & Hpick).
  exists s', t'. split; [exact Hrun|]. split; [exact Ht'|].
  split; [exact Hb|]. split; [exact Hrq|].
  apply Hpick. left. vm_compute. reflexivity.
Defined.

(** C4.  The code does not make the target of a failed commit the first
    candidate of the next selection on this input, although the comment
    on the failure path says that the target is pushed to the front of the
    runqueue.  CPU 0 re-commits its current task 1 while task 2 waits in
    the active band; 10ns have passed since task 1 was picked with 5ns of
    slice left.  The commit fails: task 1 is taken off CPU with its slice
    used up, so it is re-enqueued, boosted, at the head of the expired
    band behind task 2, and the next selection returns task 2, not
    task 1. *)
Lemma commit_failure_not_first_pick :
  let s1 := state_of (O1Schedule ex_SLICE ex_clock 0 0 false 0 false ex_s) in
  O1Schedule ex_SLICE ex_clock 0 0 false 0 false ex_s = Ok tt s1 ∧
  trace s1 = [EvOpen 0 (gtid ex_t1) 0 0; EvCommit 0 false] ∧
  prio_boost <$> tasks_ s1 !! 1%nat = Some true ∧
  run_queue (cs_of s1 0) = mkO1Rq [2%nat] [1%nat] ∧
  O1Schedule_pick 0 false s1
  = Ok (Some 2%nat)
       (with_rq 0 (mkO1Rq [] [1%nat])
          (with_task 2 (set_run_state kRunnable ex_t2) s1)) ∧
  result_of (O1Schedule_pick 0 false s1) ≠ Some (Some 1%nat).
Proof.
  vm_compute. repeat split; discriminate.
Qed.


(** Task 4 is migrated to a destination with the id -1: the association
    is accepted and recorded and the task's [cpu] is set, then the enqueue
    aborts on the negative id, so no ping is sent and no runqueue has
    changed. *)
Example Migrate_negative_cpu_no_ping :
  let s1 := with_task 4 (set_cpu (-1) ex_t4)
              (set_trace [EvAssociateTask (-1) 104 9 true] ex_s) in
  Migrate ex_SLICE 4 (-1) 9 true ex_s = Abort s1 ∧
  O1Rq_Enqueue ex_SLICE (-1) 4 s1 = Abort s1 ∧
  trace s1 = [EvAssociateTask (-1) 104 9 true] ∧
  cpu_states_ s1 = cpu_states_ ex_s.
Proof. vm_compute. repeat split. Qed.

Lemma AssignCpu_round_robin_witness :
  cpus_ ex_s ≠ [] ∧
  NoDup (cpus_ ex_s) ∧
  (rr_start ex_s ≤ length (cpus_ ex_s))%nat ∧
  ∃ l s',
    AssignCpu_n 5 ex_s = Ok l s' ∧
    l = [0; 1; 0; 1; 0] ∧
    (count_cpu 0 l ≤ count_cpu 1 l + 1)%nat ∧
    (count_cpu 1 l ≤ count_cpu 0 l + 1)%nat.
Proof.
  assert (cpus_ ex_s ≠ []) as H1 by discriminate.
  assert (NoDup (cpus_ ex_s)) as H2.
  { apply NoDup_cons. split.
    - intros H. apply list_elem_of_singleton in H. discriminate H.
    - apply NoDup_cons. split; [apply not_elem_of_nil | apply NoDup_nil_2]. }
  assert (rr_start ex_s ≤ length (cpus_ ex_s))%nat as H3 by (unfold rr_start; simpl; lia).
  split; [exact H1|]. split; [exact H2|]. split; [exact H3|].
  destruct (AssignCpu_round_robin 5 ex_s H1 H2 H3)
    as (l & s' & Hrun & _ & _ & _ & _ & Hbal).
  exists l, s'. split; [exact Hrun|].
  split; [by injection Hrun as <- _|].
  split; apply Hbal; simpl;
    rewrite ?elem_of_cons; auto.
Defined.

Lemma O1Schedule_preempt_clears_witness :
  preempt_curr (cs_of ex_s_preempt 0) = true ∧
  (∀ p, current (cs_of ex_s_preempt 0) = Some p →
        ∃ t, tasks_ ex_s_preempt !! p = Some t ∧ run_state t = kOnCpu ∧
             cpu t = 0 ∧ 0 ≤ 0) ∧
  ∃ s',
    O1Schedule_preempt ex_SLICE ex_clock 0 ex_s_preempt = Ok tt s' ∧
    preempt_curr (cs_of s' 0) = false ∧
    current (cs_of s' 0) = None ∧
    run_queue (cs_of s' 0) = mkO1Rq [2%nat] [1%nat].
Proof.
  assert (∀ p, current (cs_of ex_s_preempt 0) = Some p →
               ∃ t, tasks_ ex_s_preempt !! p = Some t ∧
                    run_state t = kOnCpu ∧ cpu t = 0 ∧ 0 ≤ 0) as Hcur.
  { intros p [= <-]. exists ex_t1. repeat split; try reflexivity. }
  split; [reflexivity|]. split; [exact Hcur|].
  destruct (O1Schedule_preempt_clears ex_SLICE ex_clock 0 ex_s_preempt
              eq_refl Hcur) as (s' & Hrun & Hclr & _ & _).
  exists s'. split; [exact Hrun|]. split; [exact Hclr|].
  injection Hrun as <-. split; reflexivity.
Defined.

Lemma preempt_curr_only_by_tick_witness :
  is_tick (CallTaskYield 1 false 0) = false ∧
  preempt_curr (cs_of ex_s 0) = false ∧
  preempt_curr
    (cs_of (state_of (exec ex_SLICE ex_clock (CallTaskYield 1 false 0) ex_s))
       0) ≠ true.
Proof.
  split; [reflexivity|]. split; [reflexivity|].
  intros Hset.
  destruct (preempt_curr_only_by_tick ex_SLICE ex_clock) as (_ & _ & Honly).
  pose proof (Honly (CallTaskYield 1 false 0) ex_s 0 eq_refl Hset) as Hwas.
  discriminate Hwas.
Defined.

(** ** The further properties at the concrete state *)

Lemma ex_tasks_lookup (p : taskp) (t : O1Task) :
  tasks_ ex_s !! p = Some t →
  (p = 1%nat ∧ t = ex_t1) ∨ (p = 2%nat ∧ t = ex_t2) ∨
  (p = 3%nat ∧ t = ex_t3) ∨ (p = 4%nat ∧ t = ex_t4) ∨
  (p = 5%nat ∧ t = ex_t5).
Proof.
  simpl. unfold ex_tasks. rewrite !lookup_insert.
  repeat case_decide; subst; intros [= <-]; tauto.
Defined.

Lemma ex_cs_of_other (c : Z) : c ≠ 0 → cs_of ex_s c = CpuState_init.
Proof.
  intros Hne. unfold cs_of. simpl. rewrite lookup_insert_ne by done.
  by rewrite lookup_empty.
Defined.

Lemma ex_s_INV : INV ex_s.
Proof.
  split.
  - intros c p Hin. destruct (decide (c = 0)) as [->|Hne].
    + apply list_elem_of_singleton in Hin as ->. by exists ex_t2.
    + unfold bands in Hin. rewrite (ex_cs_of_other c Hne) in Hin.
      by apply elem_of_nil in Hin.
  - intros c p Hcur. destruct (decide (c = 0)) as [->|Hne].
    + injection Hcur as <-. by exists ex_t1.
    + by rewrite (ex_cs_of_other c Hne) in Hcur.
  - intros c. destruct (decide (c = 0)) as [->|Hne].
    + apply NoDup_singleton.
    + unfold bands. rewrite (ex_cs_of_other c Hne). apply NoDup_nil_2.
  - intros p t Ht Hq.
    destruct (ex_tasks_lookup p t Ht)
      as [[-> ->]|[[-> ->]|[[-> ->]|[[-> ->]|[-> ->]]]]]; try discriminate Hq.
    apply list_elem_of_singleton. reflexivity.
  - intros p t Ht Hq.
    destruct (ex_tasks_lookup p t Ht)
      as [[-> ->]|[[-> ->]|[[-> ->]|[[-> ->]|[-> ->]]]]]; try discriminate Hq.
    reflexivity.
Defined.

Lemma Enqueue_outcomes_witness :
  tasks_ ex_s !! 4%nat = Some ex_t4 ∧
  (cpu ex_t4 < 0 ∨ run_state ex_t4 ≠ kRunnable) ∧
  O1Rq_Enqueue ex_SLICE 1 4 ex_s = Abort ex_s.
Proof.
  assert (cpu ex_t4 < 0 ∨ run_state ex_t4 ≠ kRunnable) as Hbad
    by (left; simpl; lia).
  split; [reflexivity|]. split; [exact Hbad|].
  destruct (Enqueue_outcomes ex_SLICE 1 4 ex_s) as (_ & Habort & _).
  exact (Habort ex_t4 eq_refl Hbad).
Defined.

Lemma exec_keeps_INV_witness :
  let k := CallTaskYield 1 false 0 in
  let s' := state_of (exec ex_SLICE ex_clock k ex_s) in
  INV ex_s ∧
  (∀ p r q a, k = CallTaskNew p r q a → unreferenced ex_s p) ∧
  exec ex_SLICE ex_clock k ex_s = Ok tt s' ∧
  INV s'.
Proof.
  intros k s'.
  assert (∀ p r q a, k = CallTaskNew p r q a → unreferenced ex_s p) as Hnew
    by (intros p r q a [=]).
  assert (exec ex_SLICE ex_clock k ex_s = Ok tt s') as Hrun
    by (vm_compute; reflexivity).
  split; [exact ex_s_INV|]. split; [exact Hnew|]. split; [exact Hrun|].
  exact (exec_keeps_INV ex_SLICE ex_clock k ex_s s' ex_s_INV Hnew Hrun).
Defined.

Lemma Enqueue_by_polarity_witness :
  tasks_ ex_s !! 3%nat = Some ex_t3 ∧
  O1Rq_Enqueue ex_SLICE 0 3 ex_s = O1Rq_EnqueueActive 0 3 ex_s.
Proof.
  split; [reflexivity|].
  exact (Enqueue_by_polarity ex_SLICE 0 3 ex_s ex_t3 eq_refl).
Defined.

Lemma Dequeue_n_drains_witness :
  INV ex_s ∧
  ∃ s', Dequeue_n 0 1 ex_s = Ok [Some 2%nat] s' ∧ bands s' 0 = [] ∧ INV s'.
Proof.
  split; [exact ex_s_INV|].
  exact (Dequeue_n_drains 0 ex_s ex_s_INV).
Defined.

Lemma Enqueue_then_Erase_witness :
  tasks_ ex_s !! 3%nat = Some ex_t3 ∧
  run_state ex_t3 = kRunnable ∧
  0 ≤ cpu ex_t3 ∧
  (3%nat ∉ bands ex_s 0) ∧
  ∃ s',
    (O1Rq_Enqueue ex_SLICE 0 3 ;; O1Rq_Erase 0 3) ex_s = Ok tt s' ∧
    run_queue (cs_of s' 0) = mkO1Rq [2%nat] [] ∧
    tasks_ s' !! 3%nat = Some ex_t3.
Proof.
  assert (0 ≤ cpu ex_t3) as Hc by (simpl; lia).
  assert (3%nat ∉ bands ex_s 0) as Hnin.
  { intros H. apply list_elem_of_singleton in H. discriminate H. }
  split; [reflexivity|]. split; [reflexivity|]. split; [exact Hc|].
  split; [exact Hnin|].
  destruct (Enqueue_then_Erase ex_SLICE 0 3 ex_s ex_t3 eq_refl eq_refl Hc Hnin)
    as (s' & Hrun & Hrq & HT).
  exists s'. split; [exact Hrun|]. split; [exact Hrq|].
  rewrite HT. apply lookup_insert_eq.
Defined.

Lemma departed_task_is_gone_witness :
  let s' := state_of (TaskDeparted ex_clock 2 false 0 ex_s) in
  INV ex_s ∧
  (TaskDeparted ex_clock 2 false 0 ex_s = Ok tt s' ∨
   TaskDead 2 ex_s = Ok tt s') ∧
  tasks_ s' !! 2%nat = None ∧ unreferenced s' 2 ∧ INV s'.
Proof.
  intros s'.
  assert (TaskDeparted ex_clock 2 false 0 ex_s = Ok tt s' ∨
          TaskDead 2 ex_s = Ok tt s') as Hrun
    by (left; vm_compute; reflexivity).
  split; [exact ex_s_INV|]. split; [exact Hrun|].
  exact (departed_task_is_gone ex_clock 2 false 0 ex_s s' ex_s_INV Hrun).
Defined.

Lemma on_then_off_cpu_accounting_witness :
  tasks_ ex_s !! 3%nat = Some ex_t3 ∧
  0 ≤ 1 ∧
  ∃ s' t',
    (TaskOnCpu ex_clock 3 1 ;; TaskOffCpu ex_clock 3 false false) ex_s
    = Ok tt s' ∧
    tasks_ s' !! 3%nat = Some t' ∧
    remaining_time t' = 6 ∧
    run_state t' = kRunnable ∧
    current (cs_of s' 1) = None.
Proof.
  assert (0 ≤ 1) as H1 by lia.
  split; [reflexivity|]. split; [exact H1|].
  destruct (on_then_off_cpu_accounting ex_clock 3 1 false false ex_s ex_t3
              eq_refl H1)
    as (s' & t' & Hrun & HT & Hrem & Hr & _ & Hcur & _).
  exists s', t'. split; [exact Hrun|].
  split; [rewrite HT; apply lookup_insert_eq|].
  split; [exact Hrem|]. split; [exact Hr | exact Hcur].
Defined.

Lemma CpuTick_spec_witness :
  current (cs_of ex_s 0) = Some 1%nat ∧
  tasks_ ex_s !! 1%nat = Some ex_t1 ∧
  ∃ s',
    CpuTick ex_clock 0 ex_s = Ok tt s' ∧
    preempt_curr (cs_of s' 0) = true ∧
    current (cs_of s' 0) = Some 1%nat.
Proof.
  split; [reflexivity|]. split; [reflexivity|].
  destruct (CpuTick_spec ex_clock 0 ex_s) as (_ & Htick).
  destruct (Htick 1%nat ex_t1 eq_refl eq_refl)
    as (s' & Hrun & _ & Hpre & Hcur & _).
  exists s'. split; [exact Hrun|]. split; [exact Hpre | exact Hcur].
Defined.

Lemma TaskOffCpu_charges_current_witness :
  5%nat ≠ 1%nat ∧
  tasks_ ex_s_switchto !! 5%nat = Some (set_cpu 0 ex_t5) ∧
  run_state (set_cpu 0 ex_t5) = kBlocked ∧
  0 ≤ cpu (set_cpu 0 ex_t5) ∧
  current (cs_of ex_s_switchto (cpu (set_cpu 0 ex_t5))) = Some 1%nat ∧
  tasks_ ex_s_switchto !! 1%nat = Some ex_t1 ∧
  ∃ s',
    TaskOffCpu ex_clock 5 true true ex_s_switchto = Ok tt s' ∧
    tasks_ s' !! 1%nat = Some (set_remaining_time (-5) ex_t1) ∧
    current (cs_of s' 0) = Some 1%nat.
Proof.
  assert (5%nat ≠ 1%nat) as Hne by discriminate.
  assert (0 ≤ cpu (set_cpu 0 ex_t5)) as Hc by (simpl; lia).
  split; [exact Hne|]. split; [reflexivity|]. split; [reflexivity|].
  split; [exact Hc|]. split; [reflexivity|]. split; [reflexivity|].
  destruct (TaskOffCpu_charges_current ex_clock 5 1 true ex_s_switchto
              (set_cpu 0 ex_t5) ex_t1 Hne eq_refl eq_refl Hc eq_refl eq_refl)
    as (s' & Hrun & HT & HS).
  exists s'. split; [exact Hrun|]. split.
  - rewrite HT. rewrite lookup_insert_ne by done. apply lookup_insert_eq.
  - unfold cs_of. rewrite HS. reflexivity.
Defined.

Lemma O1Schedule_yields_witness :
  preempt_curr (cs_of ex_s 0) = false ∧
  O1Schedule ex_SLICE ex_clock 0 7 true 0 true ex_s =
    Ok tt (set_trace [EvLocalYield 0 7 true] ex_s).
Proof.
  split; [reflexivity|].
  exact (proj1 (O1Schedule_yields ex_SLICE ex_clock 0 7 0 true ex_s eq_refl)).
Defined.

Lemma O1Schedule_runs_head_witness :
  preempt_curr (cs_of ex_s_idle 0) = false ∧
  current (cs_of ex_s_idle 0) = None ∧
  bands ex_s_idle 0 = [2%nat] ∧
  tasks_ ex_s_idle !! 2%nat = Some ex_t2 ∧
  run_state ex_t2 = kQueued ∧
  ∃ s' t',
    O1Schedule ex_SLICE ex_clock 0 7 false 0 true ex_s_idle = Ok tt s' ∧
    current (cs_of s' 0) = Some 2%nat ∧
    bands s' 0 = [] ∧
    tasks_ s' !! 2%nat = Some t' ∧
    run_state t' = kOnCpu.
Proof.
  split; [reflexivity|]. split; [reflexivity|]. split; [reflexivity|].
  split; [reflexivity|]. split; [reflexivity|].
  destruct (O1Schedule_runs_head ex_SLICE ex_clock 0 7 0 ex_s_idle 2 [] ex_t2
              eq_refl eq_refl eq_refl eq_refl eq_refl)
    as (s' & t' & Hrun & Hcur & Hb & HT & -> & _).
  exists s'. eexists. split; [exact Hrun|]. split; [exact Hcur|].
  split; [exact Hb|]. split; [rewrite HT; apply lookup_insert_eq|].
  reflexivity.
Defined.

Lemma O1Schedule_lone_task_witness :
  preempt_curr (cs_of ex_s_lone 0) = true ∧
  current (cs_of ex_s_lone 0) = Some 1%nat ∧
  bands ex_s_lone 0 = [] ∧
  tasks_ ex_s_lone !! 1%nat = Some ex_t1 ∧
  run_state ex_t1 = kOnCpu ∧
  cpu ex_t1 = 0 ∧
  0 ≤ 0 ∧
  ∃ s' t',
    O1Schedule ex_SLICE ex_clock 0 7 false 0 true ex_s_lone = Ok tt s' ∧
    current (cs_of s' 0) = Some 1%nat ∧
    preempt_curr (cs_of s' 0) = false ∧
    tasks_ s' !! 1%nat = Some t' ∧
    remaining_time t' = 100.
Proof.
  assert (0 ≤ 0) as H0 by lia.
  split; [reflexivity|]. split; [reflexivity|]. split; [reflexivity|].
  split; [reflexivity|]. split; [reflexivity|]. split; [reflexivity|].
  split; [exact H0|].
  destruct (O1Schedule_lone_task ex_SLICE ex_clock 0 7 0 ex_s_lone 1 ex_t1
              eq_refl eq_refl eq_refl eq_refl eq_refl eq_refl H0)
    as (s' & t' & Hrun & Hcur & Hpre & _ & HT & _ & _ & _ & Hrem & _).
  exists s', t'. split; [exact Hrun|]. split; [exact Hcur|].
  split; [exact Hpre|]. split; [rewrite HT; apply lookup_insert_eq|].
  exact Hrem.
Defined.

Lemma TaskNew_spec_witness :
  tasks_ ex_s !! 4%nat = Some ex_t4 ∧
  cpu ex_t4 = -1 ∧
  (rr_start ex_s ≤ length (cpus_ ex_s))%nat ∧
  cpus_ ex_s !! (rr_start ex_s mod length (cpus_ ex_s))%nat = Some 0 ∧
  0 ≤ 0 ∧
  0 < ex_SLICE ∧
  ∃ s' t',
    TaskNew ex_SLICE 4 true 9 true ex_s = Ok tt s' ∧
    tasks_ s' !! 4%nat = Some t' ∧
    run_state t' = kQueued ∧ cpu t' = 0 ∧
    run_queue (cs_of s' 0) = mkO1Rq [4; 2]%nat [] ∧
    rr_next s' = Some 1%nat.
Proof.
  assert (rr_start ex_s ≤ length (cpus_ ex_s))%nat as Hle
    by (unfold rr_start; simpl; lia).
  assert (0 ≤ 0) as H0 by lia.
  assert (0 < ex_SLICE) as Hs by (unfold ex_SLICE; lia).
  split; [reflexivity|]. split; [reflexivity|]. split; [exact Hle|].
  split; [reflexivity|]. split; [exact H0|]. split; [exact Hs|].
  destruct (TaskNew_spec ex_SLICE 4 9 true ex_s ex_t4 eq_refl) as (_ & Hrun).
  destruct (Hrun 0 eq_refl Hle eq_refl H0 Hs)
    as (s' & t' & Hok & HT & -> & Hrq & Hrr & _).
  exists s'. eexists. split; [exact Hok|].
  split; [rewrite HT; apply lookup_insert_eq|].
  split; [reflexivity|]. split; [reflexivity|].
  split; [exact Hrq | exact Hrr].
Defined.

Lemma TaskRunnable_placed_witness :
  tasks_ ex_s !! 5%nat = Some ex_t5 ∧
  run_state ex_t5 = kBlocked ∧
  0 ≤ cpu ex_t5 ∧
  ∃ s' t',
    TaskRunnable ex_SLICE 5 false 9 true ex_s = Ok tt s' ∧
    tasks_ s' !! 5%nat = Some t' ∧
    run_state t' = kQueued ∧
    prio_boost t' = true ∧
    run_queue (cs_of s' 1) = mkO1Rq [5%nat] [].
Proof.
  assert (0 ≤ cpu ex_t5) as Hc by (simpl; lia).
  split; [reflexivity|]. split; [reflexivity|]. split; [exact Hc|].
  destruct (TaskRunnable_placed ex_SLICE 5 false 9 true ex_s ex_t5 eq_refl)
    as (_ & Hrun).
  destruct (Hrun eq_refl Hc) as (s' & t' & Hok & HT & Hq & Hb & _ & Hrq).
  exists s', t'. split; [exact Hok|].
  split; [rewrite HT; apply lookup_insert_eq|].
  split; [exact Hq|]. split; [exact Hb | exact Hrq].
Defined.

Lemma ex_s_preempt_INV : INV ex_s_preempt.
Proof.
  apply (INV_same_view ex_s ex_s_preempt ex_s_INV); [reflexivity | |].
  - intros c. unfold ex_s_preempt. destruct (decide (0 = c)) as [<-|Hne].
    + by rewrite cs_of_with_cs_eq.
    + by rewrite cs_of_with_cs_ne.
  - intros c. unfold bands, ex_s_preempt.
    destruct (decide (0 = c)) as [<-|Hne].
    + by rewrite cs_of_with_cs_eq.
    + by rewrite cs_of_with_cs_ne.
Defined.

Lemma O1Schedule_rotates_witness :
  INV ex_s_preempt ∧
  0 ≤ 0 ∧
  preempt_curr (cs_of ex_s_preempt 0) = true ∧
  current (cs_of ex_s_preempt 0) = Some 1%nat ∧
  tasks_ ex_s_preempt !! 1%nat = Some ex_t1 ∧
  prio_boost ex_t1 = false ∧
  remaining_time ex_t1
  - (ex_clock (now_reads ex_s_preempt) - runtime_at_last_pick ex_t1) ≤ 0 ∧
  bands ex_s_preempt 0 = [2%nat] ∧
  ∃ s',
    O1Schedule ex_SLICE ex_clock 0 7 false 0 true ex_s_preempt = Ok tt s' ∧
    current (cs_of s' 0) = Some 2%nat ∧
    bands s' 0 = [1%nat].
Proof.
  assert (0 ≤ 0) as H0 by lia.
  assert (remaining_time ex_t1
          - (ex_clock (now_reads ex_s_preempt) - runtime_at_last_pick ex_t1)
          ≤ 0) as Hrem by (vm_compute; discriminate).
  split; [exact ex_s_preempt_INV|]. split; [exact H0|].
  split; [reflexivity|]. split; [reflexivity|]. split; [reflexivity|].
  split; [reflexivity|]. split; [exact Hrem|]. split; [reflexivity|].
  destruct (O1Schedule_rotates ex_SLICE ex_clock 0 7 0 ex_s_preempt 1 2 []
              ex_t1 ex_s_preempt_INV H0 eq_refl eq_refl eq_refl eq_refl Hrem
              eq_refl)
    as (s' & tp & tq & Hrun & Hcur & _ & Hb & _).
  exists s'. split; [exact Hrun|]. split; [exact Hcur | exact Hb].
Defined.

Lemma off_cpu_requeue_witness :
  tasks_ ex_s !! 1%nat = Some ex_t1 ∧
  run_state ex_t1 = kOnCpu ∧
  0 ≤ cpu ex_t1 ∧
  current (cs_of ex_s (cpu ex_t1)) = Some 1%nat ∧
  (∃ s', TaskPreempted ex_SLICE ex_clock 1 false 0 ex_s = Ok tt s' ∧
         run_queue (cs_of s' 0) = mkO1Rq [2%nat] [1%nat]) ∧
  (∃ s', TaskYield ex_SLICE ex_clock 1 false 0 ex_s = Ok tt s' ∧
         run_queue (cs_of s' 0) = mkO1Rq [2%nat] [1%nat]).
Proof.
  assert (0 ≤ cpu ex_t1) as Hc by (simpl; lia).
  split; [reflexivity|]. split; [reflexivity|]. split; [exact Hc|].
  split; [reflexivity|].
  destruct (off_cpu_requeue ex_SLICE ex_clock 1 0 ex_s ex_t1 eq_refl eq_refl
              Hc eq_refl)
    as [(s1 & t1 & Hrun1 & _ & _ & _ & _ & _ & _ & Hrq1)
        (s2 & t2 & Hrun2 & _ & _ & _ & _ & _ & Hrq2)].
  split; [exists s1 | exists s2]; (split; [done|]).
  - exact Hrq1.
  - exact Hrq2.
Defined.
